(** * Portab session containers: a shallow embedding of the Firefox exporter

    The development follows the extension's scripts:
    - [background.js] (full version): [isValidURL], [sanitizeURL],
      [generateHash], [generateHMAC], [encryptData], [decryptData],
      [createSession], [createSessionFromSelectedTabs], [downloadSession],
      [decryptSession], [verifyHMAC], [importSession];
    - the earlier [background.js] (module [Legacy]): [isValidURL],
      [createSession];
    - [popup.js]: the selection set and [handleExportSelectedConfirm];
    - [import.js]: [processSession].

    JavaScript text is a [string] holding its UTF-8 bytes, a [Uint8Array] is a
    [list ascii].  The WebCrypto primitives the scripts call are written out
    from their standards (FIPS 180-4, RFC 2104, RFC 8018, FIPS 197,
    SP 800-38D); what the browser decides (URL parsing, JSON parsing, the
    window and tab API, the clock, the number of arguments a call can take)
    is the interface [Host]. *)

From Stdlib Require Import List String Ascii NArith ZArith Lia Bool Arith.
From Stdlib Require Import DecimalString DecimalNat ZifyNat.
Import ListNotations.

Set Warnings "-register-all".
Local Open Scope string_scope.
Local Open Scope list_scope.

(** Concatenation of text. *)
Infix "+++" := String.append (at level 60, right associativity).

(** Division and remainder by constants, for [lia]. *)
Ltac divmod_lia := zify; Z.to_euclidean_division_equations; lia.

(* ===================================================================== *)
(** ** Bytes, decimal and hexadecimal text *)
(* ===================================================================== *)

Module Bytes.

Definition bytes := list ascii.

(** [new TextEncoder().encode(s)]. *)
Definition encode (s : string) : bytes := list_ascii_of_string s.

(** UTF-8 encoding of U+FEFF. *)
Definition bom : bytes := map ascii_of_N [239; 187; 191]%N.

(** [new TextDecoder().decode(b)]: a leading byte order mark is dropped.
    The replacement of ill-formed sequences by U+FFFD is not modelled. *)
Definition decode (b : bytes) : string :=
  match b with
  | x :: y :: z :: rest =>
      if (N_of_ascii x =? 239)%N && (N_of_ascii y =? 187)%N && (N_of_ascii z =? 191)%N
      then string_of_list_ascii rest
      else string_of_list_ascii b
  | _ => string_of_list_ascii b
  end.

Definition xor_byte (a b : ascii) : ascii :=
  match a, b with
  | Ascii a0 a1 a2 a3 a4 a5 a6 a7, Ascii b0 b1 b2 b3 b4 b5 b6 b7 =>
      Ascii (xorb a0 b0) (xorb a1 b1) (xorb a2 b2) (xorb a3 b3)
            (xorb a4 b4) (xorb a5 b5) (xorb a6 b6) (xorb a7 b7)
  end.

(** [x] xor the leading bytes of [ks]; a key stream that runs out counts as
    zero bytes, so the result is as long as [x]. *)
Fixpoint xor_with (x ks : bytes) : bytes :=
  match x with
  | [] => []
  | b :: x' => xor_byte b (hd zero ks) :: xor_with x' (tl ks)
  end.

(** Big-endian value of a byte string. *)
Definition be_value (b : bytes) : N :=
  fold_left (fun acc x => acc * 256 + N_of_ascii x)%N b 0%N.

(** The [len] low-order bytes of [n], most significant first. *)
Fixpoint be_bytes (len : nat) (n : N) : bytes :=
  match len with
  | O => []
  | S k => be_bytes k (n / 256)%N ++ [ascii_of_N (n mod 256)%N]
  end.

(** [String(n)] for a non-negative integer. *)
Definition decimal (n : nat) : string := NilEmpty.string_of_uint (Nat.to_uint n).

Definition hex_digit (n : N) : ascii :=
  nth (N.to_nat n) (list_ascii_of_string "0123456789abcdef") "0"%char.

(** [b.toString(16).padStart(2, '0')] joined over the array. *)
Definition hex (b : bytes) : string :=
  string_of_list_ascii
    (flat_map (fun x => [hex_digit (N_of_ascii x / 16)%N; hex_digit (N_of_ascii x mod 16)%N]) b).

(** [s.startsWith(p)]. *)
Definition startsWith (s p : string) : bool := String.prefix p s.

Definition string_eqb (a b : string) : bool := String.eqb a b.

Definition bytes_eqb (a b : bytes) : bool :=
  String.eqb (string_of_list_ascii a) (string_of_list_ascii b).

End Bytes.
Export Bytes.

(* ===================================================================== *)
(** ** Base64: [btoa] on the text whose code units are the bytes, and
       [Uint8Array.from(atob(text), c => c.charCodeAt(0))] *)
(* ===================================================================== *)

Module Base64.
Local Open Scope N_scope.

Definition alphabet : string :=
  "ABCDEFGHIJKLMNOPQRSTUVWXYZabcdefghijklmnopqrstuvwxyz0123456789+/".

Definition pad_char : ascii := "="%char.

Definition char_of_sextet (n : N) : ascii :=
  nth (N.to_nat n) (list_ascii_of_string alphabet) pad_char.

Definition sextet_of_char (c : ascii) : option N :=
  let n := N_of_ascii c in
  if (65 <=? n) && (n <=? 90) then Some (n - 65)
  else if (97 <=? n) && (n <=? 122) then Some (n - 71)
  else if (48 <=? n) && (n <=? 57) then Some (n + 4)
  else if n =? 43 then Some 62
  else if n =? 47 then Some 63
  else None.

(** The 6-bit groups of a byte string; a last group is filled with zero bits. *)
Fixpoint sextets (b : bytes) : list N :=
  match b with
  | [] => []
  | [x] => let x := N_of_ascii x in [x / 4; (x mod 4) * 16]
  | [x; y] =>
      let x := N_of_ascii x in let y := N_of_ascii y in
      [x / 4; (x mod 4) * 16 + y / 16; (y mod 16) * 4]
  | x :: y :: z :: rest =>
      let x := N_of_ascii x in let y := N_of_ascii y in let z := N_of_ascii z in
      x / 4 :: (x mod 4) * 16 + y / 16 :: (y mod 16) * 4 + z / 64 :: z mod 64
        :: sextets rest
  end.

Definition padding (len : nat) : list ascii :=
  match (len mod 3)%nat with
  | 1%nat => [pad_char; pad_char]
  | 2%nat => [pad_char]
  | _ => []
  end.

(** [btoa(s)] for the text [s] whose code units are the bytes [b]; every
    code unit of such a text is below 256, so [btoa] does not throw.  The
    call [String.fromCharCode(...b)] that makes the text out of an array is
    not part of it: see [btoa_spread]. *)
Definition btoa_bytes (b : bytes) : string :=
  string_of_list_ascii (map char_of_sextet (sextets b) ++ padding (List.length b)).

(** ASCII whitespace: TAB, LF, FF, CR, SPACE. *)
Definition is_whitespace (c : ascii) : bool :=
  let n := N_of_ascii c in
  (n =? 9) || (n =? 10) || (n =? 12) || (n =? 13) || (n =? 32).

(** One or two [=] at the end of the text are removed. *)
Fixpoint drop_padding (l : list ascii) : list ascii :=
  match l with
  | [] => []
  | [p] => if Ascii.eqb p pad_char then [] else [p]
  | [p; q] =>
      if Ascii.eqb q pad_char then (if Ascii.eqb p pad_char then [] else [p]) else [p; q]
  | c :: r => c :: drop_padding r
  end.

(** Forgiving decode, step 2: padding is removed from a text whose length is
    a multiple of four. *)
Definition strip_padding (l : list ascii) : list ascii :=
  if (List.length l mod 4 =? 0)%nat then drop_padding l else l.

Fixpoint sextets_of_chars (l : list ascii) : option (list N) :=
  match l with
  | [] => Some []
  | c :: r =>
      match sextet_of_char c, sextets_of_chars r with
      | Some n, Some ns => Some (n :: ns)
      | _, _ => None
      end
  end.

(** Bytes of a run of 6-bit groups; left-over bits of the last group are
    discarded. *)
Fixpoint decode_sextets (l : list N) : bytes :=
  match l with
  | a :: b :: c :: d :: rest =>
      ascii_of_N (a * 4 + b / 16) :: ascii_of_N ((b mod 16) * 16 + c / 4)
        :: ascii_of_N ((c mod 4) * 64 + d) :: decode_sextets rest
  | [a; b; c] => [ascii_of_N (a * 4 + b / 16); ascii_of_N ((b mod 16) * 16 + c / 4)]
  | [a; b] => [ascii_of_N (a * 4 + b / 16)]
  | _ => []
  end.

(** [None] stands for the [InvalidCharacterError] that [atob] throws. *)
Definition atob_bytes (text : string) : option bytes :=
  let l := strip_padding (filter (fun c => negb (is_whitespace c)) (list_ascii_of_string text)) in
  if (List.length l mod 4 =? 1)%nat then None
  else match sextets_of_chars l with
       | Some v => Some (decode_sextets v)
       | None => None
       end.

End Base64.

(* ===================================================================== *)
(** ** SHA-256 (FIPS 180-4): [crypto.subtle.digest('SHA-256', data)] *)
(* ===================================================================== *)

Module SHA256.
Local Open Scope N_scope.

Definition mask32 : N := 4294967295.
Definition add32 (x y : N) : N := (x + y) mod 4294967296.
Definition rotr (n x : N) : N :=
  N.lor (N.shiftr x n) (N.land (N.shiftl x (32 - n)) mask32).

Definition Ch (x y z : N) : N := N.lxor (N.land x y) (N.land (N.lxor x mask32) z).
Definition Maj (x y z : N) : N :=
  N.lxor (N.lxor (N.land x y) (N.land x z)) (N.land y z).
Definition bsig0 (x : N) : N := N.lxor (N.lxor (rotr 2 x) (rotr 13 x)) (rotr 22 x).
Definition bsig1 (x : N) : N := N.lxor (N.lxor (rotr 6 x) (rotr 11 x)) (rotr 25 x).
Definition ssig0 (x : N) : N := N.lxor (N.lxor (rotr 7 x) (rotr 18 x)) (N.shiftr x 3).
Definition ssig1 (x : N) : N := N.lxor (N.lxor (rotr 17 x) (rotr 19 x)) (N.shiftr x 10).

Definition is_prime (n : N) : bool :=
  forallb (fun d => negb (n mod N.of_nat d =? 0)) (seq 2 (N.to_nat n - 2)).

(** The first sixty-four primes, 2 to 311. *)
Definition primes : list N :=
  Eval vm_compute in filter is_prime (map N.of_nat (seq 2 310)).

(** Integer cube root, by bisection on the bits below [2 ^ bits]. *)
Fixpoint cube_root (bits : nat) (n r : N) : N :=
  match bits with
  | O => r
  | S k =>
      let c := r + 2 ^ N.of_nat k in
      cube_root k n (if c * c * c <=? n then c else r)
  end.

(** The round constants: the first 32 bits of the fractional parts of the
    cube roots of the primes. *)
Definition K : list N :=
  Eval vm_compute in map (fun p => cube_root 36 (p * 2 ^ 96) 0 mod 2 ^ 32) primes.

(** The initial hash value: the same of the square roots of the first eight. *)
Definition H0 : list N :=
  Eval vm_compute in map (fun p => N.sqrt (p * 2 ^ 64) mod 2 ^ 32) (firstn 8 primes).

Definition pad (msg : bytes) : bytes :=
  let l := List.length msg in
  msg ++ ascii_of_N 128 :: repeat zero ((64 - (l + 9) mod 64) mod 64)
      ++ be_bytes 8 (8 * N.of_nat l).

Fixpoint words (b : bytes) : list N :=
  match b with
  | x0 :: x1 :: x2 :: x3 :: rest => be_value [x0; x1; x2; x3] :: words rest
  | _ => []
  end.

Definition registers : Type := N * N * N * N * N * N * N * N.

Definition round (k w : N) (s : registers) : registers :=
  let '(a, b, c, d, e, f, g, h) := s in
  let t1 := add32 (add32 (add32 (add32 h (bsig1 e)) (Ch e f g)) k) w in
  let t2 := add32 (bsig0 a) (Maj a b c) in
  (add32 t1 t2, a, b, c, add32 d t1, e, f, g).

(** [win] holds the sixteen most recent words of the message schedule. *)
Definition next_word (win : list N) : N :=
  add32 (add32 (add32 (ssig1 (nth 14 win 0)) (nth 9 win 0)) (ssig0 (nth 1 win 0)))
        (nth 0 win 0).

Fixpoint rounds (ks win : list N) (s : registers) : registers :=
  match ks with
  | [] => s
  | k :: ks' => rounds ks' (tl win ++ [next_word win]) (round k (hd 0 win) s)
  end.

Definition compress (s : registers) (block : list N) : registers :=
  let '(a, b, c, d, e, f, g, h) := s in
  let '(a', b', c', d', e', f', g', h') := rounds K block s in
  (add32 a a', add32 b b', add32 c c', add32 d d',
   add32 e e', add32 f f', add32 g g', add32 h h').

Fixpoint blocks (n : nat) (ws : list N) (s : registers) : registers :=
  match n with
  | O => s
  | S n' => blocks n' (skipn 16 ws) (compress s (firstn 16 ws))
  end.

Definition initial : registers :=
  (nth 0 H0 0, nth 1 H0 0, nth 2 H0 0, nth 3 H0 0,
   nth 4 H0 0, nth 5 H0 0, nth 6 H0 0, nth 7 H0 0).

Definition sha256 (msg : bytes) : bytes :=
  let ws := words (pad msg) in
  let '(a, b, c, d, e, f, g, h) := blocks (List.length ws / 16) ws initial in
  flat_map (be_bytes 4) [a; b; c; d; e; f; g; h].

End SHA256.

(* ===================================================================== *)
(** ** HMAC-SHA-256 (RFC 2104) and PBKDF2 (RFC 8018) *)
(* ===================================================================== *)

Module HMAC.

(** The key as one 64-byte block: a longer key is hashed first, a shorter one
    is filled up with zero bytes. *)
Definition key_block (key : bytes) : bytes :=
  let k := if (64 <? List.length key)%nat then SHA256.sha256 key else key in
  k ++ repeat zero (64 - List.length k).

Definition ipad : ascii := ascii_of_N 54.
Definition opad : ascii := ascii_of_N 92.

Definition hmac (key msg : bytes) : bytes :=
  let k0 := key_block key in
  SHA256.sha256 (map (xor_byte opad) k0
                   ++ SHA256.sha256 (map (xor_byte ipad) k0 ++ msg)).

End HMAC.

Module PBKDF2.

(** Block [i] of the derived key: [U1 xor U2 xor ... xor Uc]. *)
Definition block (prf : bytes -> bytes) (salt : bytes) (c i : N) : bytes :=
  let u1 := prf (salt ++ be_bytes 4 i) in
  snd (N.iter (c - 1) (fun ut => let u := prf (fst ut) in (u, xor_with (snd ut) u))
         (u1, u1)).

(** [deriveKey] with [{name: 'PBKDF2', hash: 'SHA-256'}] for a 256-bit key:
    one block of HMAC-SHA-256 output. *)
Definition derive (password salt : bytes) (iterations : N) : bytes :=
  block (HMAC.hmac password) salt iterations 1.

End PBKDF2.

(* ===================================================================== *)
(** ** AES-256 (FIPS 197) and the Galois/Counter Mode (SP 800-38D) *)
(* ===================================================================== *)

Module AES.
Local Open Scope N_scope.

(** Multiplication by [x] in GF(2^8) modulo [x^8 + x^4 + x^3 + x + 1]. *)
Definition xtime (a : N) : N :=
  let d := a * 2 in if 256 <=? d then N.lxor (d - 256) 27 else d.

Fixpoint gf_mul_bits (n : nat) (a b : N) : N :=
  match n with
  | O => 0
  | S k => N.lxor (if N.odd b then a else 0) (gf_mul_bits k (xtime a) (b / 2))
  end.
Definition gf_mul (a b : N) : N := gf_mul_bits 8 a b.

Fixpoint gf_pow (a : N) (n : nat) : N :=
  match n with
  | O => 1
  | S k => gf_mul a (gf_pow a k)
  end.

(** The multiplicative inverse, with 0 mapped to 0. *)
Definition gf_inv (a : N) : N := gf_pow a 254.

Definition rotl8 (a k : N) : N := (a * 2 ^ k) mod 256 + a / 2 ^ (8 - k).

(** Section 5.1.1: the inverse followed by the affine transformation. *)
Definition sbox_value (a : N) : N :=
  let b := gf_inv a in
  N.lxor (N.lxor (N.lxor (N.lxor (N.lxor b (rotl8 b 1)) (rotl8 b 2)) (rotl8 b 3)) (rotl8 b 4)) 99.

Definition sbox_table : list N :=
  Eval vm_compute in map (fun i => sbox_value (N.of_nat i)) (seq 0 256).

Definition sbox (a : N) : N := nth (N.to_nat a) sbox_table 0.

Definition xor_words (a b : list N) : list N := map (fun p => N.lxor (fst p) (snd p)) (combine a b).

(** Key expansion for eight-word keys: [w] holds words 0 to [i - 1]. *)
Definition next_key_word (w : list (list N)) (i : nat) : list N :=
  let prev := nth (i - 1) w [] in
  let temp :=
    if (i mod 8 =? 0)%nat then
      xor_words (map sbox (tl prev ++ firstn 1 prev)) [2 ^ N.of_nat (i / 8 - 1); 0; 0; 0]
    else if (i mod 8 =? 4)%nat then map sbox prev
    else prev in
  xor_words (nth (i - 8) w []) temp.

Fixpoint key_words (w : bytes) : list (list N) :=
  match w with
  | a :: b :: c :: d :: rest => map N_of_ascii [a; b; c; d] :: key_words rest
  | _ => []
  end.

Definition expand_key (key : bytes) : list (list N) :=
  fold_left (fun w i => w ++ [next_key_word w i]) (seq 8 52) (key_words key).

Definition round_key (w : list (list N)) (r : nat) : list N :=
  List.concat (firstn 4 (skipn (4 * r) w)).

Definition sub_bytes (s : list N) : list N := map sbox s.

(** Byte [r + 4c] of the state is row [r] of column [c]. *)
Definition shift_rows (s : list N) : list N :=
  map (fun i => nth (i mod 4 + 4 * ((i / 4 + i mod 4) mod 4))%nat s 0) (seq 0 16).

Definition mix_column (c : list N) : list N :=
  let a0 := nth 0 c 0 in let a1 := nth 1 c 0 in
  let a2 := nth 2 c 0 in let a3 := nth 3 c 0 in
  [ N.lxor (N.lxor (gf_mul 2 a0) (gf_mul 3 a1)) (N.lxor a2 a3);
    N.lxor (N.lxor a0 (gf_mul 2 a1)) (N.lxor (gf_mul 3 a2) a3);
    N.lxor (N.lxor a0 a1) (N.lxor (gf_mul 2 a2) (gf_mul 3 a3));
    N.lxor (N.lxor (gf_mul 3 a0) a1) (N.lxor a2 (gf_mul 2 a3)) ].

Definition mix_columns (s : list N) : list N :=
  flat_map (fun c => mix_column (firstn 4 (skipn (4 * c) s))) (seq 0 4).

Definition cipher (w : list (list N)) (input : list N) : list N :=
  let s := xor_words input (round_key w 0) in
  let s := fold_left
             (fun s r => xor_words (mix_columns (shift_rows (sub_bytes s))) (round_key w r))
             (seq 1 13) s in
  xor_words (shift_rows (sub_bytes s)) (round_key w 14).

(** The forward cipher on a 128-bit block, given as a number. *)
Definition encrypt_block (key : bytes) (x : N) : N :=
  fold_left (fun acc b => acc * 256 + b)
    (cipher (expand_key key) (map N_of_ascii (be_bytes 16 x))) 0.

End AES.

Module GCM.
Local Open Scope N_scope.

Definition R : N := 225 * 2 ^ 120.

(** Multiplication of blocks (section 6.3); bit 0 is the most significant. *)
Definition mul_step (x : N) (zv : N * N) (i : nat) : N * N :=
  let '(z, v) := zv in
  (if N.testbit x (127 - N.of_nat i) then N.lxor z v else z,
   if N.testbit v 0 then N.lxor (N.shiftr v 1) R else N.shiftr v 1).

Definition mul (x y : N) : N := fst (fold_left (mul_step x) (seq 0 128) (0, y)).

Definition pad16 (b : bytes) : bytes :=
  b ++ repeat zero ((16 - List.length b mod 16) mod 16).

Fixpoint chunks (n : nat) (b : bytes) : list N :=
  match n with
  | O => []
  | S k => be_value (firstn 16 b) :: chunks k (skipn 16 b)
  end.

(** GHASH of [data || 0* || 0^64 || [len data]_64]: the hash of a text with
    no additional authenticated data. *)
Definition ghash (h : N) (data : bytes) : N :=
  let input := pad16 data ++ be_bytes 8 0 ++ be_bytes 8 (8 * N.of_nat (List.length data)) in
  fold_left (fun y x => mul (N.lxor y x) h) (chunks (List.length input / 16) input) 0.

Definition inc32 (cb : N) : N := (cb / 2 ^ 32) * 2 ^ 32 + (cb mod 2 ^ 32 + 1) mod 2 ^ 32.

Definition counter0 (h : N) (iv : bytes) : N :=
  if (List.length iv =? 12)%nat then be_value iv * 2 ^ 32 + 1 else ghash h iv.

(** GCTR with the block cipher [E]; [fuel] bounds the number of blocks. *)
Fixpoint gctr (E : N -> N) (fuel : nat) (cb : N) (x : bytes) : bytes :=
  match fuel with
  | O => []
  | S f =>
      match x with
      | [] => []
      | _ => xor_with (firstn 16 x) (be_bytes 16 (E cb)) ++ gctr E f (inc32 cb) (skipn 16 x)
      end
  end.

Definition tag (E : N -> N) (h j : N) (c : bytes) : bytes :=
  xor_with (be_bytes 16 (ghash h c)) (be_bytes 16 (E j)).

(** [crypto.subtle.encrypt({name: 'AES-GCM', iv}, key, data)]: the cipher
    text followed by the 128-bit tag.  [None] is an [OperationError]. *)
Definition encrypt (key iv data : bytes) : option bytes :=
  match iv with
  | [] => None
  | _ =>
      let E := AES.encrypt_block key in
      let h := E 0 in
      let j := counter0 h iv in
      let c := gctr E (List.length data) (inc32 j) data in
      Some (c ++ tag E h j c)
  end.

(** [crypto.subtle.decrypt({name: 'AES-GCM', iv}, key, data)]. *)
Definition decrypt (key iv data : bytes) : option bytes :=
  match iv with
  | [] => None
  | _ =>
      if (List.length data <? 16)%nat then None
      else
        let E := AES.encrypt_block key in
        let h := E 0 in
        let j := counter0 h iv in
        let c := firstn (List.length data - 16) data in
        let t := skipn (List.length data - 16) data in
        if bytes_eqb t (tag E h j c)
        then Some (gctr E (List.length c) (inc32 j) c)
        else None
  end.

End GCM.

(* ===================================================================== *)
(** ** JSON values and [JSON.stringify(value, null, 2)] *)
(* ===================================================================== *)

Module JSON.

(** An object lists its properties in enumeration order.  The numbers of the
    format are counts. *)
Inductive value : Type :=
| JNull
| JBool (b : bool)
| JNumber (n : nat)
| JString (s : string)
| JArray (items : list value)
| JObject (fields : list (string * value)).

Definition newline : string := String (ascii_of_N 10) "".
Definition dquote : string := String (ascii_of_N 34) "".

(** QuoteJSONString, one code unit at a time. *)
Definition escape (c : ascii) : string :=
  let n := N_of_ascii c in
  if (n =? 34)%N then String (ascii_of_N 92) dquote
  else if (n =? 92)%N then String (ascii_of_N 92) (String (ascii_of_N 92) "")
  else if (n =? 8)%N then String (ascii_of_N 92) "b"
  else if (n =? 12)%N then String (ascii_of_N 92) "f"
  else if (n =? 10)%N then String (ascii_of_N 92) "n"
  else if (n =? 13)%N then String (ascii_of_N 92) "r"
  else if (n =? 9)%N then String (ascii_of_N 92) "t"
  else if (n <? 32)%N then
    String (ascii_of_N 92) ("u00" ++ String (hex_digit (n / 16)) (String (hex_digit (n mod 16)) ""))
  else String c "".

Definition quote (s : string) : string :=
  dquote ++ String.concat "" (map escape (list_ascii_of_string s)) ++ dquote.

(** SerializeJSONProperty with the gap of two spaces; [indent] is the
    indentation of the enclosing line. *)
Fixpoint stringify_at (indent : string) (v : value) : string :=
  match v with
  | JNull => "null"
  | JBool true => "true"
  | JBool false => "false"
  | JNumber n => decimal n
  | JString s => quote s
  | JArray [] => "[]"
  | JArray items =>
      let inner := indent ++ "  " in
      "[" ++ newline
        ++ String.concat ("," ++ newline) (map (fun x => inner ++ stringify_at inner x) items)
        ++ newline ++ indent ++ "]"
  | JObject [] => "{}"
  | JObject fields =>
      let inner := indent ++ "  " in
      "{" ++ newline
        ++ String.concat ("," ++ newline)
             (map (fun kv => inner ++ quote (fst kv) ++ ": " ++ stringify_at inner (snd kv)) fields)
        ++ newline ++ indent ++ "}"
  end%string.

Definition stringify (v : value) : string := stringify_at "" v.

(** [o[k]] on an object; [None] is [undefined]. *)
Fixpoint lookup {A : Type} (k : string) (o : list (string * A)) : option A :=
  match o with
  | [] => None
  | (k', v) :: rest => if String.eqb k k' then Some v else lookup k rest
  end.

(** [o[k] = v]: an existing property keeps its place, a new one comes last. *)
Fixpoint assign {A : Type} (k : string) (v : A) (o : list (string * A)) : list (string * A) :=
  match o with
  | [] => [(k, v)]
  | (k', v') :: rest =>
      if String.eqb k k' then (k', v) :: rest else (k', v') :: assign k v rest
  end.

Definition keys {A : Type} (o : list (string * A)) : list string := map fst o.

End JSON.
Export JSON.

(* ===================================================================== *)
(** ** Effects: exceptions over a threaded state *)
(* ===================================================================== *)

(** An exception is the [message] of the [Error] thrown. *)
Definition Exn : Type := string.

(** A computation over the state [S]: the state reached, and a value or the
    exception it ended with. *)
Definition M (S A : Type) : Type := S -> (Exn + A) * S.

Definition ret {S A : Type} (a : A) : M S A := fun s => (inr a, s).
Definition throw {S A : Type} (e : Exn) : M S A := fun s => (inl e, s).
Definition bind {S A B : Type} (m : M S A) (f : A -> M S B) : M S B :=
  fun s => match m s with
           | (inr a, s') => f a s'
           | (inl e, s') => (inl e, s')
           end.
(** [try { m } catch (error) { h(error.message) }]. *)
Definition catch {S A : Type} (m : M S A) (h : Exn -> M S A) : M S A :=
  fun s => match m s with
           | (inr a, s') => (inr a, s')
           | (inl e, s') => h e s'
           end.

Notation "x <- m ;; k" := (bind m (fun x => k))
  (at level 61, m at next level, right associativity).
Notation "m ;;; k" := (bind m (fun _ => k))
  (at level 61, right associativity).

(** [for (const x of l) { body(x) }]. *)
Fixpoint for_each {S A : Type} (l : list A) (body : A -> M S unit) : M S unit :=
  match l with
  | [] => ret tt
  | x :: rest => body x ;;; for_each rest body
  end.

(** The calls made on [crypto] and [browser.downloads], in order. *)
Inductive Call : Type :=
| GetRandomValues (n : nat)
| ImportKey (algorithm : string)
| DeriveKey
| Encrypt
| Decrypt
| Sign
| Digest
| Download (filename content : string).

Definition Log : Type := list Call.
Definition call (c : Call) : M Log unit := fun log => (inr tt, log ++ [c]).

(** [l.forEach((x, index) => ...)] visits the pairs [(index, x)]. *)
Definition indexed {A : Type} (l : list A) : list (nat * A) :=
  combine (seq 0 (List.length l)) l.

(* ===================================================================== *)
(** ** The data the scripts exchange *)
(* ===================================================================== *)

(** A tab and a window as [browser.windows.getAll({populate: true})] gives
    them; [None] is a property that is [undefined]. *)
Module Raw.
Record tab : Type :=
  { url : string; title : option string; favIconUrl : option string; pinned : bool }.
Record window : Type :=
  { focused : bool; incognito : bool; tabs : list tab }.
End Raw.

(** The [metadata] argument of [createSession]. *)
Module Meta.
Record t : Type :=
  { name : option string; tabCount : nat; windowCount : nat;
    privacyMode : bool; secureMode : bool }.
End Meta.

(** The [options] of a message.  The popup sends [password: null] outside
    secure mode ([None]); the import page always sends the text typed. *)
Module Options.
Record t : Type :=
  { privacyMode : bool; secureMode : bool; password : option string;
    restoreIncognito : bool }.
End Options.

(** An entry of [selectedTabsData]. *)
Module Selected.
Record item : Type := { windowIndex : nat; tabIndex : nat; tab : Raw.tab }.
End Selected.

(** The encrypted wrapper of a [.sportab] file. *)
Module Sealed.
Record file : Type :=
  { version : string; format : string; encrypted : bool; algorithm : string;
    salt : string; iv : string; data : string; signature : string }.
End Sealed.

Record Tab : Type :=
  { id : string; url : string; title : string; pinned : bool;
    group_id : option string; favicon : option string }.

Record Window : Type :=
  { active : bool; incognito : bool; tabs : list Tab }.

Record Metadata : Type :=
  { created : string; name : string; source_browser : string; source_os : string;
    tab_count : nat; window_count : nat; privacy_mode : bool; secure_mode : bool }.

(** A session object; [windows] and [groups] list their properties in
    enumeration order, [signature] is absent until [downloadSession] adds it. *)
Record Session : Type :=
  { version : string; format : string; metadata : Metadata;
    windows : list (string * Window); groups : list (string * JSON.value);
    signature : option string }.

Definition or_default (s : option string) (d : string) : string :=
  match s with
  | Some v => if String.eqb v "" then d else v
  | None => d
  end.

Definition optional (k : string) (v : option string) : list (string * JSON.value) :=
  match v with
  | Some s => [(k, JString s)]
  | None => []
  end.

Definition tab_json (t : Tab) : JSON.value :=
  JObject ([("id", JString (id t)); ("url", JString (url t)); ("title", JString (title t));
            ("pinned", JBool (pinned t));
            ("group_id", match group_id t with Some g => JString g | None => JNull end)]
             ++ optional "favicon" (favicon t)).

Definition window_json (w : Window) : JSON.value :=
  JObject [("active", JBool (active w)); ("incognito", JBool (incognito w));
           ("tabs", JArray (map tab_json (tabs w)))].

Definition metadata_json (m : Metadata) : JSON.value :=
  JObject [("created", JString (created m)); ("name", JString (name m));
           ("source_browser", JString (source_browser m));
           ("source_os", JString (source_os m));
           ("tab_count", JNumber (tab_count m)); ("window_count", JNumber (window_count m));
           ("privacy_mode", JBool (privacy_mode m)); ("secure_mode", JBool (secure_mode m))].

(** The object [JSON.stringify] sees for a session. *)
Definition session_fields (s : Session) : list (string * JSON.value) :=
  [("version", JString (version s)); ("format", JString (format s));
   ("metadata", metadata_json (metadata s));
   ("windows", JObject (map (fun kw => (fst kw, window_json (snd kw))) (windows s)));
   ("groups", JObject (groups s))]
    ++ optional "signature" (signature s).

Definition session_json (s : Session) : JSON.value := JObject (session_fields s).

(* ===================================================================== *)
(** ** The host: what the browser decides *)
(* ===================================================================== *)

(** The argument of [browser.windows.create]. *)
Record CreateData : Type :=
  { create_url : list string; create_incognito : bool; create_focused : bool }.

(** The parts of [new Date()] in local time. *)
Record Clock : Type :=
  { year : nat; month : nat; day : nat; hours : nat; minutes : nat; seconds : nat;
    iso : string }.

Class Host : Type :=
  { (** [new URL(url)]; [None] is the [TypeError] of a string that is no
        absolute URL. *)
    URLobj : Type;
    URL_new : string -> option URLobj;
    (** [urlObj.searchParams.delete(param)] and [urlObj.toString()]. *)
    searchParams_delete : URLobj -> string -> URLobj;
    URL_toString : URLobj -> string;
    (** [JSON.parse(text)]; [inl] carries the message of the [SyntaxError]. *)
    JSON_parse : string -> Exn + JSON.value;
    clock : Clock;
    (** The most arguments the engine takes in one call: [f(...array)] with a
        longer [array] throws a [RangeError], whose message is
        [range_error]. *)
    max_arguments : N;
    range_error : Exn;
    (** [navigator.platform]. *)
    navigator_platform : string;
    (** [typeof browser !== 'undefined']. *)
    browser_defined : bool;
    (** The windows and tabs of the browser, and the three calls
        [importSession] makes: [windows.create] (the id of the new window),
        [tabs.query({windowId})] (the ids of its tabs) and
        [tabs.update(id, {pinned: true})]. *)
    Browser : Type;
    windows_create : CreateData -> M Browser nat;
    tabs_query : nat -> M Browser (list nat);
    tabs_update_pinned : nat -> M Browser unit }.

(* ===================================================================== *)
(** ** [background.js] *)
(* ===================================================================== *)

Section Background.
Context {H : Host}.

Definition pad2 (n : nat) : string :=
  let s := decimal n in if (String.length s <? 2)%nat then "0" +++ s else s.

Definition getTimestamp : string :=
  decimal (year clock) +++ pad2 (month clock) +++ pad2 (day clock) +++ "_"
    +++ pad2 (hours clock) +++ pad2 (minutes clock) +++ pad2 (seconds clock).

Definition isValidURL (url : string) : bool :=
  match URL_new url with
  | None => false
  | Some _ =>
      negb (startsWith url "about:")
      && negb (startsWith url "moz-extension:")
      && negb (startsWith url "chrome:")
      && negb (startsWith url "chrome-extension:")
      && negb (startsWith url "javascript:")
      && negb (startsWith url "data:")
      && (0 <? String.length url)%nat
  end.

Definition trackingParams : list string :=
  ["utm_source"; "utm_medium"; "utm_campaign"; "utm_term"; "utm_content";
   "fbclid"; "gclid"; "msclkid"; "mc_cid"; "mc_eid";
   "_ga"; "_gid"; "ref"; "source"].

Definition sanitizeURL (url : string) : string :=
  match URL_new url with
  | None => url
  | Some urlObj => URL_toString (fold_left searchParams_delete trackingParams urlObj)
  end.

Definition generateHash (data : string) : M Log string :=
  call Digest ;;;
  ret (hex (SHA256.sha256 (encode data))).

(** Importing an empty HMAC key is a [DataError]. *)
Definition generateHMAC (data key : string) : M Log string :=
  call (ImportKey "HMAC") ;;;
  match encode key with
  | [] => throw "DataError"
  | keyData =>
      call Sign ;;;
      ret (hex (HMAC.hmac keyData (encode data)))
  end.

Definition iterations : N := 100000.

Record Encrypted : Type :=
  { enc_encrypted : string; enc_salt : string; enc_iv : string }.

(** [btoa(String.fromCharCode(...array))]: the array is spread into the
    arguments of the call, one argument for each byte. *)
Definition btoa_spread (array : bytes) : M Log string :=
  if (N.of_nat (List.length array) <=? max_arguments)%N
  then ret (Base64.btoa_bytes array)
  else throw range_error.

(** [salt] and [iv] are the sixteen and twelve bytes drawn by
    [crypto.getRandomValues].  The function has no [try]: an error of
    [encrypt] or of one of the three conversions to base64 goes to the
    caller. *)
Definition encryptData (data password : string) (salt iv : bytes) : M Log Encrypted :=
  call (GetRandomValues 16) ;;;
  call (GetRandomValues 12) ;;;
  call (ImportKey "PBKDF2") ;;;
  call DeriveKey ;;;
  let key := PBKDF2.derive (encode password) salt iterations in
  call Encrypt ;;;
  match GCM.encrypt key iv (encode data) with
  | None => throw "OperationError"
  | Some encryptedArray =>
      base64Encrypted <- btoa_spread encryptedArray ;;
      base64Salt <- btoa_spread salt ;;
      base64IV <- btoa_spread iv ;;
      ret {| enc_encrypted := base64Encrypted;
             enc_salt := base64Salt;
             enc_iv := base64IV |}
  end.

Definition atob_or_throw (text : string) : M Log bytes :=
  match Base64.atob_bytes text with
  | Some b => ret b
  | None => throw "InvalidCharacterError"
  end.

Definition decryptData (encrypted_b64 salt_b64 iv_b64 password : string) : M Log string :=
  catch
    (encrypted <- atob_or_throw encrypted_b64 ;;
     salt <- atob_or_throw salt_b64 ;;
     iv <- atob_or_throw iv_b64 ;;
     call (ImportKey "PBKDF2") ;;;
     call DeriveKey ;;;
     let key := PBKDF2.derive (encode password) salt iterations in
     call Decrypt ;;;
     match GCM.decrypt key iv encrypted with
     | None => throw "OperationError"
     | Some decrypted => ret (decode decrypted)
     end)
    (fun _ => throw "Decryption failed - invalid password or corrupted file").

Definition verifyHMAC (data signature key : string) : M Log bool :=
  catch
    (calculated <- generateHMAC data key ;;
     ret (String.eqb calculated signature))
    (fun _ => ret false).

(** *** Export *)

Definition favicon_of (tab : Raw.tab) : option string :=
  match Raw.favIconUrl tab with
  | Some f => if startsWith f "http" then Some f else None
  | None => None
  end.

(** The tab object [createSession] builds for the valid tab at [tabIndex]. *)
Definition session_tab (metadata : Meta.t) (tabIndex : nat) (tab : Raw.tab) : Tab :=
  let url := Raw.url tab in
  let title := or_default (Raw.title tab) "Untitled" in
  let favicon := favicon_of tab in
  let url := if Meta.privacyMode metadata then sanitizeURL url else url in
  let title := if Meta.privacyMode metadata then "[Private]" else title in
  let favicon := if Meta.privacyMode metadata then None else favicon in
  let title := if Meta.secureMode metadata then "[Secure - Hidden]" else title in
  let favicon := if Meta.secureMode metadata then None else favicon in
  {| id := "tab_" +++ decimal (tabIndex + 1); url := url; title := title;
     pinned := Raw.pinned tab; group_id := None; favicon := favicon |}.

Definition count_tabs (windowsObj : list (string * Window)) : nat :=
  fold_left (fun n kw => n + List.length (tabs (snd kw)))%nat windowsObj 0%nat.

Definition createSession (windows : list Raw.window) (metadata : Meta.t) : Session :=
  let windowsObj :=
    fold_left
      (fun windowsObj iw =>
         let windowKey := "window_" +++ decimal (fst iw + 1) in
         let validTabs := filter (fun tab => isValidURL (Raw.url tab)) (Raw.tabs (snd iw)) in
         if (List.length validTabs =? 0)%nat then windowsObj
         else JSON.assign windowKey
                {| active := Raw.focused (snd iw);
                   incognito := Raw.incognito (snd iw);
                   tabs := map (fun it => session_tab metadata (fst it) (snd it))
                               (indexed validTabs) |}
                windowsObj)
      (indexed windows) [] in
  let actualTabCount := count_tabs windowsObj in
  {| version := "1.0";
     format := if Meta.secureMode metadata then "sportab" else "portab";
     metadata :=
       {| created := iso clock;
          name := or_default (Meta.name metadata) "Browser Session";
          source_browser := if browser_defined then "firefox" else "chrome";
          source_os := or_default (Some navigator_platform) "unknown";
          tab_count := actualTabCount;
          window_count := List.length (JSON.keys windowsObj);
          privacy_mode := Meta.privacyMode metadata;
          secure_mode := Meta.secureMode metadata |};
     windows := windowsObj;
     groups := [];
     signature := None |}.

(** [tabsByWindow[windowIndex].push(tab)], creating the array at its first
    use.  The keys are integers, which an object enumerates in ascending
    order whatever the order they were added in. *)
Fixpoint push_tab (windowIndex : nat) (tab : Raw.tab) (tabsByWindow : list (nat * list Raw.tab))
  : list (nat * list Raw.tab) :=
  match tabsByWindow with
  | [] => [(windowIndex, [tab])]
  | (k, ts) :: rest =>
      if (windowIndex =? k)%nat then (k, ts ++ [tab]) :: rest
      else if (windowIndex <? k)%nat then (windowIndex, [tab]) :: (k, ts) :: rest
      else (k, ts) :: push_tab windowIndex tab rest
  end.

Definition group_by_window (selectedTabsData : list Selected.item) : list (nat * list Raw.tab) :=
  fold_left (fun tabsByWindow item =>
               push_tab (Selected.windowIndex item) (Selected.tab item) tabsByWindow)
            selectedTabsData [].

Definition selected_tab (metadata : Meta.t) (tabIndex : nat) (tab : Raw.tab) : Tab :=
  let url := Raw.url tab in
  let title := or_default (Raw.title tab) "Untitled" in
  let url := if Meta.privacyMode metadata then sanitizeURL url else url in
  let title := if Meta.privacyMode metadata then "[Private]" else title in
  let title := if Meta.secureMode metadata then "[Secure - Hidden]" else title in
  {| id := "tab_" +++ decimal (tabIndex + 1); url := url; title := title;
     pinned := Raw.pinned tab; group_id := None; favicon := None |}.

Definition createSessionFromSelectedTabs
    (selectedTabsData : list Selected.item) (metadata : Meta.t) : Session :=
  let tabsByWindow := group_by_window selectedTabsData in
  let windowsObj :=
    fold_left
      (fun windowsObj ig =>
         let idx := fst ig in
         let windowKey := "window_" +++ decimal (idx + 1) in
         let validTabs := filter (fun tab => isValidURL (Raw.url tab)) (snd (snd ig)) in
         if (List.length validTabs =? 0)%nat then windowsObj
         else JSON.assign windowKey
                {| active := (idx =? 0)%nat;
                   incognito := false;
                   tabs := map (fun it => selected_tab metadata (fst it) (snd it))
                               (indexed validTabs) |}
                windowsObj)
      (indexed tabsByWindow) [] in
  let actualTabCount := count_tabs windowsObj in
  {| version := "1.0";
     format := if Meta.secureMode metadata then "sportab" else "portab";
     metadata :=
       {| created := iso clock;
          name := or_default (Meta.name metadata) "Selected Tabs Session";
          source_browser := "firefox";
          source_os := or_default (Some navigator_platform) "unknown";
          tab_count := actualTabCount;
          window_count := List.length (JSON.keys windowsObj);
          privacy_mode := Meta.privacyMode metadata;
          secure_mode := Meta.secureMode metadata |};
     windows := windowsObj;
     groups := [];
     signature := None |}.

(** A value that is neither [null], [undefined] nor the empty string. *)
Definition truthy (s : option string) : bool :=
  match s with
  | Some v => negb (String.eqb v "")
  | None => false
  end.

(** The text [TextEncoder.encode] and the other readers of a text take for
    a password: [null], which is what the popup sends when no password was
    typed, is read as the four letters [null]. *)
Definition text_of (s : option string) : string :=
  match s with
  | Some v => v
  | None => "null"
  end.

Definition sealed_json (f : Sealed.file) : JSON.value :=
  JObject [("version", JString (Sealed.version f)); ("format", JString (Sealed.format f));
           ("encrypted", JBool (Sealed.encrypted f));
           ("algorithm", JString (Sealed.algorithm f));
           ("salt", JString (Sealed.salt f)); ("iv", JString (Sealed.iv f));
           ("data", JString (Sealed.data f)); ("signature", JString (Sealed.signature f))].

Definition with_signature (s : option string) (sessionData : Session) : Session :=
  {| version := version sessionData; format := format sessionData;
     metadata := metadata sessionData; windows := windows sessionData;
     groups := groups sessionData; signature := s |}.

(** The wrapper [downloadSession] builds in secure mode. *)
Definition seal (sessionData : Session) (password : string) (salt iv : bytes)
  : M Log Sealed.file :=
  let jsonString := stringify (session_json sessionData) in
  encrypted <- encryptData jsonString password salt iv ;;
  signature <- generateHMAC (enc_encrypted encrypted) password ;;
  ret {| Sealed.version := "1.0"; Sealed.format := "sportab";
         Sealed.encrypted := true; Sealed.algorithm := "AES-GCM";
         Sealed.salt := enc_salt encrypted; Sealed.iv := enc_iv encrypted;
         Sealed.data := enc_encrypted encrypted; Sealed.signature := signature |}.

(** The file handed to [browser.downloads.download] is the [Download] entry
    of the log. *)
Definition downloadSession (sessionData : Session) (filename : string)
    (options : Options.t) (salt iv : bytes) : M Log unit :=
  finalData <-
    (if Options.secureMode options && truthy (Options.password options) then
       wrapper <- seal sessionData (text_of (Options.password options)) salt iv ;;
       ret (sealed_json wrapper)
     else
       let jsonString := stringify (session_json sessionData) in
       hash <- generateHash jsonString ;;
       ret (session_json (with_signature (Some hash) sessionData))) ;;
  let outputString := stringify finalData in
  call (Download filename outputString).

Inductive ExportResponse : Type :=
| ExportOk (message : string) (tabCount : nat) (filename : string)
| ExportError (error : string).

Definition exportSelectedTabs (options : Options.t) (data : option (list Selected.item))
    (salt iv : bytes) : M Log ExportResponse :=
  catch
    (match data with
     | None | Some [] => ret (ExportError "No tabs selected")
     | Some selectedTabsData =>
         let session :=
           createSessionFromSelectedTabs selectedTabsData
             {| Meta.name := Some "Selected Tabs Session";
                Meta.tabCount := List.length selectedTabsData;
                Meta.windowCount :=
                  List.length (nodup Nat.eq_dec (map Selected.windowIndex selectedTabsData));
                Meta.privacyMode := Options.privacyMode options;
                Meta.secureMode := Options.secureMode options |} in
         let extension := if Options.secureMode options then "sportab" else "portab" in
         let filename := "session_selected_" +++ getTimestamp +++ "." +++ extension in
         downloadSession session filename options salt iv ;;;
         ret (ExportOk ("Exported " +++ decimal (tab_count (metadata session)) +++ " selected tabs!")
                       (tab_count (metadata session)) filename)
     end)
    (fun error => ret (ExportError error)).

(** *** Import *)

Inductive DecryptResponse : Type :=
| DecryptOk (session : JSON.value)
| DecryptError (error : string).

Definition decryptSession (options : Options.t) (sessionData : Sealed.file)
  : M Log DecryptResponse :=
  catch
    (let password := text_of (Options.password options) in
     if negb (Sealed.encrypted sessionData) then throw "Session is not encrypted"
     else
       isValid <- verifyHMAC (Sealed.data sessionData) (Sealed.signature sessionData) password ;;
       if negb isValid then throw "Invalid password or corrupted file"
       else
         decryptedJson <- decryptData (Sealed.data sessionData) (Sealed.salt sessionData)
                            (Sealed.iv sessionData) password ;;
         match JSON_parse decryptedJson with
         | inl syntaxError => throw syntaxError
         | inr decrypted => ret (DecryptOk decrypted)
         end)
    (fun error => ret (DecryptError error)).

Inductive ImportResponse : Type :=
| ImportOk (message : string) (windowCount tabCount : nat)
| ImportError (error : string).

(** A loop that updates local counters. *)
Fixpoint fold_each {S A B : Type} (l : list A) (acc : B) (body : B -> A -> M S B) : M S B :=
  match l with
  | [] => ret acc
  | x :: rest => acc' <- body acc x ;; fold_each rest acc' body
  end.

Definition validate_urls (session : Session) : M Browser unit :=
  for_each (windows session) (fun kw =>
    for_each (tabs (snd kw)) (fun tab =>
      if negb (isValidURL (url tab)) then throw ("Invalid URL detected: " +++ url tab)
      else ret tt)).

Definition create_window (restoreIncognito : bool) (created : nat * nat) (kw : string * Window)
  : M Browser (nat * nat) :=
  let windowData := snd kw in
  let urls := map url (tabs windowData) in
  if (List.length urls =? 0)%nat then ret created
  else
    let isIncognito := incognito windowData && restoreIncognito in
    newWindow <- windows_create {| create_url := urls; create_incognito := isIncognito;
                                   create_focused := active windowData |} ;;
    tabs' <- tabs_query newWindow ;;
    for_each (combine (tabs windowData) tabs') (fun p =>
      if pinned (fst p) then tabs_update_pinned (snd p) else ret tt) ;;;
    ret (S (fst created), (snd created + List.length urls)%nat).

(** [session] is [None] when the message carries no session. *)
Definition importSession (options : Options.t) (session : option Session)
  : M Browser ImportResponse :=
  catch
    (match session with
     | None => throw "Invalid session data"
     | Some session =>
         validate_urls session ;;;
         created <- fold_each (windows session) (0%nat, 0%nat)
                      (create_window (Options.restoreIncognito options)) ;;
         ret (ImportOk ("Restored " +++ decimal (fst created) +++ " windows with "
                          +++ decimal (snd created) +++ " tabs")
                       (fst created) (snd created))
     end)
    (fun error => ret (ImportError error)).

End Background.

(* ===================================================================== *)
(** ** The earlier [background.js] *)
(* ===================================================================== *)

Module Legacy.
Section Legacy.
Context {H : Host}.

Record LWindow : Type := { active : bool; tabs : list Tab }.

Record LMetadata : Type :=
  { created : string; name : string; source_browser : string; source_os : string;
    tab_count : nat; window_count : nat; privacy_mode : bool }.

Record LSession : Type :=
  { version : string; format : string; metadata : LMetadata;
    windows : list (string * LWindow); groups : list (string * JSON.value) }.

Definition isValidURL (url : string) : bool :=
  match URL_new url with
  | None => false
  | Some _ =>
      negb (startsWith url "about:")
      && negb (startsWith url "moz-extension:")
      && negb (startsWith url "chrome:")
      && negb (startsWith url "chrome-extension:")
      && (0 <? String.length url)%nat
  end.

Definition trackingParams : list string :=
  ["utm_source"; "utm_medium"; "utm_campaign"; "utm_term"; "utm_content";
   "fbclid"; "gclid"; "msclkid"; "mc_cid"; "mc_eid"].

Definition sanitizeURL (url : string) : string :=
  match URL_new url with
  | None => url
  | Some urlObj => URL_toString (fold_left searchParams_delete trackingParams urlObj)
  end.

Definition session_tab (metadata : Meta.t) (tabIndex : nat) (tab : Raw.tab) : Tab :=
  let url := Raw.url tab in
  let title := or_default (Raw.title tab) "Untitled" in
  let url := if Meta.privacyMode metadata then sanitizeURL url else url in
  let title := if Meta.privacyMode metadata then "[Private]" else title in
  {| id := "tab_" +++ decimal (tabIndex + 1); url := url; title := title;
     pinned := Raw.pinned tab; group_id := None; favicon := None |}.

Definition count_tabs (windowsObj : list (string * LWindow)) : nat :=
  fold_left (fun n kw => n + List.length (tabs (snd kw)))%nat windowsObj 0%nat.

Definition createSession (windows : list Raw.window) (metadata : Meta.t) : LSession :=
  let windowsObj :=
    fold_left
      (fun windowsObj iw =>
         let windowKey := "window_" +++ decimal (fst iw + 1) in
         let validTabs := filter (fun tab => isValidURL (Raw.url tab)) (Raw.tabs (snd iw)) in
         if (List.length validTabs =? 0)%nat then windowsObj
         else JSON.assign windowKey
                {| active := Raw.focused (snd iw);
                   tabs := map (fun it => session_tab metadata (fst it) (snd it))
                               (indexed validTabs) |}
                windowsObj)
      (indexed windows) [] in
  let actualTabCount := count_tabs windowsObj in
  {| version := "1.0";
     format := "portab";
     metadata :=
       {| created := iso clock;
          name := or_default (Meta.name metadata) "Browser Session";
          source_browser := "firefox";
          source_os := or_default (Some navigator_platform) "unknown";
          tab_count := actualTabCount;
          window_count := List.length (JSON.keys windowsObj);
          privacy_mode := Meta.privacyMode metadata |};
     windows := windowsObj;
     groups := [] |}.

End Legacy.
End Legacy.

(* ===================================================================== *)
(** ** [popup.js]: the tabs selected for export *)
(* ===================================================================== *)

Module Popup.

(** [state.exportSelectedTabs] is a [Set] of the ids
    [`${windowIndex}-${tabIndex}`]; it is kept as the pairs in insertion
    order, the order [forEach] visits a [Set] in. *)
Record state : Type :=
  { exportTabs : list Raw.window; exportSelectedTabs : list (nat * nat) }.

Definition same_id (a b : nat * nat) : bool :=
  (fst a =? fst b)%nat && (snd a =? snd b)%nat.

Definition set_add (x : nat * nat) (s : list (nat * nat)) : list (nat * nat) :=
  if existsb (same_id x) s then s else s ++ [x].

Definition set_delete (x : nat * nat) (s : list (nat * nat)) : list (nat * nat) :=
  filter (fun y => negb (same_id x y)) s.

Definition handleExportSelectedClick (windows : list Raw.window) (st : state) : state :=
  {| exportTabs := windows; exportSelectedTabs := [] |}.

Definition handleTabCheckboxChange (windowIndex tabIndex : nat) (checked : bool) (st : state)
  : state :=
  {| exportTabs := exportTabs st;
     exportSelectedTabs :=
       if checked then set_add (windowIndex, tabIndex) (exportSelectedTabs st)
       else set_delete (windowIndex, tabIndex) (exportSelectedTabs st) |}.

(** The check boxes of a window stand in the order of its tabs. *)
Definition handleWindowCheckboxChange (windowIndex : nat) (checked : bool) (st : state) : state :=
  let boxes :=
    match nth_error (exportTabs st) windowIndex with
    | Some window => seq 0 (List.length (Raw.tabs window))
    | None => []
    end in
  {| exportTabs := exportTabs st;
     exportSelectedTabs :=
       fold_left (fun s tabIndex =>
                    if checked then set_add (windowIndex, tabIndex) s
                    else set_delete (windowIndex, tabIndex) s)
                 boxes (exportSelectedTabs st) |}.

Definition selected_item (st : state) (tabId : nat * nat) : option Selected.item :=
  match nth_error (exportTabs st) (fst tabId) with
  | Some window =>
      match nth_error (Raw.tabs window) (snd tabId) with
      | Some tab =>
          Some {| Selected.windowIndex := fst tabId; Selected.tabIndex := snd tabId;
                  Selected.tab := tab |}
      | None => None
      end
  | None => None
  end.

Fixpoint collect {A B : Type} (f : A -> option B) (l : list A) : option (list B) :=
  match l with
  | [] => Some []
  | x :: rest =>
      match f x, collect f rest with
      | Some y, Some ys => Some (y :: ys)
      | _, _ => None
      end
  end.

(** What [handleExportSelectedConfirm] does: a message to the background
    script, or a status line.  [options] is what [getExportOptions] returned.
    The ids of the set come from the check boxes drawn for [exportTabs], so
    both lookups of [selected_item] succeed. *)
Inductive outcome : Type :=
| SendExportSelected (options : Options.t) (selectedTabs : list Selected.item)
| ShowStatus (message : string)
| Nothing.

Definition handleExportSelectedConfirm (options : option Options.t) (st : state) : outcome :=
  if (List.length (exportSelectedTabs st) =? 0)%nat then ShowStatus "No tabs selected!"
  else match options with
       | None => Nothing
       | Some options =>
           match collect (selected_item st) (exportSelectedTabs st) with
           | Some selectedTabsData => SendExportSelected options selectedTabsData
           | None => ShowStatus "Error: TypeError"
           end
       end.

End Popup.

(* ===================================================================== *)
(** ** [import.js]: the import page *)
(* ===================================================================== *)

Module ImportPage.

(** The parsed file: a session, or the wrapper of an encrypted one. *)
Inductive FileData : Type :=
| PlainFile (session : Session)
| SealedFile (wrapper : Sealed.file).

Definition encrypted (d : FileData) : bool :=
  match d with
  | PlainFile _ => false
  | SealedFile w => Sealed.encrypted w
  end.

(** [selectedTabs] is the [Set] of the ids [`${windowKey}-${tabIndex}`]. *)
Record state : Type :=
  { currentSession : option FileData;
    selectedTabs : list (string * nat);
    decrypt_section : bool;
    tab_list : bool }.

(** The ids [renderTabList] selects: every tab of every window that has one. *)
Definition all_tabs (session : Session) : list (string * nat) :=
  flat_map (fun kw => map (fun i => (fst kw, i)) (seq 0 (List.length (tabs (snd kw)))))
           (windows session).

Definition processSession (sessionData : FileData) (st : state) : state :=
  if encrypted sessionData then
    {| currentSession := Some sessionData; selectedTabs := selectedTabs st;
       decrypt_section := true; tab_list := tab_list st |}
  else
    {| currentSession := Some sessionData;
       selectedTabs := match sessionData with
                       | PlainFile session => all_tabs session
                       | SealedFile _ => []
                       end;
       decrypt_section := decrypt_section st; tab_list := true |}.

(** [handleImport(true)]: the current session goes whole into the
    [import-session] message.  A wrapper that was not decrypted has no
    [windows], which [importSession] answers like a missing session. *)
Definition handleImport_all {H : Host} (restoreIncognito : bool) (st : state)
  : M Browser ImportResponse :=
  importSession {| Options.privacyMode := false; Options.secureMode := false;
                   Options.password := None; Options.restoreIncognito := restoreIncognito |}
                match currentSession st with
                | Some (PlainFile session) => Some session
                | _ => None
                end.

End ImportPage.

(* ===================================================================== *)
(** ** A reference host, for running the scripts on examples *)
(* ===================================================================== *)

Module Reference.
Local Open Scope N_scope.

Definition code (c : ascii) : N := N_of_ascii c.
Definition is_alpha (c : ascii) : bool :=
  ((65 <=? code c) && (code c <=? 90)) || ((97 <=? code c) && (code c <=? 122)).
Definition is_digit (c : ascii) : bool := (48 <=? code c) && (code c <=? 57).

(** *** URLs: a scheme, then anything; the query is cut at [&].

    This stands for [new URL] on the URLs of the examples and is no URL
    parser.  It refuses a text without a scheme and an [http]-like URL
    whose host is empty or holds white space; what else [new URL] refuses
    (a bad port, a forbidden character in the host) it takes.  It writes a
    URL back as it was read: the lower case of scheme and host, the [/] of
    an empty path and the percent-encoding that [toString] gives are not
    modelled.  The theorems about any [Host] do not depend on it. *)

Fixpoint scheme_tail (l : list ascii) : bool :=
  match l with
  | [] => false
  | c :: r =>
      if code c =? 58 then true
      else if is_alpha c || is_digit c || (code c =? 43) || (code c =? 45) || (code c =? 46)
           then scheme_tail r
           else false
  end.

Fixpoint trim_left (l : list ascii) : list ascii :=
  match l with
  | c :: r => if code c <=? 32 then trim_left r else l
  | [] => []
  end.

Definition trim (l : list ascii) : list ascii := rev (trim_left (rev (trim_left l))).

Definition has_scheme (l : list ascii) : bool :=
  match l with
  | c :: r => is_alpha c && scheme_tail r
  | [] => false
  end.

(** The text before the first [sep], and the text after it when there is one. *)
Fixpoint cut (sep : N) (l : list ascii) : list ascii * option (list ascii) :=
  match l with
  | [] => ([], None)
  | c :: r =>
      if code c =? sep then ([], Some r)
      else let '(a, b) := cut sep r in (c :: a, b)
  end.

Fixpoint split (sep : N) (cur l : list ascii) : list (list ascii) :=
  match l with
  | [] => [rev cur]
  | c :: r => if code c =? sep then rev cur :: split sep [] r else split sep (c :: cur) r
  end.

Record url_record : Type :=
  { before_query : list ascii; pairs : list (list ascii); fragment : option (list ascii) }.

Definition lower (c : ascii) : ascii :=
  if (65 <=? code c) && (code c <=? 90) then ascii_of_N (code c + 32) else c.

(** The schemes whose URLs have a host. *)
Definition special : list string := ["http"; "https"; "ws"; "wss"; "ftp"].

Fixpoint drop_slashes (l : list ascii) : list ascii :=
  match l with
  | c :: r => if (code c =? 47) || (code c =? 92) then drop_slashes r else l
  | [] => []
  end.

(** The text up to the path, the query or the fragment. *)
Fixpoint authority (l : list ascii) : list ascii :=
  match l with
  | c :: r =>
      if (code c =? 47) || (code c =? 92) || (code c =? 63) || (code c =? 35) then []
      else c :: authority r
  | [] => []
  end.

Definition host_ok (l : list ascii) : bool :=
  let '(scheme, rest) := cut 58 l in
  if existsb (String.eqb (string_of_list_ascii (map lower scheme))) special then
    let host := authority (drop_slashes (match rest with Some r => r | None => [] end)) in
    negb (Nat.eqb (List.length host) 0) && forallb (fun c => 32 <? code c) host
  else true.

Definition url_new (s : string) : option url_record :=
  let l := trim (list_ascii_of_string s) in
  if has_scheme l && host_ok l then
    let '(body, frag) := cut 35 l in
    let '(path, query) := cut 63 body in
    Some {| before_query := path;
            pairs := match query with
                     | Some q => filter (fun p => negb (Nat.eqb (List.length p) 0)) (split 38 [] q)
                     | None => []
                     end;
            fragment := frag |}
  else None.

Definition delete_param (u : url_record) (param : string) : url_record :=
  {| before_query := before_query u;
     pairs := filter (fun p => negb (String.eqb (string_of_list_ascii (fst (cut 61 p))) param))
                     (pairs u);
     fragment := fragment u |}.

Definition url_to_string (u : url_record) : string :=
  string_of_list_ascii
    (before_query u
       ++ match pairs u with
          | [] => []
          | p :: ps => ascii_of_N 63 :: p ++ flat_map (fun q => ascii_of_N 38 :: q) ps
          end
       ++ match fragment u with
          | Some f => ascii_of_N 35 :: f
          | None => []
          end).

(** *** JSON text: literals, counts, strings, arrays and objects. *)

Fixpoint skip_ws (l : list ascii) : list ascii :=
  match l with
  | c :: r =>
      if (code c =? 32) || (code c =? 9) || (code c =? 10) || (code c =? 13)
      then skip_ws r else l
  | [] => []
  end.

Definition hex_value (c : ascii) : option N :=
  if is_digit c then Some (code c - 48)
  else if (97 <=? code c) && (code c <=? 102) then Some (code c - 87)
  else if (65 <=? code c) && (code c <=? 70) then Some (code c - 55)
  else None.

(** UTF-8 of a code point of the basic plane. *)
Definition utf8 (n : N) : list ascii :=
  if n <? 128 then [ascii_of_N n]
  else if n <? 2048 then [ascii_of_N (192 + n / 64); ascii_of_N (128 + n mod 64)]
  else [ascii_of_N (224 + n / 4096); ascii_of_N (128 + (n / 64) mod 64);
        ascii_of_N (128 + n mod 64)].

Definition simple_escape (c : ascii) : option ascii :=
  if (code c =? 34) || (code c =? 92) || (code c =? 47) then Some c
  else if code c =? 98 then Some (ascii_of_N 8)
  else if code c =? 102 then Some (ascii_of_N 12)
  else if code c =? 110 then Some (ascii_of_N 10)
  else if code c =? 114 then Some (ascii_of_N 13)
  else if code c =? 116 then Some (ascii_of_N 9)
  else None.

(** The characters of a string literal after its opening quote. *)
Fixpoint string_body (l : list ascii) : option (list ascii * list ascii) :=
  match l with
  | [] => None
  | c :: r =>
      if code c =? 34 then Some ([], r)
      else if code c <? 32 then None
      else if code c =? 92 then
        match r with
        | e :: r' =>
            if code e =? 117 then
              match r' with
              | h1 :: h2 :: h3 :: h4 :: r'' =>
                  match hex_value h1, hex_value h2, hex_value h3, hex_value h4, string_body r'' with
                  | Some a, Some b, Some c', Some d, Some (s, rest) =>
                      let n := ((a * 16 + b) * 16 + c') * 16 + d in
                      if (55296 <=? n) && (n <=? 57343) then None
                      else Some (utf8 n ++ s, rest)
                  | _, _, _, _, _ => None
                  end
              | _ => None
              end
            else
              match simple_escape e, string_body r' with
              | Some x, Some (s, rest) => Some (x :: s, rest)
              | _, _ => None
              end
        | [] => None
        end
      else match string_body r with
           | Some (s, rest) => Some (c :: s, rest)
           | None => None
           end
  end.

Fixpoint digits (acc : N) (l : list ascii) : N * list ascii :=
  match l with
  | c :: r => if is_digit c then digits (acc * 10 + (code c - 48)) r else (acc, l)
  | [] => (acc, [])
  end.

Definition starts (p : string) (l : list ascii) : option (list ascii) :=
  let q := list_ascii_of_string p in
  if String.eqb (string_of_list_ascii (firstn (List.length q) l)) p
  then Some (skipn (List.length q) l) else None.

Fixpoint parse_value (fuel : nat) (l : list ascii) : option (JSON.value * list ascii) :=
  match fuel with
  | O => None
  | S f =>
      match skip_ws l with
      | [] => None
      | c :: r =>
          if code c =? 34 then
            match string_body r with
            | Some (s, rest) => Some (JString (string_of_list_ascii s), rest)
            | None => None
            end
          else if code c =? 91 then
            match skip_ws r with
            | d :: r' => if code d =? 93 then Some (JArray [], r')
                         else match parse_items f r with
                              | Some (vs, rest) => Some (JArray vs, rest)
                              | None => None
                              end
            | [] => None
            end
          else if code c =? 123 then
            match skip_ws r with
            | d :: r' => if code d =? 125 then Some (JObject [], r')
                         else match parse_members f r with
                              | Some (ms, rest) =>
                                  Some (JObject (fold_left (fun o kv => JSON.assign (fst kv) (snd kv) o)
                                                           ms []), rest)
                              | None => None
                              end
            | [] => None
            end
          else if is_digit c then
            let '(n, rest) := digits 0 (c :: r) in
            match rest with
            | d :: _ => if (code d =? 46) || (code d =? 101) || (code d =? 69) then None
                        else Some (JNumber (N.to_nat n), rest)
            | [] => Some (JNumber (N.to_nat n), rest)
            end
          else
            match starts "null" (c :: r), starts "true" (c :: r), starts "false" (c :: r) with
            | Some rest, _, _ => Some (JNull, rest)
            | _, Some rest, _ => Some (JBool true, rest)
            | _, _, Some rest => Some (JBool false, rest)
            | _, _, _ => None
            end
      end
  end
with parse_items (fuel : nat) (l : list ascii) : option (list JSON.value * list ascii) :=
  match fuel with
  | O => None
  | S f =>
      match parse_value f l with
      | Some (v, r) =>
          match skip_ws r with
          | d :: r' =>
              if code d =? 44 then
                match parse_items f r' with
                | Some (vs, rest) => Some (v :: vs, rest)
                | None => None
                end
              else if code d =? 93 then Some ([v], r')
              else None
          | [] => None
          end
      | None => None
      end
  end
with parse_members (fuel : nat) (l : list ascii)
  : option (list (string * JSON.value) * list ascii) :=
  match fuel with
  | O => None
  | S f =>
      match skip_ws l with
      | q :: r =>
          if code q =? 34 then
            match string_body r with
            | Some (k, r1) =>
                match skip_ws r1 with
                | colon :: r2 =>
                    if code colon =? 58 then
                      match parse_value f r2 with
                      | Some (v, r3) =>
                          match skip_ws r3 with
                          | d :: r4 =>
                              if code d =? 44 then
                                match parse_members f r4 with
                                | Some (ms, rest) => Some ((string_of_list_ascii k, v) :: ms, rest)
                                | None => None
                                end
                              else if code d =? 125 then Some ([(string_of_list_ascii k, v)], r4)
                              else None
                          | [] => None
                          end
                      | None => None
                      end
                    else None
                | [] => None
                end
            | None => None
            end
          else None
      | [] => None
      end
  end.

Definition json_parse (text : string) : Exn + JSON.value :=
  let l := list_ascii_of_string text in
  match parse_value (S (List.length l)) l with
  | Some (v, rest) =>
      match skip_ws rest with
      | [] => inr v
      | _ => inl "SyntaxError: JSON.parse: unexpected non-whitespace character after JSON data"
      end
  | None => inl "SyntaxError: JSON.parse: unexpected character"
  end.

(** *** The browser: its windows, each with its tabs. *)

Record tab : Type := { tab_id : nat; tab_url : string; tab_pinned : bool }.
Record window : Type :=
  { window_id : nat; window_incognito : bool; window_focused : bool; window_tabs : list tab }.
Record browser : Type := { next_id : nat; open_windows : list window }.

Definition create (d : CreateData) : M browser nat :=
  fun b =>
    let id := next_id b in
    let ts := map (fun iu => {| tab_id := id + 1 + fst iu; tab_url := snd iu; tab_pinned := false |}%nat)
                  (indexed (create_url d)) in
    (inr id,
     {| next_id := (id + 1 + List.length ts)%nat;
        open_windows := open_windows b
                          ++ [{| window_id := id; window_incognito := create_incognito d;
                                 window_focused := create_focused d; window_tabs := ts |}] |}).

Definition query (windowId : nat) : M browser (list nat) :=
  fun b =>
    (inr (flat_map (fun w => if Nat.eqb (window_id w) windowId then map tab_id (window_tabs w) else [])
                   (open_windows b)), b).

Definition pin (tabId : nat) : M browser unit :=
  fun b =>
    (inr tt,
     {| next_id := next_id b;
        open_windows :=
          map (fun w =>
                 {| window_id := window_id w; window_incognito := window_incognito w;
                    window_focused := window_focused w;
                    window_tabs :=
                      map (fun t => if Nat.eqb (tab_id t) tabId
                                    then {| tab_id := tab_id t; tab_url := tab_url t; tab_pinned := true |}
                                    else t) (window_tabs w) |})
              (open_windows b) |}).

Definition host : Host :=
  {| URLobj := url_record;
     URL_new := url_new;
     searchParams_delete := delete_param;
     URL_toString := url_to_string;
     JSON_parse := json_parse;
     clock := {| year := 2024; month := 3; day := 9; hours := 14; minutes := 5; seconds := 7;
                 iso := "2024-03-09T14:05:07.000Z" |};
     max_arguments := 500000;
     range_error := "too many function arguments";
     navigator_platform := "Linux x86_64";
     browser_defined := true;
     Browser := browser;
     windows_create := create;
     tabs_query := query;
     tabs_update_pinned := pin |}.

End Reference.

(** Bytes written in hexadecimal. *)
Definition hex_digit_value (c : ascii) : N :=
  let n := N_of_ascii c in if (n <? 58)%N then (n - 48)%N else (n - 87)%N.

Fixpoint unhex (l : list ascii) : bytes :=
  match l with
  | h :: l' :: rest => ascii_of_N (hex_digit_value h * 16 + hex_digit_value l') :: unhex rest
  | _ => []
  end.

Definition of_hex (s : string) : bytes := unhex (list_ascii_of_string s).

(* ===================================================================== *)
(** ** Sample data *)
(* ===================================================================== *)

Module Sample.

Definition tab (url : string) (pinned : bool) : Raw.tab :=
  {| Raw.url := url; Raw.title := Some "Example"; Raw.favIconUrl := None; Raw.pinned := pinned |}.

(** The window of the build scenario. *)
Definition scenario : Raw.window :=
  {| Raw.focused := true; Raw.incognito := false;
     Raw.tabs := [tab "https://a.example" true; tab "javascript:alert(1)" false;
                  tab "https://b.example" false] |}.

(** A window with the tabs A, B and C. *)
Definition abc : Raw.window :=
  {| Raw.focused := true; Raw.incognito := false;
     Raw.tabs := [tab "https://a.example" false; tab "https://b.example" false;
                  tab "https://c.example" false] |}.

Definition no_modes : Meta.t :=
  {| Meta.name := None; Meta.tabCount := 3; Meta.windowCount := 1;
     Meta.privacyMode := false; Meta.secureMode := false |}.

Definition plain : Options.t :=
  {| Options.privacyMode := false; Options.secureMode := false; Options.password := None;
     Options.restoreIncognito := false |}.

Definition secure (password : string) : Options.t :=
  {| Options.privacyMode := false; Options.secureMode := true;
     Options.password := Some password; Options.restoreIncognito := false |}.

Definition session : Session := createSession (H := Reference.host) [scenario] no_modes.

Definition password : string := "correct-horse-42".

(** The same password followed by U+0000. *)
Definition nul_suffixed : string := password +++ String zero "".

Definition salt : bytes := map (fun i => ascii_of_nat (17 * i + 3)) (seq 0 16).
Definition iv : bytes := map (fun i => ascii_of_nat (29 * i + 5)) (seq 0 12).

(** The tabs C and A of [abc], in the order they were ticked. *)
Definition c_then_a : list Selected.item :=
  [ {| Selected.windowIndex := 0; Selected.tabIndex := 2;
       Selected.tab := tab "https://c.example" false |};
    {| Selected.windowIndex := 0; Selected.tabIndex := 0;
       Selected.tab := tab "https://a.example" false |} ].

(** The new-tab page of one window and a page of another, both selected. *)
Definition mixed_selection : list Selected.item :=
  [ {| Selected.windowIndex := 0; Selected.tabIndex := 0;
       Selected.tab := tab "about:newtab" false |};
    {| Selected.windowIndex := 1; Selected.tabIndex := 0;
       Selected.tab := tab "https://a.example" false |} ].

(** The popup after the tabs C and A of [abc] were ticked, in that order. *)
Definition clicked_c_then_a : Popup.state :=
  Popup.handleTabCheckboxChange 0 0 true
    (Popup.handleTabCheckboxChange 0 2 true
       (Popup.handleExportSelectedClick [abc]
          {| Popup.exportTabs := []; Popup.exportSelectedTabs := [] |})).

Definition wrong_digest : string :=
  "00000000000000000000000000000000000000000000000000000000deadbeef".

(** A [.portab] file whose [signature] is not the digest of its content. *)
Definition tampered : Session := with_signature (Some wrong_digest) session.

Definition empty_browser : Reference.browser :=
  {| Reference.next_id := 1; Reference.open_windows := [] |}.

Definition fresh_page : ImportPage.state :=
  {| ImportPage.currentSession := None; ImportPage.selectedTabs := [];
     ImportPage.decrypt_section := false; ImportPage.tab_list := false |}.

(** A session with a script URL among its tabs. *)
Definition hostile : Session :=
  {| version := "1.0"; format := "portab"; metadata := metadata session;
     windows := [("window_1",
                  {| active := true; incognito := false;
                     tabs := [ {| id := "tab_1"; url := "https://a.example"; title := "A";
                                  pinned := false; group_id := None; favicon := None |};
                               {| id := "tab_2"; url := "javascript:alert(1)"; title := "B";
                                  pinned := false; group_id := None; favicon := None |} ] |})];
     groups := []; signature := None |}.

(** A wrapper made by hand, tagged under [password]. *)
Definition handmade : Sealed.file :=
  {| Sealed.version := "1.0"; Sealed.format := "sportab"; Sealed.encrypted := true;
     Sealed.algorithm := "AES-GCM"; Sealed.salt := "AAAA"; Sealed.iv := "AAAA";
     Sealed.data := "AAAA";
     Sealed.signature := hex (HMAC.hmac (encode password) (encode "AAAA")) |}.

End Sample.

(* ===================================================================== *)
(** ** Notions the statements use *)
(* ===================================================================== *)

(** The encoded characters of [btoa] before they become a string. *)
Definition encoded (b : bytes) : list ascii :=
  map Base64.char_of_sextet (Base64.sextets b) ++ Base64.padding (List.length b).

(** What is checked of each 6-bit value. *)
Definition sextet_ok (n : N) : bool :=
  match Base64.sextet_of_char (Base64.char_of_sextet n) with
  | Some m => N.eqb m n
  | None => false
  end
  && negb (Ascii.eqb (Base64.char_of_sextet n) Base64.pad_char)
  && negb (Base64.is_whitespace (Base64.char_of_sextet n)).

(** The tag [generateHMAC] gives. *)
Definition tag_of (data key : string) : string := hex (HMAC.hmac (encode key) (encode data)).

(** The calls of [verifyHMAC], by whether the key can be imported. *)
Definition verify_calls (key : string) : Log :=
  match key with
  | EmptyString => [ImportKey "HMAC"]
  | _ => [ImportKey "HMAC"; Sign]
  end.

Definition encrypt_calls : Log :=
  [GetRandomValues 16; GetRandomValues 12; ImportKey "PBKDF2"; DeriveKey; Encrypt].
Definition decrypt_calls : Log := [ImportKey "PBKDF2"; DeriveKey; Decrypt].

(** The wrapper of a session sealed under [password], given the cipher text. *)
Definition wrapper_of (password : string) (salt iv c : bytes) : Sealed.file :=
  {| Sealed.version := "1.0"; Sealed.format := "sportab"; Sealed.encrypted := true;
     Sealed.algorithm := "AES-GCM";
     Sealed.salt := Base64.btoa_bytes salt; Sealed.iv := Base64.btoa_bytes iv;
     Sealed.data := Base64.btoa_bytes c;
     Sealed.signature := tag_of (Base64.btoa_bytes c) password |}.

(** A wrapper with its [signature] replaced. *)
Definition resigned (signature : string) (f : Sealed.file) : Sealed.file :=
  {| Sealed.version := Sealed.version f; Sealed.format := Sealed.format f;
     Sealed.encrypted := Sealed.encrypted f; Sealed.algorithm := Sealed.algorithm f;
     Sealed.salt := Sealed.salt f; Sealed.iv := Sealed.iv f; Sealed.data := Sealed.data f;
     Sealed.signature := signature |}.

(** The answer of [decryptSession] once the text is decrypted. *)
Definition decrypt_response (parsed : Exn + JSON.value) : DecryptResponse :=
  match parsed with
  | inr v => DecryptOk v
  | inl e => DecryptError e
  end.

(** The options of a [decrypt-session] message. *)
Definition password_option (p : string) : Options.t :=
  {| Options.privacyMode := false; Options.secureMode := false;
     Options.password := Some p; Options.restoreIncognito := false |}.

(** The keys [prefix1], [prefix2], ... *)
Definition numbered (prefix : string) (index : nat) : string := prefix +++ decimal (index + 1).

Definition modes (name : option string) (tabCount windowCount : nat) (privacy secure : bool)
  : Meta.t :=
  {| Meta.name := name; Meta.tabCount := tabCount; Meta.windowCount := windowCount;
     Meta.privacyMode := privacy; Meta.secureMode := secure |}.

Section Notions.
Context {H : Host}.

Definition valid_tabs (w : Raw.window) : list Raw.tab :=
  filter (fun tab => isValidURL (Raw.url tab)) (Raw.tabs w).

(** The window object [createSession] stores for a source window. *)
Definition built_window (metadata : Meta.t) (w : Raw.window) : Window :=
  {| active := Raw.focused w; incognito := Raw.incognito w;
     tabs := map (fun it => session_tab metadata (fst it) (snd it)) (indexed (valid_tabs w)) |}.

Definition kept (iw : nat * Raw.window) : bool :=
  negb (List.length (valid_tabs (snd iw)) =? 0)%nat.

Definition legacy_valid (w : Raw.window) : list Raw.tab :=
  filter (fun tab => Legacy.isValidURL (Raw.url tab)) (Raw.tabs w).

Definition legacy_window (metadata : Meta.t) (w : Raw.window) : Legacy.LWindow :=
  {| Legacy.active := Raw.focused w;
     Legacy.tabs := map (fun it => Legacy.session_tab metadata (fst it) (snd it))
                        (indexed (legacy_valid w)) |}.

(** The privacy transform, after the spec's words: privacy mode strips the
    tracking parameters of every URL, replaces every title and drops every
    favicon; secure mode replaces every title and drops every favicon; the
    other fields stay. *)
Definition redact_tab (privacy secure : bool) (t : Tab) : Tab :=
  {| id := id t;
     url := if privacy then sanitizeURL (url t) else url t;
     title := if secure then "[Secure - Hidden]"
              else if privacy then "[Private]" else title t;
     pinned := pinned t;
     group_id := group_id t;
     favicon := if secure || privacy then None else favicon t |}.

Definition redact_window (privacy secure : bool) (w : Window) : Window :=
  {| active := active w; incognito := incognito w;
     tabs := map (redact_tab privacy secure) (tabs w) |}.

(** The window object [createSessionFromSelectedTabs] stores for the group
    at [idx]. *)
Definition selected_window (metadata : Meta.t) (idx : nat) (group : list Raw.tab) : Window :=
  {| active := (idx =? 0)%nat; incognito := false;
     tabs := map (fun it => selected_tab metadata (fst it) (snd it))
                 (indexed (filter (fun tab => isValidURL (Raw.url tab)) group)) |}.

(** The groups of a selection that have a valid tab, with their indices. *)
Definition kept_groups (items : list Selected.item) : list (nat * (nat * list Raw.tab)) :=
  filter (fun ig => negb (List.length (filter (fun tab => isValidURL (Raw.url tab))
                                              (snd (snd ig))) =? 0)%nat)
         (indexed (group_by_window items)).

Definition invalid (u : string) : bool := negb (isValidURL u).

(** The URLs of a session in the order [importSession] visits them. *)
Definition all_urls (session : Session) : list string :=
  flat_map (fun kw => map url (tabs (snd kw))) (windows session).

(** A number of arguments the engine takes in one call. *)
Definition fits (n : nat) : Prop := (N.of_nat n <= max_arguments)%N.

(** How the validation loop ends, given the first invalid URL. *)
Definition validation (found : option string) : Exn + unit :=
  match found with
  | Some u => inl ("Invalid URL detected: " +++ u)
  | None => inr tt
  end.

End Notions.

(* ===================================================================== *)
(** ** [background.js]: the export handlers *)
(* ===================================================================== *)

(** The answer of [exportAllWindows], which also counts the windows. *)
Inductive ExportAllResponse : Type :=
| ExportAllOk (message : string) (windowCount tabCount : nat) (filename : string)
| ExportAllError (error : string).

Section Handlers.
Context {H : Host}.

(** [currentWindow] is what [browser.windows.getCurrent({populate: true})]
    answered. *)
Definition exportCurrentWindow (options : Options.t) (currentWindow : Raw.window)
    (salt iv : bytes) : M Log ExportResponse :=
  catch
    (if (List.length (Raw.tabs currentWindow) =? 0)%nat
     then ret (ExportError "No tabs found in current window")
     else
       let session :=
         createSession [currentWindow]
           {| Meta.name := Some "Current Window Session";
              Meta.tabCount := List.length (Raw.tabs currentWindow);
              Meta.windowCount := 1;
              Meta.privacyMode := Options.privacyMode options;
              Meta.secureMode := Options.secureMode options |} in
       let extension := if Options.secureMode options then "sportab" else "portab" in
       let filename := "session_current_" +++ getTimestamp +++ "." +++ extension in
       downloadSession session filename options salt iv ;;;
       ret (ExportOk ("Exported " +++ decimal (tab_count (metadata session))
                        +++ " tabs successfully!")
                     (tab_count (metadata session)) filename))
    (fun error => ret (ExportError error)).

(** [allWindows] is what [browser.windows.getAll({populate: true})]
    answered. *)
Definition exportAllWindows (options : Options.t) (allWindows : list Raw.window)
    (salt iv : bytes) : M Log ExportAllResponse :=
  catch
    (if (List.length allWindows =? 0)%nat then ret (ExportAllError "No windows found")
     else
       let totalTabs :=
         fold_left (fun totalTabs win => totalTabs + List.length (Raw.tabs win))%nat
                   allWindows 0%nat in
       let session :=
         createSession allWindows
           {| Meta.name := Some "All Windows Session";
              Meta.tabCount := totalTabs;
              Meta.windowCount := List.length allWindows;
              Meta.privacyMode := Options.privacyMode options;
              Meta.secureMode := Options.secureMode options |} in
       let extension := if Options.secureMode options then "sportab" else "portab" in
       let filename := "session_all_" +++ getTimestamp +++ "." +++ extension in
       downloadSession session filename options salt iv ;;;
       ret (ExportAllOk ("Exported " +++ decimal (window_count (metadata session))
                           +++ " windows (" +++ decimal (tab_count (metadata session))
                           +++ " tabs)!")
                        (window_count (metadata session)) (tab_count (metadata session))
                        filename))
    (fun error => ret (ExportAllError error)).

(** [{...win, tabs: win.tabs.filter(tab => tab.pinned)}]. *)
Definition pinned_of (win : Raw.window) : Raw.window :=
  {| Raw.focused := Raw.focused win; Raw.incognito := Raw.incognito win;
     Raw.tabs := filter Raw.pinned (Raw.tabs win) |}.

Definition exportPinnedTabs (options : Options.t) (allWindows : list Raw.window)
    (salt iv : bytes) : M Log ExportResponse :=
  catch
    (let pinnedWindows :=
       filter (fun win => (0 <? List.length (Raw.tabs win))%nat) (map pinned_of allWindows) in
     if (List.length pinnedWindows =? 0)%nat then ret (ExportError "No pinned tabs found")
     else
       let totalPinned :=
         fold_left (fun totalPinned win => totalPinned + List.length (Raw.tabs win))%nat
                   pinnedWindows 0%nat in
       let session :=
         createSession pinnedWindows
           {| Meta.name := Some "Pinned Tabs Session";
              Meta.tabCount := totalPinned;
              Meta.windowCount := List.length pinnedWindows;
              Meta.privacyMode := Options.privacyMode options;
              Meta.secureMode := Options.secureMode options |} in
       let extension := if Options.secureMode options then "sportab" else "portab" in
       let filename := "session_pinned_" +++ getTimestamp +++ "." +++ extension in
       downloadSession session filename options salt iv ;;;
       ret (ExportOk ("Exported " +++ decimal (tab_count (metadata session))
                        +++ " pinned tabs!")
                     (tab_count (metadata session)) filename))
    (fun error => ret (ExportError error)).

End Handlers.

(* ===================================================================== *)
(** ** The earlier [background.js]: its file and its export handlers *)
(* ===================================================================== *)

Module LegacyExport.
Section LegacyExport.
Context {H : Host}.

Definition window_json (w : Legacy.LWindow) : JSON.value :=
  JObject [("active", JBool (Legacy.active w));
           ("tabs", JArray (map tab_json (Legacy.tabs w)))].

Definition metadata_json (m : Legacy.LMetadata) : JSON.value :=
  JObject [("created", JString (Legacy.created m)); ("name", JString (Legacy.name m));
           ("source_browser", JString (Legacy.source_browser m));
           ("source_os", JString (Legacy.source_os m));
           ("tab_count", JNumber (Legacy.tab_count m));
           ("window_count", JNumber (Legacy.window_count m));
           ("privacy_mode", JBool (Legacy.privacy_mode m))].

Definition session_json (s : Legacy.LSession) : JSON.value :=
  JObject [("version", JString (Legacy.version s)); ("format", JString (Legacy.format s));
           ("metadata", metadata_json (Legacy.metadata s));
           ("windows",
            JObject (map (fun kw => (fst kw, window_json (snd kw))) (Legacy.windows s)));
           ("groups", JObject (Legacy.groups s))].

Definition downloadSessionViaBlob (sessionData : Legacy.LSession) (filename : string)
  : M Log unit :=
  let jsonString := stringify (session_json sessionData) in
  call (Download filename jsonString).

Definition exportCurrentWindow (options : Options.t) (currentWindow : Raw.window)
  : M Log ExportResponse :=
  catch
    (if (List.length (Raw.tabs currentWindow) =? 0)%nat
     then ret (ExportError "No tabs found in current window")
     else
       let session :=
         Legacy.createSession [currentWindow]
           {| Meta.name := Some "Current Window Session";
              Meta.tabCount := List.length (Raw.tabs currentWindow);
              Meta.windowCount := 1;
              Meta.privacyMode := Options.privacyMode options;
              Meta.secureMode := false |} in
       let filename := "session_current_" +++ getTimestamp +++ ".portab" in
       downloadSessionViaBlob session filename ;;;
       ret (ExportOk ("Exported " +++ decimal (Legacy.tab_count (Legacy.metadata session))
                        +++ " tabs successfully!")
                     (Legacy.tab_count (Legacy.metadata session)) filename))
    (fun error => ret (ExportError error)).

Definition exportAllWindows (options : Options.t) (allWindows : list Raw.window)
  : M Log ExportAllResponse :=
  catch
    (if (List.length allWindows =? 0)%nat then ret (ExportAllError "No windows found")
     else
       let totalTabs :=
         fold_left (fun totalTabs win => totalTabs + List.length (Raw.tabs win))%nat
                   allWindows 0%nat in
       let session :=
         Legacy.createSession allWindows
           {| Meta.name := Some "All Windows Session";
              Meta.tabCount := totalTabs;
              Meta.windowCount := List.length allWindows;
              Meta.privacyMode := Options.privacyMode options;
              Meta.secureMode := false |} in
       let filename := "session_all_" +++ getTimestamp +++ ".portab" in
       downloadSessionViaBlob session filename ;;;
       ret (ExportAllOk ("Exported "
                           +++ decimal (Legacy.window_count (Legacy.metadata session))
                           +++ " windows ("
                           +++ decimal (Legacy.tab_count (Legacy.metadata session))
                           +++ " tabs)!")
                        (Legacy.window_count (Legacy.metadata session))
                        (Legacy.tab_count (Legacy.metadata session)) filename))
    (fun error => ret (ExportAllError error)).

Definition exportPinnedTabs (options : Options.t) (allWindows : list Raw.window)
  : M Log ExportResponse :=
  catch
    (let pinnedWindows :=
       filter (fun win => (0 <? List.length (Raw.tabs win))%nat) (map pinned_of allWindows) in
     if (List.length pinnedWindows =? 0)%nat then ret (ExportError "No pinned tabs found")
     else
       let totalPinned :=
         fold_left (fun totalPinned win => totalPinned + List.length (Raw.tabs win))%nat
                   pinnedWindows 0%nat in
       let session :=
         Legacy.createSession pinnedWindows
           {| Meta.name := Some "Pinned Tabs Session";
              Meta.tabCount := totalPinned;
              Meta.windowCount := List.length pinnedWindows;
              Meta.privacyMode := Options.privacyMode options;
              Meta.secureMode := false |} in
       let filename := "session_pinned_" +++ getTimestamp +++ ".portab" in
       downloadSessionViaBlob session filename ;;;
       ret (ExportOk ("Exported " +++ decimal (Legacy.tab_count (Legacy.metadata session))
                        +++ " pinned tabs!")
                     (Legacy.tab_count (Legacy.metadata session)) filename))
    (fun error => ret (ExportError error)).

End LegacyExport.
End LegacyExport.

(* ===================================================================== *)
(** ** What is seen of the windows of the reference browser *)
(* ===================================================================== *)

Module Restored.

(** What is seen of a window: whether it is incognito, whether it has the
    focus and, for each tab in order, its URL and whether it is pinned. *)
Definition shown : Type := bool * bool * list (string * bool).

Definition view (w : Reference.window) : shown :=
  (Reference.window_incognito w, Reference.window_focused w,
   map (fun t => (Reference.tab_url t, Reference.tab_pinned t)) (Reference.window_tabs w)).

(** The same of a window of a session, as [importSession] asks for it. *)
Definition asked (restoreIncognito : bool) (w : Window) : shown :=
  (incognito w && restoreIncognito, active w, map (fun t => (url t, pinned t)) (tabs w)).

(** The ids in use are below the next one the browser gives out. *)
Definition ids_below (b : Reference.browser) : bool :=
  forallb (fun w => (Reference.window_id w <? Reference.next_id b)%nat
                    && forallb (fun t => (Reference.tab_id t <? Reference.next_id b)%nat)
                               (Reference.window_tabs w))
          (Reference.open_windows b).

(** The tabs with an id of [ids] pinned, the rest as it was. *)
Definition pin_tab (ids : list nat) (t : Reference.tab) : Reference.tab :=
  if existsb (Nat.eqb (Reference.tab_id t)) ids
  then {| Reference.tab_id := Reference.tab_id t; Reference.tab_url := Reference.tab_url t;
          Reference.tab_pinned := true |}
  else t.

Definition pin_window (ids : list nat) (w : Reference.window) : Reference.window :=
  {| Reference.window_id := Reference.window_id w;
     Reference.window_incognito := Reference.window_incognito w;
     Reference.window_focused := Reference.window_focused w;
     Reference.window_tabs := map (pin_tab ids) (Reference.window_tabs w) |}.

Definition pin_all (ids : list nat) (b : Reference.browser) : Reference.browser :=
  {| Reference.next_id := Reference.next_id b;
     Reference.open_windows := map (pin_window ids) (Reference.open_windows b) |}.

(** The tabs [windows.create] opens for [urls], their ids counted from [k]. *)
Definition opened (k : nat) (urls : list string) : list Reference.tab :=
  map (fun iu => {| Reference.tab_id := fst iu; Reference.tab_url := snd iu;
                    Reference.tab_pinned := false |})
      (combine (seq k (List.length urls)) urls).

(** The ids the import pins in a window opened for [ts] from [k] on. *)
Definition pinned_ids (k : nat) (ts : list Tab) : list nat :=
  map snd (filter (fun p => pinned (fst p)) (combine ts (seq k (List.length ts)))).

End Restored.

(* ===================================================================== *)
(** ** [popup.js]: the export options *)
(* ===================================================================== *)

(** The UTF-16 code units a byte of UTF-8 text starts: none for a
    continuation byte, two for the lead byte of a four-byte sequence, one
    otherwise. *)
Definition utf16_units (c : ascii) : nat :=
  let n := N_of_ascii c in
  if (n <? 128)%N then 1%nat
  else if (n <? 192)%N then 0%nat
  else if (n <? 240)%N then 1%nat
  else 2%nat.

(** [s.length]. *)
Definition utf16_length (s : string) : nat :=
  list_sum (map utf16_units (list_ascii_of_string s)).

Module PopupForm.

(** The controls [getExportOptions] reads. *)
Record form : Type :=
  { privacy_mode : bool; secure_mode : bool; password_input : string }.

(** [inl] is the status shown when [null] is returned. *)
Definition getExportOptions (f : form) : string + Options.t :=
  let secureMode := secure_mode f in
  let password := password_input f in
  if secureMode && negb (truthy (Some password))
  then inl "Password required for secure mode!"
  else if secureMode && (utf16_length password <? 8)%nat
  then inl "Password must be at least 8 characters!"
  else inr {| Options.privacyMode := privacy_mode f;
              Options.secureMode := secureMode;
              Options.password := if secureMode then Some password else None;
              Options.restoreIncognito := false |}.

End PopupForm.

(** A digit of lower-case hexadecimal. *)
Definition is_lower_hex (c : ascii) : bool :=
  let n := N_of_ascii c in
  ((48 <=? n) && (n <=? 57))%N || ((97 <=? n) && (n <=? 102))%N.

(* ===================================================================== *)
(** ** [import.js]: the tabs selected for import *)
(* ===================================================================== *)

(** What the engine of the page decides: [parseInt], with [None] for [NaN]
    and for a negative number, neither of which is an index of an array. *)
Class Page : Type := { parseInt : string -> option nat }.

Module ImportSelected.

(** [s.split('-')]. *)
Fixpoint split_hyphen (s : string) : list string :=
  match s with
  | EmptyString => [""]
  | String c rest =>
      if Ascii.eqb c "-" then "" :: split_hyphen rest
      else match split_hyphen rest with
           | piece :: pieces => String c piece :: pieces
           | [] => [String c ""]
           end
  end.

(** The id [`${windowKey}-${tabIndex}`] of a check box. *)
Definition checkbox_id (x : string * nat) : string := fst x +++ "-" +++ decimal (snd x).

(** The properties every object inherits: [{}[k]] is not [undefined] for
    these. *)
Definition inherited : list string :=
  ["constructor"; "toString"; "toLocaleString"; "valueOf"; "hasOwnProperty";
   "isPrototypeOf"; "propertyIsEnumerable"; "__proto__"; "__defineGetter__";
   "__defineSetter__"; "__lookupGetter__"; "__lookupSetter__"].

(** A key that is an array index, the decimal text of an integer below
    [2^32 - 1]: an object lists these first, in ascending order, and the
    other keys after them in the order they were added. *)
Definition array_index (k : string) : option N :=
  match NilEmpty.uint_of_string k with
  | Some u =>
      let n := N.of_uint u in
      if String.eqb (NilEmpty.string_of_uint (N.to_uint n)) k && (n <? 4294967295)%N
      then Some n else None
  | None => None
  end.

(** [o[k] = v] for a key [o] does not have. *)
Fixpoint add_key {A : Type} (k : string) (v : A) (o : list (string * A)) : list (string * A) :=
  match o with
  | [] => [(k, v)]
  | (k', v') :: rest =>
      match array_index k, array_index k' with
      | Some n, Some n' => if (n <? n')%N then (k, v) :: o else (k', v') :: add_key k v rest
      | Some _, None => (k, v) :: o
      | None, _ => (k', v') :: add_key k v rest
      end
  end.

(** A window of [sessionToImport]: its [tabs] may hold [undefined]. *)
Record sent_window : Type :=
  { sent_active : option bool; sent_incognito : option bool; sent_tabs : list (option Tab) }.

(** [{...currentSession.windows[windowKey], tabs: []}]. *)
Definition copy (w : option Window) : sent_window :=
  match w with
  | Some w => {| sent_active := Some (active w); sent_incognito := Some (incognito w);
                 sent_tabs := [] |}
  | None => {| sent_active := None; sent_incognito := None; sent_tabs := [] |}
  end.

Definition push (t : option Tab) (w : sent_window) : sent_window :=
  {| sent_active := sent_active w; sent_incognito := sent_incognito w;
     sent_tabs := sent_tabs w ++ [t] |}.

Fixpoint update {A : Type} (k : string) (f : A -> A) (o : list (string * A))
  : list (string * A) :=
  match o with
  | [] => []
  | (k', v) :: rest =>
      if String.eqb k k' then (k', f v) :: rest else (k', v) :: update k f rest
  end.

(** One turn of [selectedTabs.forEach]; [current] is
    [currentSession.windows], [None] when there is no such object.  A
    [TypeError] ends the loop; its message, which is the engine's, is written
    [TypeError]. *)
Definition select_tab {P : Page} (current : option (list (string * Window)))
    (windows : list (string * sent_window)) (tabId : string)
  : Exn + list (string * sent_window) :=
  let pieces := split_hyphen tabId in
  let windowKey := nth 0 pieces "" in
  let tabIndexNum :=
    match nth_error pieces 1 with
    | Some tabIndex => parseInt tabIndex
    | None => None
    end in
  if existsb (String.eqb windowKey) inherited then inl "TypeError"
  else
    match current with
    | None => inl "TypeError"
    | Some current =>
        let windows :=
          match JSON.lookup windowKey windows with
          | Some _ => windows
          | None => add_key windowKey (copy (JSON.lookup windowKey current)) windows
          end in
        match JSON.lookup windowKey current with
        | None => inl "TypeError"
        | Some w =>
            inr (update windowKey
                   (push match tabIndexNum with
                         | Some i => nth_error (tabs w) i
                         | None => None
                         end)
                   windows)
        end
    end.

Fixpoint select_tabs {P : Page} (current : option (list (string * Window)))
    (windows : list (string * sent_window)) (selectedTabs : list string)
  : Exn + list (string * sent_window) :=
  match selectedTabs with
  | [] => inr windows
  | tabId :: rest =>
      match select_tab current windows tabId with
      | inl e => inl e
      | inr windows => select_tabs current windows rest
      end
  end.

(** What the validation loop of [importSession] throws on the windows sent:
    the message for the first tab that is [undefined] or has an invalid
    URL. *)
Fixpoint first_error {H : Host} (ts : list (option Tab)) : option Exn :=
  match ts with
  | [] => None
  | None :: _ => Some "TypeError"
  | Some t :: rest =>
      if negb (isValidURL (url t)) then Some ("Invalid URL detected: " +++ url t)
      else first_error rest
  end.

Definition all_defined (ts : list (option Tab)) : list Tab :=
  flat_map (fun t => match t with Some t => [t] | None => [] end) ts.

(** A window sent, once none of its tabs is [undefined]. *)
Definition defined (w : sent_window) : Window :=
  {| active := match sent_active w with Some b => b | None => false end;
     incognito := match sent_incognito w with Some b => b | None => false end;
     tabs := all_defined (sent_tabs w) |}.

(** The session [importSession] reads [windows] from, and nothing else. *)
Definition sent (selected : list (string * Window)) (currentSession : option Session)
  : Session :=
  match currentSession with
  | Some s => {| version := version s; format := format s; metadata := metadata s;
                 windows := selected; groups := groups s; signature := signature s |}
  | None =>
      {| version := ""; format := "";
         metadata := {| created := ""; name := ""; source_browser := ""; source_os := "";
                        tab_count := 0; window_count := 0; privacy_mode := false;
                        secure_mode := false |};
         windows := selected; groups := []; signature := None |}
  end.

(** [handleImport(false)]: the exception is the one the page catches and
    shows; the answer is that of the background script. *)
Definition handleImport_selected {H : Host} {P : Page} (restoreIncognito : bool)
    (st : ImportPage.state) : M Browser ImportResponse :=
  let currentSession :=
    match ImportPage.currentSession st with
    | Some (ImportPage.PlainFile session) => Some session
    | _ => None
    end in
  match select_tabs (option_map windows currentSession) []
          (map checkbox_id (ImportPage.selectedTabs st)) with
  | inl e => throw e
  | inr windows =>
      match find (fun e => match e with Some _ => true | None => false end)
                 (map (fun kw => first_error (sent_tabs (snd kw))) windows) with
      | Some (Some e) => ret (ImportError e)
      | _ =>
          importSession
            {| Options.privacyMode := false; Options.secureMode := false;
               Options.password := None; Options.restoreIncognito := restoreIncognito |}
            (Some (sent (map (fun kw => (fst kw, defined (snd kw))) windows) currentSession))
      end
  end.

(** A key as the exporter writes them is none of these: it holds no
    hyphen, is no inherited property and no array index. *)
Definition no_hyphen (k : string) : bool :=
  forallb (fun c => negb (Ascii.eqb c "-")) (list_ascii_of_string k).

Definition plain_key (k : string) : bool :=
  no_hyphen k && negb (existsb (String.eqb k) inherited)
  && match array_index k with Some _ => false | None => true end.

(** A window of the current session as it is sent when all its tabs are
    selected. *)
Definition whole (w : Window) : sent_window :=
  {| sent_active := Some (active w); sent_incognito := Some (incognito w);
     sent_tabs := map Some (tabs w) |}.

Definition has_tabs (kw : string * Window) : bool :=
  negb (List.length (tabs (snd kw)) =? 0)%nat.

End ImportSelected.

(* ===================================================================== *)
(** ** A reference [parseInt], for running the page on examples *)
(* ===================================================================== *)

Module ReferencePage.

(** The digits a text starts with. *)
Fixpoint digits (s : string) : string :=
  match s with
  | String c rest => if Reference.is_digit c then String c (digits rest) else ""
  | EmptyString => ""
  end.

(** [parseInt] on text that starts with its digits; white space, a sign and
    the prefix [0x] before them are not read. *)
Definition parse_int (s : string) : option nat :=
  match digits s with
  | EmptyString => None
  | d => option_map Nat.of_uint (NilEmpty.uint_of_string d)
  end.

Definition page : Page := {| parseInt := parse_int |}.

End ReferencePage.

(** More sample data. *)
Module Cases.

(** The popup with secure mode ticked and the sample password typed. *)
Definition form : PopupForm.form :=
  {| PopupForm.privacy_mode := false; PopupForm.secure_mode := true;
     PopupForm.password_input := Sample.password |}.

(** The popup before anything was loaded into it. *)
Definition popup : Popup.state := {| Popup.exportTabs := []; Popup.exportSelectedTabs := [] |}.

(** Thirty windows of a hundred tabs each. *)
Definition crowded : list Raw.window :=
  repeat {| Raw.focused := false; Raw.incognito := false;
            Raw.tabs := repeat (Sample.tab "https://a.example" false) 100 |} 30.

End Cases.

(* ===================================================================== *)
(** ** A browser that keeps the extension out of private windows *)
(* ===================================================================== *)

(** The reference browser, except that [windows.create] rejects when it is
    asked for a private window. *)
Module Guarded.

Definition create (d : CreateData) : M Reference.browser nat := fun b =>
  if create_incognito d
  then (inl "Extension does not have permission for incognito mode", b)
  else Reference.create d b.

Definition host : Host :=
  {| URLobj := Reference.url_record;
     URL_new := Reference.url_new;
     searchParams_delete := Reference.delete_param;
     URL_toString := Reference.url_to_string;
     JSON_parse := Reference.json_parse;
     clock := clock (Host := Reference.host);
     max_arguments := max_arguments (Host := Reference.host);
     range_error := range_error (Host := Reference.host);
     navigator_platform := "Linux x86_64";
     browser_defined := true;
     Browser := Reference.browser;
     windows_create := create;
     tabs_query := Reference.query;
     tabs_update_pinned := Reference.pin |}.

(** A file with an ordinary window and a private one after it. *)
Definition private_second : Session :=
  {| version := "1.0"; format := "portab"; metadata := metadata Sample.session;
     windows := [("window_1",
                  {| active := true; incognito := false;
                     tabs := [ {| id := "tab_1"; url := "https://a.example"; title := "A";
                                  pinned := true; group_id := None; favicon := None |} ] |});
                 ("window_2",
                  {| active := false; incognito := true;
                     tabs := [ {| id := "tab_1"; url := "https://b.example"; title := "B";
                                  pinned := false; group_id := None; favicon := None |} ] |})];
     groups := []; signature := None |}.

Definition restore_private : Options.t :=
  {| Options.privacyMode := false; Options.secureMode := false; Options.password := None;
     Options.restoreIncognito := true |}.

End Guarded.

(** [ascii_of_N e = x] once [e] is seen to be the code of [x]. *)
Ltac byte_back :=
  match goal with
  | |- ascii_of_N ?e = ?x =>
      replace e with (N_of_ascii x) by divmod_lia; apply ascii_N_embedding
  end.

(* ===================================================================== *)
(** ** Base64 decodes what it encodes *)
(* ===================================================================== *)

Section List3.
Variable A : Type.
Variable P : list A -> Prop.
Hypothesis P0 : P [].
Hypothesis P1 : forall a, P [a].
Hypothesis P2 : forall a b, P [a; b].
Hypothesis P3 : forall a b c l, P l -> P (a :: b :: c :: l).

(** Induction that takes the elements three at a time. *)
Lemma list_ind3 : forall l, P l.
Proof.
  fix IH 1. intros [|a [|b [|c l]]].
  - exact P0.
  - apply P1.
  - apply P2.
  - apply P3, IH.
Qed.
End List3.

Lemma byte_bound (a : ascii) : (N_of_ascii a < 256)%N.
Proof. apply N_ascii_bounded. Qed.

Lemma sextets_bound (b : bytes) : Forall (fun n => (n < 64)%N) (Base64.sextets b).
Proof.
  induction b as [|x|x y|x y z l IH] using list_ind3; cbn [Base64.sextets].
  - constructor.
  - pose proof (byte_bound x). repeat constructor; divmod_lia.
  - pose proof (byte_bound x). pose proof (byte_bound y). repeat constructor; divmod_lia.
  - pose proof (byte_bound x). pose proof (byte_bound y). pose proof (byte_bound z).
    repeat (constructor; [divmod_lia|]). exact IH.
Qed.

Lemma below_64 (n : N) : (n < 64)%N -> In n (map N.of_nat (seq 0 64)).
Proof.
  intros Hn. rewrite <- (N2Nat.id n). apply in_map, in_seq. lia.
Qed.

Lemma sextet_ok_all (n : N) : (n < 64)%N -> sextet_ok n = true.
Proof.
  intros Hn. apply below_64 in Hn. revert n Hn. apply forallb_forall.
  vm_compute. reflexivity.
Qed.

Lemma sextet_of_char_of_sextet (n : N) :
  (n < 64)%N -> Base64.sextet_of_char (Base64.char_of_sextet n) = Some n.
Proof.
  intros Hn. apply sextet_ok_all in Hn. unfold sextet_ok in Hn.
  apply andb_prop in Hn as [Hn _]. apply andb_prop in Hn as [Hn _].
  destruct (Base64.sextet_of_char _); [|discriminate].
  apply N.eqb_eq in Hn. now subst.
Qed.

Lemma char_of_sextet_not_pad (n : N) :
  (n < 64)%N -> Ascii.eqb (Base64.char_of_sextet n) Base64.pad_char = false.
Proof.
  intros Hn. apply sextet_ok_all in Hn. unfold sextet_ok in Hn.
  apply andb_prop in Hn as [Hn _]. apply andb_prop in Hn as [_ Hn].
  now apply negb_true_iff in Hn.
Qed.

Lemma char_of_sextet_not_space (n : N) :
  (n < 64)%N -> Base64.is_whitespace (Base64.char_of_sextet n) = false.
Proof.
  intros Hn. apply sextet_ok_all in Hn. unfold sextet_ok in Hn.
  apply andb_prop in Hn as [_ Hn]. now apply negb_true_iff in Hn.
Qed.

Lemma sextets_of_chars_of_sextets (l : list N) :
  Forall (fun n => (n < 64)%N) l ->
  Base64.sextets_of_chars (map Base64.char_of_sextet l) = Some l.
Proof.
  induction 1 as [|n l Hn _ IH]; cbn [map Base64.sextets_of_chars].
  - reflexivity.
  - now rewrite (sextet_of_char_of_sextet n Hn), IH.
Qed.

Lemma decode_sextets_sextets (b : bytes) : Base64.decode_sextets (Base64.sextets b) = b.
Proof.
  induction b as [|x|x y|x y z l IH] using list_ind3;
    cbn [Base64.sextets Base64.decode_sextets].
  - reflexivity.
  - pose proof (byte_bound x). f_equal. byte_back.
  - pose proof (byte_bound x). pose proof (byte_bound y).
    f_equal; [|f_equal]; byte_back.
  - pose proof (byte_bound x). pose proof (byte_bound y). pose proof (byte_bound z).
    rewrite IH. f_equal; [|f_equal; [|f_equal]]; byte_back.
Qed.

Lemma sextets_length (b : bytes) :
  List.length (Base64.sextets b) = ((4 * List.length b + 2) / 3)%nat.
Proof.
  induction b as [|x|x y|x y z l IH] using list_ind3; cbn [Base64.sextets List.length].
  - reflexivity.
  - reflexivity.
  - reflexivity.
  - rewrite IH. divmod_lia.
Qed.

Lemma padding_step (n : nat) : Base64.padding (S (S (S n))) = Base64.padding n.
Proof.
  unfold Base64.padding.
  replace (S (S (S n)) mod 3)%nat with (n mod 3)%nat by divmod_lia. reflexivity.
Qed.

Lemma encoded_step (x y z : ascii) (l : bytes) :
  encoded (x :: y :: z :: l) =
  map Base64.char_of_sextet (firstn 4 (Base64.sextets (x :: y :: z :: l))) ++ encoded l.
Proof.
  unfold encoded. cbn [List.length]. rewrite padding_step.
  cbn [Base64.sextets firstn map app]. reflexivity.
Qed.

Lemma encoded_length (b : bytes) : (List.length (encoded b) mod 4 = 0)%nat.
Proof.
  induction b as [|x|x y|x y z l IH] using list_ind3.
  - reflexivity.
  - reflexivity.
  - reflexivity.
  - rewrite encoded_step. cbn [Base64.sextets firstn map app List.length].
    revert IH. generalize (List.length (encoded l)). intros n Hn. divmod_lia.
Qed.

Lemma drop_padding_encoded (b : bytes) :
  Base64.drop_padding (encoded b) = map Base64.char_of_sextet (Base64.sextets b).
Proof.
  induction b as [|x|x y|x y z l IH] using list_ind3.
  - reflexivity.
  - reflexivity.
  - change (encoded [x; y])
      with (map Base64.char_of_sextet (Base64.sextets [x; y]) ++ [Base64.pad_char]).
    cbn [Base64.sextets map app].
    pose proof (sextets_bound [x; y]) as Hb. cbn [Base64.sextets] in Hb.
    inversion Hb as [|? ? _ Hb1]; subst. inversion Hb1 as [|? ? _ Hb2]; subst.
    inversion Hb2 as [|? ? H3 _]; subst.
    cbn [Base64.drop_padding]. rewrite Ascii.eqb_refl, (char_of_sextet_not_pad _ H3).
    reflexivity.
  - rewrite encoded_step.
    pose proof (sextets_bound (x :: y :: z :: l)) as Hb.
    pose proof (encoded_length l) as Hl.
    cbn [Base64.sextets firstn map app] in *.
    inversion Hb as [|? ? _ Hb1]; subst. inversion Hb1 as [|? ? _ Hb2]; subst.
    inversion Hb2 as [|? ? _ Hb3]; subst. inversion Hb3 as [|? ? H4 _]; subst.
    rewrite <- IH.
    destruct (encoded l) as [|e1 [|e2 rest]].
    + cbn [Base64.drop_padding app]. rewrite (char_of_sextet_not_pad _ H4). reflexivity.
    + discriminate Hl.
    + reflexivity.
Qed.

Lemma filter_all {A : Type} (f : A -> bool) (l : list A) :
  Forall (fun x => f x = true) l -> filter f l = l.
Proof.
  induction 1 as [|x l Hx _ IH]; cbn [filter]; [reflexivity|]. now rewrite Hx, IH.
Qed.

Lemma encoded_no_space (b : bytes) :
  Forall (fun c => negb (Base64.is_whitespace c) = true) (encoded b).
Proof.
  unfold encoded. apply Forall_app. split.
  - apply Forall_map. eapply Forall_impl; [|apply sextets_bound].
    intros n Hn. cbn beta. now rewrite char_of_sextet_not_space.
  - unfold Base64.padding.
    destruct (List.length b mod 3)%nat as [|[|[|?]]]; repeat constructor.
Qed.

(** Decoding gives back the bytes that were encoded. *)
Lemma atob_btoa (b : bytes) : Base64.atob_bytes (Base64.btoa_bytes b) = Some b.
Proof.
  unfold Base64.atob_bytes, Base64.btoa_bytes. fold (encoded b).
  rewrite list_ascii_of_string_of_list_ascii.
  rewrite (filter_all _ _ (encoded_no_space b)).
  unfold Base64.strip_padding. rewrite encoded_length. cbn [Nat.eqb].
  rewrite drop_padding_encoded, length_map, sextets_length.
  replace (((4 * List.length b + 2) / 3) mod 4 =? 1)%nat with false
    by (symmetry; apply Nat.eqb_neq; divmod_lia).
  rewrite (sextets_of_chars_of_sextets _ (sextets_bound b)).
  now rewrite decode_sextets_sextets.
Qed.

(* ===================================================================== *)
(** ** Hexadecimal text determines the bytes *)
(* ===================================================================== *)

Lemma unhex_pair (x : ascii) :
  ascii_of_N (hex_digit_value (hex_digit (N_of_ascii x / 16)) * 16
              + hex_digit_value (hex_digit (N_of_ascii x mod 16))) = x.
Proof.
  destruct x as [[] [] [] [] [] [] [] []]; vm_compute; reflexivity.
Qed.

Lemma unhex_hex (b : bytes) : unhex (list_ascii_of_string (hex b)) = b.
Proof.
  unfold hex. rewrite list_ascii_of_string_of_list_ascii.
  induction b as [|x b IH]; cbn [flat_map app unhex]; [reflexivity|].
  now rewrite unhex_pair, IH.
Qed.

Lemma hex_inj (a b : bytes) : hex a = hex b -> a = b.
Proof.
  intros Hab. rewrite <- (unhex_hex a), <- (unhex_hex b). now rewrite Hab.
Qed.

(* ===================================================================== *)
(** ** The stream cipher of the Galois/Counter Mode *)
(* ===================================================================== *)

Lemma xorb_cancel (a b : bool) : xorb (xorb a b) b = a.
Proof. destruct a, b; reflexivity. Qed.

Lemma xor_byte_cancel (a b : ascii) : xor_byte (xor_byte a b) b = a.
Proof.
  destruct a, b. cbn [xor_byte]. now rewrite !xorb_cancel.
Qed.

Lemma xor_with_length (x ks : bytes) : List.length (xor_with x ks) = List.length x.
Proof.
  revert ks. induction x as [|b x IH]; intros ks; cbn [xor_with List.length]; auto.
Qed.

Lemma xor_with_cancel (x ks : bytes) : xor_with (xor_with x ks) ks = x.
Proof.
  revert ks. induction x as [|b x IH]; intros ks; cbn [xor_with]; [reflexivity|].
  now rewrite xor_byte_cancel, IH.
Qed.

Lemma be_bytes_length (len : nat) (n : N) : List.length (be_bytes len n) = len.
Proof.
  revert n. induction len as [|k IH]; intros n; cbn [be_bytes]; [reflexivity|].
  rewrite length_app, IH. cbn. lia.
Qed.

Section Gctr.
Variable E : N -> N.

Lemma gctr_nil (n : nat) (cb : N) : GCM.gctr E n cb [] = [].
Proof. destruct n; reflexivity. Qed.

Lemma gctr_cons (f : nat) (cb : N) (x : bytes) :
  x <> [] ->
  GCM.gctr E (S f) cb x =
  xor_with (firstn 16 x) (be_bytes 16 (E cb)) ++ GCM.gctr E f (GCM.inc32 cb) (skipn 16 x).
Proof. destruct x; [congruence|reflexivity]. Qed.

Lemma gctr_length (n : nat) : forall (cb : N) (x : bytes),
  (List.length x <= n)%nat -> List.length (GCM.gctr E n cb x) = List.length x.
Proof.
  induction n as [|f IH]; intros cb x Hx.
  - destruct x; [reflexivity|cbn in Hx; lia].
  - destruct x as [|a x']; [reflexivity|].
    rewrite gctr_cons by discriminate.
    rewrite length_app, xor_with_length, IH.
    + rewrite <- length_app, firstn_skipn. reflexivity.
    + rewrite length_skipn. cbn [List.length] in *. lia.
Qed.

(** Running the counter mode twice from the same counter block gives the
    text back. *)
Lemma gctr_involutive (n : nat) : forall (cb : N) (x : bytes),
  (List.length x <= n)%nat -> GCM.gctr E n cb (GCM.gctr E n cb x) = x.
Proof.
  induction n as [|f IH]; intros cb x Hx.
  - destruct x; [reflexivity|cbn in Hx; lia].
  - destruct x as [|a x']; [reflexivity|].
    set (x := a :: x') in *.
    assert (Hne : x <> []) by (subst x; discriminate).
    rewrite (gctr_cons f cb x Hne).
    set (A := xor_with (firstn 16 x) (be_bytes 16 (E cb))).
    set (B := GCM.gctr E f (GCM.inc32 cb) (skipn 16 x)).
    assert (HA : List.length A = List.length (firstn 16 x))
      by (subst A; apply xor_with_length).
    assert (Hskip : (List.length (skipn 16 x) <= f)%nat)
      by (rewrite length_skipn; subst x; cbn [List.length] in *; lia).
    assert (HAB : A ++ B <> []).
    { subst A x. cbn [firstn xor_with app]. discriminate. }
    rewrite (gctr_cons f cb _ HAB).
    destruct (Nat.le_gt_cases 16 (List.length x)) as [Hlong|Hshort].
    + assert (HA16 : List.length A = 16%nat) by (rewrite HA, length_firstn; lia).
      rewrite firstn_app, skipn_app, HA16, Nat.sub_diag.
      rewrite firstn_O, skipn_O, app_nil_r.
      rewrite (@firstn_all2 _ 16 A) by lia.
      rewrite (@skipn_all2 _ 16 A) by lia. cbn [app].
      subst A B. rewrite xor_with_cancel, (IH _ _ Hskip). apply firstn_skipn.
    + assert (Hs : skipn 16 x = []) by (apply skipn_all2; lia).
      assert (Hf : firstn 16 x = x) by (apply firstn_all2; lia).
      subst B. rewrite Hs, gctr_nil, app_nil_r.
      rewrite firstn_all2 by (rewrite HA, Hf; lia).
      rewrite skipn_all2 by (rewrite HA, Hf; lia).
      rewrite gctr_nil, app_nil_r. subst A. rewrite xor_with_cancel. exact Hf.
Qed.
End Gctr.

Lemma bytes_eqb_refl (b : bytes) : bytes_eqb b b = true.
Proof. apply String.eqb_refl. Qed.

(** AES-GCM decrypts what it encrypted under the same key and nonce. *)
Lemma gcm_decrypt_encrypt (key iv data c : bytes) :
  GCM.encrypt key iv data = Some c -> GCM.decrypt key iv c = Some data.
Proof.
  unfold GCM.encrypt, GCM.decrypt. destruct iv as [|i iv']; [discriminate|].
  set (E := AES.encrypt_block key). set (h := E 0%N).
  set (j := GCM.counter0 h (i :: iv')).
  set (C := GCM.gctr E (List.length data) (GCM.inc32 j) data).
  intros [= <-].
  assert (HC : List.length C = List.length data) by (apply gctr_length; lia).
  assert (HT : List.length (GCM.tag E h j C) = 16%nat)
    by (unfold GCM.tag; rewrite xor_with_length; apply be_bytes_length).
  rewrite length_app, HT.
  replace (List.length C + 16 <? 16)%nat with false by (symmetry; apply Nat.ltb_ge; lia).
  replace (List.length C + 16 - 16)%nat with (List.length C) by lia.
  rewrite firstn_app, skipn_app, firstn_all, skipn_all, Nat.sub_diag.
  rewrite firstn_O, skipn_O, app_nil_r. cbn [app]. rewrite bytes_eqb_refl.
  subst C. rewrite gctr_length by lia. now rewrite gctr_involutive by lia.
Qed.

(* ===================================================================== *)
(** ** HMAC keys that differ by trailing zero bytes *)
(* ===================================================================== *)

Lemma encode_nul (s : string) : encode (s +++ String zero "") = encode s ++ [zero].
Proof.
  unfold encode. induction s as [|a s IH]; cbn; [reflexivity|now rewrite IH].
Qed.

Lemma encode_length (s : string) : List.length (encode s) = String.length s.
Proof.
  unfold encode. induction s as [|a s IH]; cbn; [reflexivity|now rewrite IH].
Qed.

Lemma key_block_nul (key : bytes) :
  (List.length key < 64)%nat -> HMAC.key_block (key ++ [zero]) = HMAC.key_block key.
Proof.
  intros Hk. unfold HMAC.key_block. rewrite length_app. cbn [List.length].
  replace (64 <? List.length key + 1)%nat with false by (symmetry; apply Nat.ltb_ge; lia).
  replace (64 <? List.length key)%nat with false by (symmetry; apply Nat.ltb_ge; lia).
  rewrite length_app. cbn [List.length].
  replace (64 - List.length key)%nat with (S (64 - (List.length key + 1))) by lia.
  cbn [repeat]. now rewrite <- app_assoc.
Qed.

Lemma hmac_nul (key msg : bytes) :
  (List.length key < 64)%nat -> HMAC.hmac (key ++ [zero]) msg = HMAC.hmac key msg.
Proof.
  intros Hk. unfold HMAC.hmac. now rewrite key_block_nul.
Qed.

Lemma iter_ext {A : Type} (f g : A -> A) (n : N) (x : A) :
  (forall y, f y = g y) -> N.iter n f x = N.iter n g x.
Proof.
  intros Hfg. induction n as [|n IH] using N.peano_ind.
  - reflexivity.
  - now rewrite !N.iter_succ, IH, Hfg.
Qed.

Lemma pbkdf2_block_ext (prf prf' : bytes -> bytes) (salt : bytes) (c i : N) :
  (forall m, prf m = prf' m) -> PBKDF2.block prf salt c i = PBKDF2.block prf' salt c i.
Proof.
  intros Hp. unfold PBKDF2.block. rewrite Hp. f_equal.
  apply iter_ext. intros [u t]. cbn [fst snd]. now rewrite Hp.
Qed.

Lemma derive_nul (password salt : bytes) (c : N) :
  (List.length password < 64)%nat ->
  PBKDF2.derive (password ++ [zero]) salt c = PBKDF2.derive password salt c.
Proof.
  intros Hk. unfold PBKDF2.derive. apply pbkdf2_block_ext.
  intros m. now apply hmac_nul.
Qed.

(* ===================================================================== *)
(** ** Text of an object survives encoding and decoding *)
(* ===================================================================== *)

Lemma decode_encode_brace (rest : string) :
  decode (encode (String "{" rest)) = String "{" rest.
Proof.
  unfold decode, encode. cbn [list_ascii_of_string].
  destruct (list_ascii_of_string rest) as [|y [|z r]] eqn:Hr;
    rewrite <- ?Hr;
    change ("{"%char :: list_ascii_of_string rest) with (list_ascii_of_string (String "{" rest));
    apply string_of_list_ascii_of_string.
Qed.

Lemma stringify_object (fields : list (string * JSON.value)) :
  exists rest, stringify (JObject fields) = String "{" rest.
Proof.
  destruct fields as [|f fs]; cbn [stringify stringify_at]; eexists; reflexivity.
Qed.

Lemma decode_encode_object (fields : list (string * JSON.value)) :
  decode (encode (stringify (JObject fields))) = stringify (JObject fields).
Proof.
  destruct (stringify_object fields) as [rest ->]. apply decode_encode_brace.
Qed.

Lemma gcm_encrypt_length (key iv data c : bytes) :
  GCM.encrypt key iv data = Some c -> List.length c = (List.length data + 16)%nat.
Proof.
  unfold GCM.encrypt. destruct iv as [|i iv']; [discriminate|]. intros [= <-].
  rewrite length_app. unfold GCM.tag.
  rewrite xor_with_length, be_bytes_length, gctr_length by lia. reflexivity.
Qed.

Lemma gcm_encrypt_total (key iv data : bytes) :
  iv <> [] -> exists c, GCM.encrypt key iv data = Some c.
Proof.
  intros Hiv. unfold GCM.encrypt. destruct iv; [congruence|]. eexists. reflexivity.
Qed.

(* ===================================================================== *)
(** ** The primitives on the test vectors of their standards *)
(* ===================================================================== *)

(** FIPS 180-4, the one-block message. *)
Example sha256_abc :
  hex (SHA256.sha256 (encode "abc"))
  = "ba7816bf8f01cfea414140de5dae2223b00361a396177a9cb410ff61f20015ad".
Proof. vm_compute. reflexivity. Qed.

(** RFC 4231, test case 2. *)
Example hmac_jefe :
  hex (HMAC.hmac (encode "Jefe") (encode "what do ya want for nothing?"))
  = "5bdcc146bf60754e6a042426089575c75a003f089d2739839dec58b964ec3843".
Proof. vm_compute. reflexivity. Qed.

(** RFC 4231, test case 6: a key longer than a block is hashed first. *)
Example hmac_long_key :
  hex (HMAC.hmac (repeat (ascii_of_N 170) 131)
         (encode "Test Using Larger Than Block-Size Key - Hash Key First"))
  = "60e431591ee0b67f0d8a26aacbf5b77f8e0bc6213728c5140546040f0ee37f54".
Proof. vm_compute. reflexivity. Qed.

(** PBKDF2-HMAC-SHA-256 of [password] and [salt], two iterations. *)
Example pbkdf2_two_iterations :
  hex (PBKDF2.derive (encode "password") (encode "salt") 2)
  = "ae4d0c95af6b46d32d0adff928f06dd02a303f8ef3c251dfd6e2d85a95474c43".
Proof. vm_compute. reflexivity. Qed.

(** FIPS 197, appendix C.3. *)
Example aes256_block :
  be_bytes 16 (AES.encrypt_block
                 (of_hex "000102030405060708090a0b0c0d0e0f101112131415161718191a1b1c1d1e1f")
                 (be_value (of_hex "00112233445566778899aabbccddeeff")))
  = of_hex "8ea2b7ca516745bfeafc49904b496089".
Proof. vm_compute. reflexivity. Qed.

(** The GCM specification, test case 14: a zero key, nonce and block. *)
Example gcm_zero_block :
  option_map hex (GCM.encrypt (repeat zero 32) (repeat zero 12) (repeat zero 16))
  = Some "cea7403d4d606b6e074ec5d3baf39d18d0d1c8a799996bf0265b98b5d48ab919".
Proof. vm_compute. reflexivity. Qed.

(** A nonce that is not twelve bytes long goes through GHASH. *)
Example gcm_short_nonce :
  option_map hex
    (GCM.encrypt (of_hex "feffe9928665731c6d6a8f9467308308feffe9928665731c6d6a8f9467308308")
       (of_hex "cafebabefacedbad") (encode "hello world, this is a test of gcm with odd length"))
  = Some "722273b85ddc0cb87972acd27e190a385a9d216d3ec2bd548e10b3ca7eed37f581e4ae31c528c583d5e7a8321e04e43aa7ae5096c56cde53beddf7d1ca9bbca04b5d".
Proof. vm_compute. reflexivity. Qed.

(** [JSON.stringify] with a gap of two spaces, and the reference parser on
    its output. *)
Example stringify_sample :
  Reference.json_parse (stringify (session_json Sample.session))
  = inr (session_json Sample.session).
Proof. vm_compute. reflexivity. Qed.

(* ===================================================================== *)
(** ** The form of a signature *)
(* ===================================================================== *)

Lemma sha256_length (msg : bytes) : List.length (SHA256.sha256 msg) = 32%nat.
Proof.
  unfold SHA256.sha256.
  destruct (SHA256.blocks _ _ _) as [[[[[[[a b] c] d] e] f] g] h].
  cbn [flat_map]. rewrite !length_app, !be_bytes_length. reflexivity.
Qed.

Lemma hmac_length (key msg : bytes) : List.length (HMAC.hmac key msg) = 32%nat.
Proof. unfold HMAC.hmac. apply sha256_length. Qed.

Lemma hex_cons (x : ascii) (b : bytes) :
  hex (x :: b)
  = String (hex_digit (N_of_ascii x / 16)) (String (hex_digit (N_of_ascii x mod 16)) (hex b)).
Proof. reflexivity. Qed.

Lemma hex_digit_lower (n : N) : (n < 16)%N -> is_lower_hex (hex_digit n) = true.
Proof.
  intros Hn. unfold hex_digit.
  assert (Hk : (N.to_nat n < 16)%nat) by lia.
  revert Hk. generalize (N.to_nat n). intros k Hk.
  do 16 (destruct k as [|k]; [reflexivity|]). lia.
Qed.

Lemma hex_format (b : bytes) :
  String.length (hex b) = (2 * List.length b)%nat
  /\ forallb is_lower_hex (list_ascii_of_string (hex b)) = true.
Proof.
  induction b as [|x b [IH1 IH2]]; [split; reflexivity|].
  rewrite hex_cons. cbn [String.length list_ascii_of_string forallb List.length].
  rewrite IH1, IH2. pose proof (byte_bound x) as Hx.
  rewrite !hex_digit_lower by divmod_lia. split; [lia|reflexivity].
Qed.

Lemma bytes_eqb_eq (a b : bytes) : bytes_eqb a b = true -> a = b.
Proof.
  unfold bytes_eqb. intros E. apply String.eqb_eq in E.
  apply (f_equal list_ascii_of_string) in E.
  now rewrite !list_ascii_of_string_of_list_ascii in E.
Qed.

(** AES-GCM decrypts nothing but what it encrypts: the text it gives back,
    encrypted under the same key and nonce, is the data it was given. *)
Lemma gcm_encrypt_decrypt (key iv data text : bytes) :
  GCM.decrypt key iv data = Some text -> GCM.encrypt key iv text = Some data.
Proof.
  unfold GCM.decrypt, GCM.encrypt. destruct iv as [|i iv']; [discriminate|].
  destruct (List.length data <? 16)%nat eqn:Hl; [discriminate|].
  apply Nat.ltb_ge in Hl.
  set (E := AES.encrypt_block key). set (h := E 0%N).
  set (j := GCM.counter0 h (i :: iv')).
  set (c := firstn (List.length data - 16) data).
  destruct (bytes_eqb _ _) eqn:Ht; [|discriminate].
  apply bytes_eqb_eq in Ht. intros [= <-]. f_equal.
  rewrite gctr_length by lia. rewrite gctr_involutive by lia.
  rewrite <- Ht. apply firstn_skipn.
Qed.

#[local] Opaque SHA256.sha256 HMAC.hmac PBKDF2.derive GCM.encrypt GCM.decrypt
  Base64.btoa_bytes Base64.atob_bytes hex.

(* ===================================================================== *)
(** ** The crypto calls of [background.js], run *)
(* ===================================================================== *)

Section Runs.
Context {H : Host}.

Lemma generateHMAC_run (data key : string) (log : Log) :
  key <> "" ->
  generateHMAC data key log = (inr (tag_of data key), log ++ [ImportKey "HMAC"; Sign]).
Proof.
  intros Hk. destruct key as [|a k]; [congruence|].
  unfold generateHMAC, tag_of, bind, call, ret. cbn [encode list_ascii_of_string].
  now rewrite <- app_assoc.
Qed.

Lemma verifyHMAC_run (data signature key : string) (log : Log) :
  verifyHMAC data signature key log =
  (inr (negb (String.eqb key "") && String.eqb (tag_of data key) signature),
   log ++ verify_calls key).
Proof.
  destruct key as [|a k].
  - reflexivity.
  - unfold verifyHMAC, catch, bind. rewrite generateHMAC_run by discriminate.
    reflexivity.
Qed.

Lemma btoa_spread_run (array : bytes) (log : Log) :
  fits (List.length array) -> btoa_spread array log = (inr (Base64.btoa_bytes array), log).
Proof.
  intros Hf. unfold btoa_spread. apply N.leb_le in Hf. now rewrite Hf.
Qed.

Lemma btoa_spread_throws (array : bytes) (log : Log) :
  ~ fits (List.length array) -> btoa_spread array log = (inl range_error, log).
Proof.
  intros Hf. unfold btoa_spread.
  destruct (N.of_nat (List.length array) <=? max_arguments)%N eqn:E; [|reflexivity].
  apply N.leb_le in E. contradiction.
Qed.

Lemma btoa_spread_inv (array : bytes) (text : string) (log log1 : Log) :
  btoa_spread array log = (inr text, log1) ->
  fits (List.length array) /\ text = Base64.btoa_bytes array /\ log1 = log.
Proof.
  unfold btoa_spread, fits.
  destruct (N.of_nat (List.length array) <=? max_arguments)%N eqn:E; [|discriminate].
  apply N.leb_le in E. intros [= <- <-]. auto.
Qed.

(** [encryptData] up to its three conversions to base64. *)
Lemma encryptData_steps (data password : string) (salt iv c : bytes) (log : Log) :
  GCM.encrypt (PBKDF2.derive (encode password) salt iterations) iv (encode data) = Some c ->
  encryptData data password salt iv log =
  (base64Encrypted <- btoa_spread c ;;
   base64Salt <- btoa_spread salt ;;
   base64IV <- btoa_spread iv ;;
   ret {| enc_encrypted := base64Encrypted; enc_salt := base64Salt; enc_iv := base64IV |})
    (log ++ encrypt_calls).
Proof.
  intros Hc. unfold encryptData, bind at 1 2 3 4 5, call. cbn beta iota. rewrite Hc.
  unfold encrypt_calls. now rewrite <- !app_assoc.
Qed.

Lemma encryptData_run (data password : string) (salt iv c : bytes) (log : Log) :
  GCM.encrypt (PBKDF2.derive (encode password) salt iterations) iv (encode data) = Some c ->
  fits (List.length c) -> fits (List.length salt) -> fits (List.length iv) ->
  encryptData data password salt iv log =
  (inr {| enc_encrypted := Base64.btoa_bytes c; enc_salt := Base64.btoa_bytes salt;
          enc_iv := Base64.btoa_bytes iv |}, log ++ encrypt_calls).
Proof.
  intros Hc Fc Fs Fi. rewrite (encryptData_steps _ _ _ _ _ _ Hc). unfold bind.
  now rewrite !btoa_spread_run.
Qed.

(** What a call of [encryptData] that returned has done. *)
Lemma encryptData_inv (data password : string) (salt iv : bytes) (log log1 : Log)
    (e : Encrypted) :
  encryptData data password salt iv log = (inr e, log1) ->
  exists c,
    GCM.encrypt (PBKDF2.derive (encode password) salt iterations) iv (encode data) = Some c
    /\ fits (List.length c) /\ fits (List.length salt) /\ fits (List.length iv)
    /\ e = {| enc_encrypted := Base64.btoa_bytes c; enc_salt := Base64.btoa_bytes salt;
              enc_iv := Base64.btoa_bytes iv |}
    /\ log1 = log ++ encrypt_calls.
Proof.
  intros He.
  destruct (GCM.encrypt (PBKDF2.derive (encode password) salt iterations) iv (encode data))
    as [c|] eqn:Hc.
  - rewrite (encryptData_steps _ _ _ _ _ _ Hc) in He. unfold bind in He.
    destruct (btoa_spread c _) as [[x|t1] l1] eqn:E1; [discriminate|].
    destruct (btoa_spread salt _) as [[x|t2] l2] eqn:E2; [discriminate|].
    destruct (btoa_spread iv _) as [[x|t3] l3] eqn:E3; [discriminate|].
    apply btoa_spread_inv in E1 as [F1 [-> ->]].
    apply btoa_spread_inv in E2 as [F2 [-> ->]].
    apply btoa_spread_inv in E3 as [F3 [-> ->]].
    injection He as <- <-. exists c. auto 10.
  - unfold encryptData, bind, call, ret, throw in He. cbn beta iota in He.
    rewrite Hc in He. discriminate He.
Qed.

Lemma decryptData_run (data password : string) (key salt iv c : bytes) (log : Log) :
  PBKDF2.derive (encode password) salt iterations = key ->
  GCM.encrypt key iv (encode data) = Some c ->
  decryptData (Base64.btoa_bytes c) (Base64.btoa_bytes salt) (Base64.btoa_bytes iv) password log
  = (inr (decode (encode data)), log ++ decrypt_calls).
Proof.
  intros Hk Hc. unfold decryptData, catch, bind, atob_or_throw, call, ret.
  rewrite !atob_btoa. cbn beta iota. rewrite Hk, (gcm_decrypt_encrypt _ _ _ _ Hc).
  unfold decrypt_calls. now rewrite <- !app_assoc.
Qed.

Lemma seal_run (sessionData : Session) (password : string) (salt iv c : bytes) (log : Log) :
  password <> "" ->
  GCM.encrypt (PBKDF2.derive (encode password) salt iterations) iv
    (encode (stringify (session_json sessionData))) = Some c ->
  fits (List.length c) -> fits (List.length salt) -> fits (List.length iv) ->
  seal sessionData password salt iv log =
  (inr (wrapper_of password salt iv c),
   log ++ encrypt_calls ++ [ImportKey "HMAC"; Sign]).
Proof.
  intros Hp Hc Fc Fs Fi. unfold seal, bind.
  rewrite (encryptData_run _ _ _ _ _ _ Hc Fc Fs Fi).
  cbn [enc_encrypted enc_salt enc_iv]. rewrite generateHMAC_run by assumption.
  unfold ret, wrapper_of. now rewrite <- app_assoc.
Qed.

(** A wrapper whose tag the password reproduces and whose key the password
    derives is opened. *)
Lemma decryptSession_accepts (sessionData : Session) (p1 p2 : string) (salt iv c : bytes)
    (options : Options.t) (log : Log) :
  Options.password options = Some p2 ->
  p2 <> "" ->
  tag_of (Base64.btoa_bytes c) p2 = tag_of (Base64.btoa_bytes c) p1 ->
  PBKDF2.derive (encode p2) salt iterations = PBKDF2.derive (encode p1) salt iterations ->
  GCM.encrypt (PBKDF2.derive (encode p1) salt iterations) iv
    (encode (stringify (session_json sessionData))) = Some c ->
  decryptSession options (wrapper_of p1 salt iv c) log =
  (inr (decrypt_response (JSON_parse (stringify (session_json sessionData)))),
   log ++ [ImportKey "HMAC"; Sign] ++ decrypt_calls).
Proof.
  intros Ho Hp Htag Hkey Hc. unfold decryptSession, catch, bind. rewrite Ho.
  cbn [text_of wrapper_of Sealed.encrypted Sealed.data Sealed.signature Sealed.salt
       Sealed.iv negb].
  rewrite verifyHMAC_run, Htag, String.eqb_refl.
  destruct p2 as [|a p2']; [congruence|]. cbn [String.eqb negb andb verify_calls].
  rewrite (decryptData_run _ _ _ _ _ _ _ Hkey Hc).
  unfold session_json. rewrite decode_encode_object. fold (session_json sessionData).
  destruct (JSON_parse _); unfold throw, ret; cbn [decrypt_response];
    now rewrite <- app_assoc.
Qed.

(** A wrapper whose tag the password does not reproduce is refused, after
    the calls of [verifyHMAC] alone. *)
Lemma decryptSession_refuses (wrapper : Sealed.file) (options : Options.t) (log : Log) :
  Sealed.encrypted wrapper = true ->
  negb (String.eqb (text_of (Options.password options)) "")
  && String.eqb (tag_of (Sealed.data wrapper) (text_of (Options.password options)))
       (Sealed.signature wrapper) = false ->
  decryptSession options wrapper log =
  (inr (DecryptError "Invalid password or corrupted file"),
   log ++ verify_calls (text_of (Options.password options))).
Proof.
  intros He Hv. unfold decryptSession, catch, bind. rewrite He. cbn [negb].
  rewrite verifyHMAC_run, Hv. reflexivity.
Qed.
End Runs.

(* ===================================================================== *)
(** ** Sealing and opening *)
(* ===================================================================== *)

Section Sealing.
Context {H : Host}.

Lemma seal_inv (sessionData : Session) (password : string) (salt iv : bytes) (log log1 : Log)
    (wrapper : Sealed.file) :
  seal sessionData password salt iv log = (inr wrapper, log1) ->
  exists c,
    password <> ""
    /\ GCM.encrypt (PBKDF2.derive (encode password) salt iterations) iv
         (encode (stringify (session_json sessionData))) = Some c
    /\ wrapper = wrapper_of password salt iv c
    /\ log1 = log ++ encrypt_calls ++ [ImportKey "HMAC"; Sign].
Proof.
  intros Hs. unfold seal, bind in Hs.
  destruct (encryptData _ password salt iv log) as [[x|e] l1] eqn:He; [discriminate|].
  apply encryptData_inv in He as [c [Hc [Fc [Fs [Fi [-> ->]]]]]].
  cbn [enc_encrypted enc_salt enc_iv] in Hs. exists c.
  destruct password as [|a p].
  - cbn in Hs. discriminate Hs.
  - assert (Hp : String a p <> "") by discriminate.
    rewrite generateHMAC_run in Hs by exact Hp. unfold ret in Hs.
    injection Hs as <- <-. rewrite <- app_assoc. auto.
Qed.

(** The cipher text is sixteen bytes longer than the text. *)
Lemma cipher_fits (key iv data : bytes) :
  iv <> [] -> fits (List.length data + 16) ->
  exists c, GCM.encrypt key iv data = Some c /\ fits (List.length c).
Proof.
  intros Hiv Hf. destruct (gcm_encrypt_total key iv data Hiv) as [c Hc].
  exists c. split; [exact Hc|]. now rewrite (gcm_encrypt_length _ _ _ _ Hc).
Qed.
End Sealing.

(* ===================================================================== *)
(** ** Objects built by assigning fresh keys *)
(* ===================================================================== *)

Lemma decimal_inj (n m : nat) : decimal n = decimal m -> n = m.
Proof.
  unfold decimal. intros E.
  apply (f_equal NilEmpty.uint_of_string) in E. rewrite !NilEmpty.usu in E.
  injection E as E. apply (f_equal Nat.of_uint) in E.
  now rewrite !Unsigned.of_to in E.
Qed.

Lemma append_inj (p a b : string) : p +++ a = p +++ b -> a = b.
Proof.
  induction p as [|c p IH]; cbn [String.append]; intros E; [exact E|].
  injection E as E. now apply IH.
Qed.

Lemma numbered_inj (prefix : string) (i j : nat) :
  numbered prefix i = numbered prefix j -> i = j.
Proof.
  unfold numbered. intros E. apply append_inj, decimal_inj in E. lia.
Qed.

Lemma assign_fresh {A : Type} (k : string) (v : A) (o : list (string * A)) :
  ~ In k (JSON.keys o) -> JSON.assign k v o = o ++ [(k, v)].
Proof.
  induction o as [|[k' v'] o IH]; cbn [JSON.assign JSON.keys map app fst]; intros Hk.
  - reflexivity.
  - destruct (String.eqb k k') eqn:E.
    + apply String.eqb_eq in E. subst k'. exfalso. apply Hk. now left.
    + f_equal. apply IH. intros Hin. apply Hk. now right.
Qed.

Lemma lookup_fresh {A : Type} (k : string) (o : list (string * A)) :
  ~ In k (JSON.keys o) -> JSON.lookup k o = None.
Proof.
  induction o as [|[k' v'] o IH]; cbn [JSON.lookup JSON.keys map fst]; intros Hk.
  - reflexivity.
  - destruct (String.eqb k k') eqn:E.
    + apply String.eqb_eq in E. subst k'. exfalso. apply Hk. now left.
    + apply IH. intros Hin. apply Hk. now right.
Qed.

Section FoldAssign.
Variables (A B : Type).
Variable key : nat -> string.
Variable skip : nat * B -> bool.
Variable build : nat * B -> A.
Hypothesis key_inj : forall i j, key i = key j -> i = j.

(** A loop that assigns to a key of its own at every turn it does not skip
    appends its entries in order. *)
Lemma fold_assign (l : list (nat * B)) : forall acc : list (string * A),
  NoDup (map fst l) ->
  (forall iw, In iw l -> ~ In (key (fst iw)) (JSON.keys acc)) ->
  fold_left (fun obj iw => if skip iw then obj else JSON.assign (key (fst iw)) (build iw) obj)
            l acc
  = acc ++ map (fun iw => (key (fst iw), build iw)) (filter (fun iw => negb (skip iw)) l).
Proof.
  induction l as [|iw l IH]; intros acc Hnd Hfresh; cbn [fold_left filter map].
  - now rewrite app_nil_r.
  - cbn [map] in Hnd. inversion Hnd as [|? ? Hnotin Hnd']; subst.
    destruct (skip iw) eqn:Hs; cbn [negb].
    + apply IH; [exact Hnd'|]. intros iw' Hin. apply Hfresh. now right.
    + rewrite assign_fresh by (apply Hfresh; now left).
      rewrite IH; [|exact Hnd'|].
      * cbn [map]. now rewrite <- app_assoc.
      * intros iw' Hin. unfold JSON.keys. rewrite map_app, in_app_iff.
        intros [Hacc|[Hk|[]]].
        -- apply (Hfresh iw'); [now right|exact Hacc].
        -- cbn [fst] in Hk. apply key_inj in Hk. apply Hnotin.
           rewrite Hk. now apply in_map.
Qed.
End FoldAssign.

Lemma indexed_from (A : Type) (l : list A) : forall k,
  map fst (combine (seq k (List.length l)) l) = seq k (List.length l)
  /\ map snd (combine (seq k (List.length l)) l) = l.
Proof.
  induction l as [|x l IH]; intros k; cbn [List.length seq combine map fst snd].
  - split; reflexivity.
  - destruct (IH (S k)) as [-> ->]. split; reflexivity.
Qed.

Lemma indexed_fst {A : Type} (l : list A) : map fst (indexed l) = seq 0 (List.length l).
Proof. apply indexed_from. Qed.

Lemma indexed_snd {A : Type} (l : list A) : map snd (indexed l) = l.
Proof. apply indexed_from. Qed.

Lemma indexed_NoDup {A : Type} (l : list A) : NoDup (map fst (indexed l)).
Proof. rewrite indexed_fst. apply seq_NoDup. Qed.

Lemma indexed_length {A : Type} (l : list A) : List.length (indexed l) = List.length l.
Proof. rewrite <- (length_map snd), indexed_snd. reflexivity. Qed.

Lemma indexed_nth {A : Type} (l : list A) : forall k i x,
  In (i, x) (combine (seq k (List.length l)) l) -> nth_error l (i - k) = Some x /\ (k <= i)%nat.
Proof.
  induction l as [|y l IH]; intros k i x; cbn [List.length seq combine In].
  - intros [].
  - intros [E|Hin].
    + injection E as <- <-. rewrite Nat.sub_diag. split; [reflexivity|lia].
    + destruct (IH _ _ _ Hin) as [Hn Hle].
      replace (i - k)%nat with (S (i - S k)) by lia. split; [exact Hn|lia].
Qed.

Lemma indexed_In {A : Type} (l : list A) (i : nat) (x : A) :
  In (i, x) (indexed l) -> nth_error l i = Some x.
Proof.
  intros Hin. apply indexed_nth in Hin. now rewrite Nat.sub_0_r in Hin.
Qed.

Lemma filter_snd {A : Type} (P : A -> bool) (l : list (nat * A)) :
  map snd (filter (fun iw => P (snd iw)) l) = filter P (map snd l).
Proof.
  induction l as [|iw l IH]; cbn [filter map]; [reflexivity|].
  destruct (P (snd iw)); cbn [map]; now rewrite IH.
Qed.

Lemma list_sum_filter_nonzero {A : Type} (f : A -> nat) (l : list A) :
  list_sum (map f (filter (fun x => negb (f x =? 0)%nat) l)) = list_sum (map f l).
Proof.
  induction l as [|x l IH]; cbn [filter map]; [reflexivity|].
  change (list_sum (f x :: map f l)) with (f x + list_sum (map f l))%nat.
  destruct (f x =? 0)%nat eqn:E; cbn [negb map].
  - apply Nat.eqb_eq in E. rewrite E, IH. reflexivity.
  - change (list_sum (f x :: ?L)) with (f x + list_sum L)%nat. now rewrite <- IH.
Qed.

Lemma filter_nonempty {A : Type} (P : A -> bool) (l : list A) :
  negb (List.length (filter P l) =? 0)%nat = existsb P l.
Proof.
  induction l as [|x l IH]; cbn [filter existsb]; [reflexivity|].
  destruct (P x); cbn [List.length Nat.eqb negb orb]; [reflexivity|exact IH].
Qed.

Lemma fold_count {A : Type} (f : A -> nat) (l : list A) : forall n,
  fold_left (fun n x => n + f x)%nat l n = (n + list_sum (map f l))%nat.
Proof.
  induction l as [|x l IH]; intros n; cbn [fold_left map].
  - cbn. lia.
  - rewrite IH. change (list_sum (f x :: map f l)) with (f x + list_sum (map f l))%nat. lia.
Qed.

(* ===================================================================== *)
(** ** What [createSession] builds *)
(* ===================================================================== *)

Section Building.
Context {H : Host}.

Lemma createSession_windows (ws : list Raw.window) (md : Meta.t) :
  windows (createSession ws md)
  = map (fun iw => (numbered "window_" (fst iw), built_window md (snd iw)))
        (filter kept (indexed ws)).
Proof.
  unfold createSession. cbn [windows].
  exact (fold_assign _ _ (numbered "window_")
           (fun iw => (List.length (valid_tabs (snd iw)) =? 0)%nat)
           (fun iw => built_window md (snd iw))
           (numbered_inj _) (indexed ws) [] (indexed_NoDup ws) (fun _ _ Hin => Hin)).
Qed.

Lemma count_tabs_sum (o : list (string * Window)) :
  count_tabs o = list_sum (map (fun kw => List.length (tabs (snd kw))) o).
Proof. unfold count_tabs. now rewrite fold_count. Qed.

Lemma built_window_length (md : Meta.t) (w : Raw.window) :
  List.length (tabs (built_window md w)) = List.length (valid_tabs w).
Proof. unfold built_window. cbn [tabs]. now rewrite length_map, indexed_length. Qed.

Lemma kept_windows_count (ws : list Raw.window) :
  List.length (filter kept (indexed ws))
  = List.length (filter (fun w => existsb (fun tab => isValidURL (Raw.url tab)) (Raw.tabs w)) ws).
Proof.
  set (P := fun w => existsb (fun tab => isValidURL (Raw.url tab)) (Raw.tabs w)).
  rewrite <- (length_map snd).
  rewrite (filter_ext kept (fun iw => P (snd iw))).
  - now rewrite (filter_snd P), indexed_snd.
  - intros iw. unfold kept, valid_tabs, P. apply filter_nonempty.
Qed.

Lemma createSession_tab_count (ws : list Raw.window) (md : Meta.t) :
  tab_count (metadata (createSession ws md))
  = list_sum (map (fun w => List.length (valid_tabs w)) ws).
Proof.
  change (tab_count (metadata (createSession ws md)))
    with (count_tabs (windows (createSession ws md))).
  rewrite count_tabs_sum, createSession_windows, map_map. cbn [snd].
  rewrite (map_ext _ (fun iw => List.length (valid_tabs (snd iw))))
    by (intros iw; apply built_window_length).
  unfold kept.
  rewrite (list_sum_filter_nonzero (fun iw : nat * Raw.window => List.length (valid_tabs (snd iw)))).
  rewrite <- (map_map snd (fun w => List.length (valid_tabs w))). now rewrite indexed_snd.
Qed.

Lemma createSession_omits (ws : list Raw.window) (md : Meta.t) (i : nat) (w : Raw.window) :
  nth_error ws i = Some w ->
  existsb (fun tab => isValidURL (Raw.url tab)) (Raw.tabs w) = false ->
  JSON.lookup ("window_" +++ decimal (i + 1)) (windows (createSession ws md)) = None.
Proof.
  intros Hi Hnone. apply lookup_fresh. rewrite createSession_windows.
  unfold JSON.keys. rewrite map_map. cbn [fst]. intros Hin.
  apply in_map_iff in Hin as [[j w'] [Hk Hin]]. cbn [fst] in Hk.
  apply numbered_inj in Hk. subst j.
  apply filter_In in Hin as [Hin Hkept]. apply indexed_In in Hin.
  rewrite Hi in Hin. injection Hin as <-.
  unfold kept, valid_tabs in Hkept. cbn [snd] in Hkept.
  rewrite filter_nonempty, Hnone in Hkept. discriminate.
Qed.

(** The counts in the metadata are the counts of the windows kept, and a
    window is kept exactly when one of its tabs has a valid URL. *)
Lemma full_counts (ws : list Raw.window) (md : Meta.t) :
  let s := createSession ws md in
  tab_count (metadata s) = list_sum (map (fun kw => List.length (tabs (snd kw))) (windows s))
  /\ window_count (metadata s) = List.length (windows s)
  /\ Forall (fun kw => tabs (snd kw) <> []) (windows s)
  /\ window_count (metadata s)
     = List.length (filter (fun w => existsb (fun tab => isValidURL (Raw.url tab)) (Raw.tabs w)) ws)
  /\ tab_count (metadata s)
     = list_sum (map (fun w => List.length (filter (fun tab => isValidURL (Raw.url tab)) (Raw.tabs w))) ws)
  /\ (forall i w,
        nth_error ws i = Some w ->
        existsb (fun tab => isValidURL (Raw.url tab)) (Raw.tabs w) = false ->
        JSON.lookup ("window_" +++ decimal (i + 1)) (windows s) = None).
Proof.
  cbv zeta. repeat split.
  - apply count_tabs_sum.
  - unfold createSession. cbn [metadata window_count windows]. unfold JSON.keys.
    apply length_map.
  - rewrite createSession_windows. apply Forall_map, Forall_forall.
    intros iw Hin. apply filter_In in Hin as [_ Hkept]. cbn [snd].
    intros Hnil. apply (f_equal (@List.length Tab)) in Hnil.
    rewrite built_window_length in Hnil. unfold kept in Hkept. rewrite Hnil in Hkept.
    discriminate.
  - change (window_count (metadata (createSession ws md)))
      with (List.length (JSON.keys (windows (createSession ws md)))).
    unfold JSON.keys. rewrite length_map, createSession_windows, length_map.
    apply kept_windows_count.
  - apply createSession_tab_count.
  - apply createSession_omits.
Qed.
End Building.

(* ===================================================================== *)
(** ** The redaction modes *)
(* ===================================================================== *)

Section Redaction.
Context {H : Host}.

Variables (name : option string) (tabCount windowCount : nat).

Lemma session_tab_redact (privacy secure : bool) (i : nat) (tab : Raw.tab) :
  session_tab (modes name tabCount windowCount privacy secure) i tab
  = redact_tab privacy secure (session_tab (modes name tabCount windowCount false false) i tab).
Proof. destruct privacy, secure; reflexivity. Qed.

Lemma createSession_redact (ws : list Raw.window) (privacy secure : bool) :
  windows (createSession ws (modes name tabCount windowCount privacy secure))
  = map (fun kw => (fst kw, redact_window privacy secure (snd kw)))
        (windows (createSession ws (modes name tabCount windowCount false false))).
Proof.
  rewrite !createSession_windows, map_map. apply map_ext. intros iw. cbn [fst snd].
  f_equal. unfold redact_window, built_window. cbn [active incognito tabs]. f_equal.
  rewrite map_map. apply map_ext. intros it. apply session_tab_redact.
Qed.

Lemma createSession_urls (ws : list Raw.window) (secure : bool) :
  map (fun kw => map url (tabs (snd kw))) (windows (createSession ws (modes name tabCount windowCount false secure)))
  = map (fun w => map Raw.url (filter (fun tab => isValidURL (Raw.url tab)) (Raw.tabs w)))
        (filter (fun w => existsb (fun tab => isValidURL (Raw.url tab)) (Raw.tabs w)) ws).
Proof.
  rewrite createSession_windows, map_map. cbn [snd].
  set (P := fun w => existsb (fun tab => isValidURL (Raw.url tab)) (Raw.tabs w)).
  rewrite <- (indexed_snd ws) at 2. rewrite <- (filter_snd P), map_map.
  rewrite (filter_ext kept (fun iw => P (snd iw)))
    by (intros iw; unfold kept, valid_tabs, P; apply filter_nonempty).
  apply map_ext. intros iw. unfold built_window. cbn [tabs].
  rewrite map_map. cbn [session_tab url Meta.privacyMode modes].
  rewrite <- (map_map snd Raw.url). now rewrite indexed_snd.
Qed.

(** C9: the modes change field contents only; secure mode hides every title
    and favicon and leaves every URL as the browser gave it. *)
Theorem redaction_keeps_structure (ws : list Raw.window) :
  (forall privacy secure,
      windows (createSession ws (modes name tabCount windowCount privacy secure))
      = map (fun kw => (fst kw, redact_window privacy secure (snd kw)))
            (windows (createSession ws (modes name tabCount windowCount false false)))
      /\ tab_count (metadata (createSession ws (modes name tabCount windowCount privacy secure)))
         = tab_count (metadata (createSession ws (modes name tabCount windowCount false false)))
      /\ window_count (metadata (createSession ws (modes name tabCount windowCount privacy secure)))
         = window_count (metadata (createSession ws (modes name tabCount windowCount false false))))
  /\ (forall privacy kw t,
        In kw (windows (createSession ws (modes name tabCount windowCount privacy true))) -> In t (tabs (snd kw)) ->
        title t = "[Secure - Hidden]" /\ favicon t = None)
  /\ (forall kw t,
        In kw (windows (createSession ws (modes name tabCount windowCount true false))) -> In t (tabs (snd kw)) ->
        title t = "[Private]" /\ favicon t = None)
  /\ (forall secure,
        map (fun kw => map url (tabs (snd kw))) (windows (createSession ws (modes name tabCount windowCount false secure)))
        = map (fun w => map Raw.url (filter (fun tab => isValidURL (Raw.url tab)) (Raw.tabs w)))
              (filter (fun w => existsb (fun tab => isValidURL (Raw.url tab)) (Raw.tabs w)) ws)).
Proof.
  split; [|split; [|split]].
  - intros privacy secure. split; [|split].
    + apply createSession_redact.
    + rewrite !createSession_tab_count. reflexivity.
    + change (List.length (JSON.keys (windows (createSession ws (modes name tabCount windowCount privacy secure))))
              = List.length (JSON.keys (windows (createSession ws (modes name tabCount windowCount false false))))).
      unfold JSON.keys. now rewrite createSession_redact, !length_map.
  - intros privacy kw t Hkw Ht. rewrite createSession_redact in Hkw.
    apply in_map_iff in Hkw as [kw' [<- _]].
    cbn [snd redact_window tabs] in Ht. apply in_map_iff in Ht as [t' [<- _]].
    split; reflexivity.
  - intros kw t Hkw Ht. rewrite createSession_redact in Hkw.
    apply in_map_iff in Hkw as [kw' [<- _]].
    cbn [snd redact_window tabs] in Ht. apply in_map_iff in Ht as [t' [<- _]].
    split; reflexivity.
  - apply createSession_urls.
Qed.
End Redaction.

(* ===================================================================== *)
(** ** The earlier [createSession] *)
(* ===================================================================== *)

Section LegacyBuilding.
Context {H : Host}.

Lemma legacy_windows (ws : list Raw.window) (md : Meta.t) :
  Legacy.windows (Legacy.createSession ws md)
  = map (fun iw => (numbered "window_" (fst iw), legacy_window md (snd iw)))
        (filter (fun iw => negb (List.length (legacy_valid (snd iw)) =? 0)%nat) (indexed ws)).
Proof.
  unfold Legacy.createSession. cbn [Legacy.windows].
  exact (fold_assign _ _ (numbered "window_")
           (fun iw => (List.length (legacy_valid (snd iw)) =? 0)%nat)
           (fun iw => legacy_window md (snd iw))
           (numbered_inj _) (indexed ws) [] (indexed_NoDup ws) (fun _ _ Hin => Hin)).
Qed.

Lemma legacy_omits (ws : list Raw.window) (md : Meta.t) (i : nat) (w : Raw.window) :
  nth_error ws i = Some w ->
  existsb (fun tab => Legacy.isValidURL (Raw.url tab)) (Raw.tabs w) = false ->
  JSON.lookup ("window_" +++ decimal (i + 1)) (Legacy.windows (Legacy.createSession ws md)) = None.
Proof.
  intros Hi Hnone. apply lookup_fresh. rewrite legacy_windows.
  unfold JSON.keys. rewrite map_map. cbn [fst]. intros Hin.
  apply in_map_iff in Hin as [[j w'] [Hk Hin]]. cbn [fst] in Hk.
  apply numbered_inj in Hk. subst j.
  apply filter_In in Hin as [Hin Hkept]. apply indexed_In in Hin.
  rewrite Hi in Hin. injection Hin as <-.
  unfold legacy_valid in Hkept. cbn [snd] in Hkept.
  rewrite filter_nonempty, Hnone in Hkept. discriminate.
Qed.

Lemma legacy_counts (ws : list Raw.window) (md : Meta.t) :
  let s := Legacy.createSession ws md in
  Legacy.tab_count (Legacy.metadata s)
  = list_sum (map (fun kw => List.length (Legacy.tabs (snd kw))) (Legacy.windows s))
  /\ Legacy.window_count (Legacy.metadata s) = List.length (Legacy.windows s)
  /\ Forall (fun kw => Legacy.tabs (snd kw) <> []) (Legacy.windows s)
  /\ Legacy.window_count (Legacy.metadata s)
     = List.length (filter (fun w => existsb (fun tab => Legacy.isValidURL (Raw.url tab)) (Raw.tabs w)) ws)
  /\ (forall i w,
        nth_error ws i = Some w ->
        existsb (fun tab => Legacy.isValidURL (Raw.url tab)) (Raw.tabs w) = false ->
        JSON.lookup ("window_" +++ decimal (i + 1)) (Legacy.windows s) = None).
Proof.
  cbv zeta. repeat split; [| | | |apply legacy_omits].
  - unfold Legacy.createSession. cbn [Legacy.metadata Legacy.tab_count Legacy.windows].
    unfold Legacy.count_tabs. now rewrite fold_count.
  - unfold Legacy.createSession. cbn [Legacy.metadata Legacy.window_count Legacy.windows].
    unfold JSON.keys. apply length_map.
  - rewrite legacy_windows. apply Forall_map, Forall_forall.
    intros iw Hin. apply filter_In in Hin as [_ Hkept]. cbn [snd].
    intros Hnil. apply (f_equal (@List.length Tab)) in Hnil.
    unfold legacy_window in Hnil. cbn [Legacy.tabs] in Hnil.
    rewrite length_map, indexed_length in Hnil. rewrite Hnil in Hkept. discriminate.
  - change (Legacy.window_count (Legacy.metadata (Legacy.createSession ws md)))
      with (List.length (JSON.keys (Legacy.windows (Legacy.createSession ws md)))).
    unfold JSON.keys. rewrite length_map, legacy_windows, length_map.
    set (P := fun w => existsb (fun tab => Legacy.isValidURL (Raw.url tab)) (Raw.tabs w)).
    rewrite <- (length_map snd).
    rewrite (filter_ext _ (fun iw => P (snd iw))).
    + now rewrite (filter_snd P), indexed_snd.
    + intros iw. unfold legacy_valid, P. apply filter_nonempty.
Qed.

(** C7: in both versions of [createSession] the counts in the metadata are
    the counts of the windows kept, every window kept has a tab, and a
    window is kept exactly when one of its tabs has a valid URL. *)
Theorem createSession_counts (ws : list Raw.window) (md : Meta.t) :
  (let s := createSession ws md in
   tab_count (metadata s) = list_sum (map (fun kw => List.length (tabs (snd kw))) (windows s))
   /\ window_count (metadata s) = List.length (windows s)
   /\ Forall (fun kw => tabs (snd kw) <> []) (windows s)
   /\ window_count (metadata s)
      = List.length (filter (fun w => existsb (fun tab => isValidURL (Raw.url tab)) (Raw.tabs w)) ws)
   /\ tab_count (metadata s)
      = list_sum (map (fun w => List.length (filter (fun tab => isValidURL (Raw.url tab)) (Raw.tabs w))) ws)
   /\ (forall i w,
         nth_error ws i = Some w ->
         existsb (fun tab => isValidURL (Raw.url tab)) (Raw.tabs w) = false ->
         JSON.lookup ("window_" +++ decimal (i + 1)) (windows s) = None))
  /\ (let s := Legacy.createSession ws md in
      Legacy.tab_count (Legacy.metadata s)
      = list_sum (map (fun kw => List.length (Legacy.tabs (snd kw))) (Legacy.windows s))
      /\ Legacy.window_count (Legacy.metadata s) = List.length (Legacy.windows s)
      /\ Forall (fun kw => Legacy.tabs (snd kw) <> []) (Legacy.windows s)
      /\ Legacy.window_count (Legacy.metadata s)
         = List.length (filter (fun w => existsb (fun tab => Legacy.isValidURL (Raw.url tab))
                                                (Raw.tabs w)) ws)
      /\ (forall i w,
            nth_error ws i = Some w ->
            existsb (fun tab => Legacy.isValidURL (Raw.url tab)) (Raw.tabs w) = false ->
            JSON.lookup ("window_" +++ decimal (i + 1)) (Legacy.windows s) = None)).
Proof.
  split; [apply full_counts|apply legacy_counts].
Qed.
End LegacyBuilding.

(* ===================================================================== *)
(** ** Import validates before it creates *)
(* ===================================================================== *)

Section Importing.
Context {H : Host}.

Lemma find_app {A : Type} (P : A -> bool) (a b : list A) :
  find P (a ++ b) = match find P a with Some x => Some x | None => find P b end.
Proof.
  induction a as [|x a IH]; cbn [app find]; [reflexivity|]. destruct (P x); auto.
Qed.

Lemma validate_tabs (ts : list Tab) (br : Browser) :
  for_each ts (fun tab : Tab =>
     if negb (isValidURL (url tab)) then throw ("Invalid URL detected: " +++ url tab)
     else ret tt) br
  = (validation (find invalid (map url ts)), br).
Proof.
  induction ts as [|t ts IH]; cbn [for_each map find]; [reflexivity|].
  unfold bind, invalid at 1. destruct (negb (isValidURL (url t))); [reflexivity|].
  unfold ret at 1. exact IH.
Qed.

Lemma validate_urls_run (session : Session) (br : Browser) :
  validate_urls session br = (validation (find invalid (all_urls session)), br).
Proof.
  unfold validate_urls, all_urls.
  induction (windows session) as [|kw ws IH]; cbn [for_each flat_map]; [reflexivity|].
  unfold bind. rewrite validate_tabs, find_app.
  destruct (find invalid (map url (tabs (snd kw)))); [reflexivity|exact IH].
Qed.

(** C10: when a tab of the session has an invalid URL, the import ends with
    the error naming the first such URL and the browser is as it was. *)
Theorem importSession_validates_first (options : Options.t) (session : Session) (br : Browser) :
  existsb invalid (all_urls session) = true ->
  exists u,
    find invalid (all_urls session) = Some u
    /\ In u (all_urls session)
    /\ isValidURL u = false
    /\ importSession options (Some session) br
       = (inr (ImportError ("Invalid URL detected: " +++ u)), br).
Proof.
  intros Hex. apply existsb_exists in Hex as [u0 [Hin0 Hu0]].
  destruct (find invalid (all_urls session)) as [u|] eqn:Hf.
  - exists u. destruct (find_some _ _ Hf) as [Hin Hu].
    repeat split; [exact Hin|now apply negb_true_iff in Hu|].
    unfold importSession, catch, bind. rewrite validate_urls_run, Hf. reflexivity.
  - pose proof (find_none _ _ Hf _ Hin0) as Hn. congruence.
Qed.

(** When every URL is valid the import goes on to create the windows. *)
Lemma importSession_valid (options : Options.t) (session : Session) (br : Browser) :
  existsb invalid (all_urls session) = false ->
  importSession options (Some session) br
  = catch (created <- fold_each (windows session) (0, 0)%nat
                        (create_window (Options.restoreIncognito options)) ;;
           ret (ImportOk ("Restored " +++ decimal (fst created) +++ " windows with "
                            +++ decimal (snd created) +++ " tabs")
                         (fst created) (snd created)))
          (fun error => ret (ImportError error)) br.
Proof.
  intros Hex. unfold importSession, catch, bind at 1. rewrite validate_urls_run.
  destruct (find invalid (all_urls session)) as [u|] eqn:Hf.
  - destruct (find_some _ _ Hf) as [Hin Hu].
    assert (existsb invalid (all_urls session) = true)
      by (apply existsb_exists; eauto).
    congruence.
  - reflexivity.
Qed.
End Importing.

(* ===================================================================== *)
(** ** Tabs selected from one window *)
(* ===================================================================== *)

Section Selecting.
Context {H : Host}.

Lemma push_tabs_same (w : nat) (items : list Selected.item) : forall ts,
  Forall (fun it => Selected.windowIndex it = w) items ->
  fold_left (fun tabsByWindow item =>
               push_tab (Selected.windowIndex item) (Selected.tab item) tabsByWindow)
            items [(w, ts)]
  = [(w, ts ++ map Selected.tab items)].
Proof.
  induction items as [|it items IH]; intros ts Hall; cbn [fold_left map].
  - now rewrite app_nil_r.
  - inversion Hall as [|? ? Hw Hrest]; subst.
    cbn [push_tab]. rewrite Nat.eqb_refl, IH by assumption. now rewrite <- app_assoc.
Qed.

Lemma group_by_window_same (w : nat) (items : list Selected.item) :
  items <> [] ->
  Forall (fun it => Selected.windowIndex it = w) items ->
  group_by_window items = [(w, map Selected.tab items)].
Proof.
  intros Hne Hall. destruct items as [|it items]; [congruence|].
  inversion Hall as [|? ? Hw Hrest]; subst.
  unfold group_by_window. cbn [fold_left push_tab]. now rewrite push_tabs_same.
Qed.

(** What the code does with a selection from one window: the tabs come out
    in the order of the selection. *)
Theorem selection_order_kept (items : list Selected.item) (w : nat) (md : Meta.t) :
  Forall (fun it => Selected.windowIndex it = w) items ->
  windows (createSessionFromSelectedTabs items md)
  = match filter (fun tab => isValidURL (Raw.url tab)) (map Selected.tab items) with
    | [] => []
    | validTabs =>
        [("window_1",
          {| active := true; incognito := false;
             tabs := map (fun it => selected_tab md (fst it) (snd it)) (indexed validTabs) |})]
    end.
Proof.
  intros Hall. destruct items as [|it items].
  - reflexivity.
  - unfold createSessionFromSelectedTabs. cbn [windows].
    rewrite (group_by_window_same w) by (assumption || discriminate).
    cbn [indexed List.length seq combine fold_left fst snd].
    destruct (filter _ (map Selected.tab (it :: items))) as [|t ts]; reflexivity.
Qed.

Lemma selected_windows (items : list Selected.item) (md : Meta.t) :
  windows (createSessionFromSelectedTabs items md)
  = map (fun ig => (numbered "window_" (fst ig), selected_window md (fst ig) (snd (snd ig))))
        (kept_groups items).
Proof.
  unfold createSessionFromSelectedTabs, kept_groups. cbn [windows].
  exact (fold_assign _ _ (numbered "window_")
           (fun ig => (List.length (filter (fun tab => isValidURL (Raw.url tab))
                                           (snd (snd ig))) =? 0)%nat)
           (fun ig => selected_window md (fst ig) (snd (snd ig)))
           (numbered_inj _) (indexed (group_by_window items)) []
           (indexed_NoDup _) (fun _ _ Hin => Hin)).
Qed.

Lemma selected_tab_ids (md : Meta.t) (l : list Raw.tab) :
  map id (map (fun it => selected_tab md (fst it) (snd it)) (indexed l))
  = map (numbered "tab_") (seq 0 (List.length l)).
Proof.
  rewrite map_map. cbn [selected_tab id].
  rewrite <- (indexed_fst l), map_map. reflexivity.
Qed.

(** X5: what holds of every reduction to selected tabs: every window kept has a
    tab and is not incognito, its tabs are numbered from 1 in order, it is
    active exactly when its key is [window_1], and the counts of the metadata
    are those of the windows kept. *)
Theorem selection_windows_shape (items : list Selected.item) (md : Meta.t) :
  let s := createSessionFromSelectedTabs items md in
  Forall (fun kw =>
            incognito (snd kw) = false
            /\ tabs (snd kw) <> []
            /\ map id (tabs (snd kw))
               = map (numbered "tab_") (seq 0 (List.length (tabs (snd kw))))
            /\ active (snd kw) = String.eqb (fst kw) "window_1")
         (windows s)
  /\ tab_count (metadata s) = list_sum (map (fun kw => List.length (tabs (snd kw))) (windows s))
  /\ window_count (metadata s) = List.length (windows s).
Proof.
  cbv zeta. split; [|split].
  - rewrite selected_windows. apply Forall_map, Forall_forall.
    intros [idx [w group]] Hin. apply filter_In in Hin as [_ Hkept].
    cbn [fst snd] in *. unfold selected_window. cbn [incognito tabs active].
    repeat split.
    + intros Hnil. apply (f_equal (@List.length Tab)) in Hnil.
      rewrite length_map, indexed_length in Hnil. rewrite Hnil in Hkept. discriminate.
    + rewrite selected_tab_ids. now rewrite length_map, indexed_length.
    + destruct idx as [|idx]; [reflexivity|]. cbn [Nat.eqb]. symmetry.
      apply String.eqb_neq. intros E.
      change "window_1" with (numbered "window_" 0) in E.
      apply numbered_inj in E. discriminate.
  - apply count_tabs_sum.
  - unfold createSessionFromSelectedTabs. cbn [metadata window_count windows].
    unfold JSON.keys. apply length_map.
Qed.
End Selecting.

(* ===================================================================== *)
(** ** The claims on sealing *)
(* ===================================================================== *)

Section SealClaims.
Context {H : Host}.


(** C1, as the code has it: a wrapper [seal] produces under [p1] is
    [wrapper_of p1 salt iv c] for the cipher text [c] it encrypted; and such
    a wrapper, whatever its cipher text, is refused with the wrong-password
    error when [p2] is empty or when its tag over the stored cipher text
    differs from the tag of [p1].  The only calls made are those that
    compute the tag. *)
Theorem wrong_tag_is_refused (sessionData : Session) (p1 p2 : string) (salt iv : bytes)
    (log : Log) :
  (forall wrapper log1,
      seal sessionData p1 salt iv log = (inr wrapper, log1) ->
      exists c,
        GCM.encrypt (PBKDF2.derive (encode p1) salt iterations) iv
          (encode (stringify (session_json sessionData))) = Some c
        /\ wrapper = wrapper_of p1 salt iv c)
  /\ (forall (c : bytes) (log2 : Log),
        p2 = "" \/ HMAC.hmac (encode p2) (encode (Base64.btoa_bytes c))
                   <> HMAC.hmac (encode p1) (encode (Base64.btoa_bytes c)) ->
        decryptSession (password_option p2) (wrapper_of p1 salt iv c) log2
        = (inr (DecryptError "Invalid password or corrupted file"),
           log2 ++ verify_calls p2)).
Proof.
  split.
  - intros wrapper log1 Hs. apply seal_inv in Hs as [c [_ [Hc [-> _]]]]. exists c. auto.
  - intros c log2 Hp2. apply decryptSession_refuses; [reflexivity|].
    cbn [password_option Options.password text_of wrapper_of Sealed.data Sealed.signature].
    destruct Hp2 as [->|Hne]; [reflexivity|].
    apply andb_false_iff. right. apply String.eqb_neq. unfold tag_of.
    intros Heq. apply hex_inj in Heq. contradiction.
Qed.

(** A password of fewer than 64 bytes followed by U+0000 opens what the
    password sealed. *)
Lemma nul_suffix_accepted (sessionData : Session) (password : string) (salt iv c : bytes)
    (log : Log) :
  password <> "" ->
  (String.length password < 64)%nat ->
  GCM.encrypt (PBKDF2.derive (encode password) salt iterations) iv
    (encode (stringify (session_json sessionData))) = Some c ->
  decryptSession (password_option (password +++ String zero "")) (wrapper_of password salt iv c) log
  = (inr (decrypt_response (JSON_parse (stringify (session_json sessionData)))),
     log ++ [ImportKey "HMAC"; Sign] ++ decrypt_calls).
Proof.
  intros Hp Hlen Hc.
  pose proof (encode_nul password) as Henc.
  assert (Hl : (List.length (encode password) < 64)%nat) by now rewrite encode_length.
  apply (decryptSession_accepts sessionData password (password +++ String zero "") salt iv c
           (password_option (password +++ String zero "")) log eq_refl).
  - destruct password; [congruence|discriminate].
  - unfold tag_of. now rewrite Henc, hmac_nul.
  - now rewrite Henc, derive_nul.
  - exact Hc.
Qed.
End SealClaims.

Section SealFacts.
Context {H : Host}.

(** X1: an array within the number of arguments the engine takes in one call
    is turned into base64 text by [btoa(String.fromCharCode(...array))], and
    [Uint8Array.from(atob(text), c => c.charCodeAt(0))] reads the array back
    from that text; a longer array makes the call throw the engine's
    [RangeError]. *)
Theorem base64_roundtrip (array : bytes) (log : Log) :
  (fits (List.length array) ->
   exists text,
     btoa_spread array log = (inr text, log)
     /\ forall log2, atob_or_throw text log2 = (inr array, log2))
  /\ (~ fits (List.length array) -> btoa_spread array log = (inl range_error, log)).
Proof.
  split.
  - intros Hf. exists (Base64.btoa_bytes array). split; [now apply btoa_spread_run|].
    intros log2. unfold atob_or_throw. now rewrite atob_btoa.
  - apply btoa_spread_throws.
Qed.

(** X2: when the nonce is not empty and the cipher text, the salt and the
    nonce are each within the number of arguments the engine takes in one
    call, [encryptData] returns, and [decryptData] gives back the text it
    encrypted under the same password, as [TextDecoder] reads it: without a
    leading byte order mark. *)
Theorem encryptData_decryptData (data password : string) (salt iv : bytes) (log : Log) :
  iv <> [] ->
  fits (List.length (encode data) + 16) ->
  fits (List.length salt) ->
  fits (List.length iv) ->
  exists e log1,
    encryptData data password salt iv log = (inr e, log1)
    /\ forall log2,
        decryptData (enc_encrypted e) (enc_salt e) (enc_iv e) password log2
        = (inr (decode (encode data)), log2 ++ decrypt_calls).
Proof.
  intros Hiv Fd Fs Fi.
  destruct (cipher_fits (PBKDF2.derive (encode password) salt iterations) iv
              (encode data) Hiv Fd) as [c [Hc Fc]].
  eexists. eexists. split.
  - apply (encryptData_run _ _ _ _ c _ Hc Fc Fs Fi).
  - intros log2. cbn [enc_encrypted enc_salt enc_iv].
    apply (decryptData_run _ _ _ _ _ _ _ eq_refl Hc).
Qed.

(** X3: a wrapper whose [signature] is not the tag of its [data] under the
    password is refused before anything is decrypted. *)
Theorem changed_signature_is_refused (wrapper : Sealed.file) (p signature : string) (log : Log) :
  Sealed.encrypted wrapper = true ->
  signature <> tag_of (Sealed.data wrapper) p ->
  decryptSession (password_option p) (resigned signature wrapper) log
  = (inr (DecryptError "Invalid password or corrupted file"), log ++ verify_calls p).
Proof.
  intros He Hs. apply decryptSession_refuses; [exact He|].
  cbn [password_option Options.password text_of resigned Sealed.data Sealed.signature].
  apply andb_false_iff. right. apply String.eqb_neq. congruence.
Qed.

(** X4: a password of fewer than 64 bytes and the same password followed by
    U+0000 sign alike. *)
Theorem generateHMAC_nul_suffix (data key : string) (log : Log) :
  key <> "" ->
  (String.length key < 64)%nat ->
  generateHMAC data (key +++ String zero "") log = generateHMAC data key log.
Proof.
  intros Hk Hlen.
  rewrite !generateHMAC_run; [|exact Hk|destruct key; [congruence|discriminate]].
  unfold tag_of. rewrite encode_nul, hmac_nul; [reflexivity|now rewrite encode_length].
Qed.
End SealFacts.

Section SealedFile.
Context {H : Host}.

Lemma downloadSession_sealed (sessionData : Session) (filename : string) (options : Options.t)
    (p : string) (salt iv c : bytes) (log : Log) :
  Options.secureMode options = true ->
  Options.password options = Some p ->
  p <> "" ->
  GCM.encrypt (PBKDF2.derive (encode p) salt iterations) iv
    (encode (stringify (session_json sessionData))) = Some c ->
  fits (List.length c) -> fits (List.length salt) -> fits (List.length iv) ->
  downloadSession sessionData filename options salt iv log
  = (inr tt,
     log ++ encrypt_calls
       ++ [ImportKey "HMAC"; Sign;
           Download filename (stringify (sealed_json (wrapper_of p salt iv c)))]).
Proof.
  intros Hs Hpw Hp Hc Fc Fs Fi. unfold downloadSession, bind at 1. rewrite Hs, Hpw.
  destruct p as [|a p']; [congruence|]. cbn [truthy String.eqb negb andb text_of].
  unfold bind at 1. rewrite (seal_run _ _ _ _ c _ Hp Hc Fc Fs Fi).
  unfold ret, call. cbn beta iota. now rewrite <- !app_assoc.
Qed.

(** What a [downloadSession] that sealed and returned has done. *)
Lemma downloadSession_sealed_inv (sessionData : Session) (filename : string)
    (options : Options.t) (p : string) (salt iv : bytes) (log log1 : Log) :
  Options.secureMode options = true ->
  Options.password options = Some p ->
  p <> "" ->
  downloadSession sessionData filename options salt iv log = (inr tt, log1) ->
  exists c,
    GCM.encrypt (PBKDF2.derive (encode p) salt iterations) iv
      (encode (stringify (session_json sessionData))) = Some c
    /\ log1 = log ++ encrypt_calls
                ++ [ImportKey "HMAC"; Sign;
                    Download filename (stringify (sealed_json (wrapper_of p salt iv c)))].
Proof.
  intros Hs Hpw Hp Hd. unfold downloadSession, bind at 1 in Hd. rewrite Hs, Hpw in Hd.
  destruct p as [|a p']; [congruence|]. cbn [truthy String.eqb negb andb text_of] in Hd.
  unfold bind at 1 in Hd.
  destruct (seal sessionData (String a p') salt iv log) as [[e|wrapper] l1] eqn:Hseal;
    [discriminate|].
  apply seal_inv in Hseal as [c [_ [Hc [-> ->]]]]. exists c. split; [exact Hc|].
  unfold ret, call in Hd. injection Hd as <-. now rewrite <- !app_assoc.
Qed.

(** C6, as the code has it: whenever a sealed file is written, it is the
    object of the eight fields below, with [format] set to [sportab]; what is
    encrypted is the JSON text of the session, which has no [signature] of
    its own. *)
Theorem sealed_file_fields (sessionData : Session) (filename : string) (options : Options.t)
    (p : string) (salt iv : bytes) (log log1 : Log) :
  Options.secureMode options = true ->
  Options.password options = Some p ->
  p <> "" ->
  downloadSession sessionData filename options salt iv log = (inr tt, log1) ->
  exists c,
    GCM.encrypt (PBKDF2.derive (encode p) salt iterations) iv
      (encode (stringify (session_json sessionData))) = Some c
    /\ log1
       = log ++ encrypt_calls
           ++ [ImportKey "HMAC"; Sign;
               Download filename
                 (stringify
                    (JObject
                       [("version", JString "1.0"); ("format", JString "sportab");
                        ("encrypted", JBool true); ("algorithm", JString "AES-GCM");
                        ("salt", JString (Base64.btoa_bytes salt));
                        ("iv", JString (Base64.btoa_bytes iv));
                        ("data", JString (Base64.btoa_bytes c));
                        ("signature",
                         JString (hex (HMAC.hmac (encode p) (encode (Base64.btoa_bytes c)))))]))]
    /\ (forall ws md, JSON.lookup "signature" (session_fields (createSession ws md)) = None)
    /\ (forall items md,
          JSON.lookup "signature" (session_fields (createSessionFromSelectedTabs items md)) = None).
Proof.
  intros Hs Hpw Hp Hd.
  destruct (downloadSession_sealed_inv sessionData filename options p salt iv log log1
              Hs Hpw Hp Hd) as [c [Hc ->]].
  exists c. repeat split. exact Hc.
Qed.
End SealedFile.

Lemma example_iv : Sample.iv <> [].
Proof. vm_compute. discriminate. Qed.

Lemma example_password : Sample.password <> "".
Proof. discriminate. Qed.

Lemma example_text_fits :
  fits (H := Reference.host)
    (List.length (encode (stringify (session_json Sample.session))) + 16).
Proof. unfold fits. apply N.leb_le. vm_compute. reflexivity. Qed.

Lemma example_salt_fits : fits (H := Reference.host) (List.length Sample.salt).
Proof. unfold fits. apply N.leb_le. vm_compute. reflexivity. Qed.

Lemma example_iv_fits : fits (H := Reference.host) (List.length Sample.iv).
Proof. unfold fits. apply N.leb_le. vm_compute. reflexivity. Qed.

(** The example session is sealed and written. *)
Lemma example_sealed :
  exists c,
    GCM.encrypt (PBKDF2.derive (encode Sample.password) Sample.salt iterations) Sample.iv
      (encode (stringify (session_json Sample.session))) = Some c
    /\ seal (H := Reference.host) Sample.session Sample.password Sample.salt Sample.iv []
       = (inr (wrapper_of Sample.password Sample.salt Sample.iv c),
          encrypt_calls ++ [ImportKey "HMAC"; Sign])
    /\ downloadSession (H := Reference.host) Sample.session "session.sportab"
         (Sample.secure Sample.password) Sample.salt Sample.iv []
       = (inr tt,
          encrypt_calls
            ++ [ImportKey "HMAC"; Sign;
                Download "session.sportab"
                  (stringify
                     (sealed_json (wrapper_of Sample.password Sample.salt Sample.iv c)))]).
Proof.
  destruct (cipher_fits (H := Reference.host)
              (PBKDF2.derive (encode Sample.password) Sample.salt iterations)
              Sample.iv (encode (stringify (session_json Sample.session)))
              example_iv example_text_fits) as [c [Hc Fc]].
  exists c. split; [exact Hc|]. split.
  - exact (seal_run (H := Reference.host) Sample.session Sample.password Sample.salt
             Sample.iv c [] example_password Hc Fc example_salt_fits example_iv_fits).
  - exact (downloadSession_sealed (H := Reference.host) Sample.session "session.sportab"
             (Sample.secure Sample.password) Sample.password Sample.salt Sample.iv c []
             eq_refl eq_refl example_password Hc Fc example_salt_fits example_iv_fits).
Qed.

Lemma sealed_file_fields_witness :
  exists c log1,
    downloadSession (H := Reference.host) Sample.session "session.sportab"
      (Sample.secure Sample.password) Sample.salt Sample.iv [] = (inr tt, log1)
    /\ GCM.encrypt (PBKDF2.derive (encode Sample.password) Sample.salt iterations) Sample.iv
         (encode (stringify (session_json Sample.session))) = Some c
    /\ JSON.lookup "signature" (session_fields Sample.session) = None.
Proof.
  destruct example_sealed as [c0 [_ [_ Hd]]].
  destruct (sealed_file_fields (H := Reference.host) Sample.session "session.sportab"
              (Sample.secure Sample.password) Sample.password Sample.salt Sample.iv [] _
              eq_refl eq_refl example_password Hd) as [c [Hc [_ [Hb _]]]].
  exists c. eexists. split; [exact Hd|]. split; [exact Hc|].
  apply (Hb [Sample.scenario] Sample.no_modes).
Defined.

(** The [format] field of a sealed file is [sportab]. *)
Lemma sealed_format_is_sportab :
  exists c log1,
    downloadSession (H := Reference.host) Sample.session "session.sportab"
      (Sample.secure Sample.password) Sample.salt Sample.iv [] = (inr tt, log1)
    /\ In (Download "session.sportab"
             (stringify (sealed_json (wrapper_of Sample.password Sample.salt Sample.iv c)))) log1
    /\ Sealed.format (wrapper_of Sample.password Sample.salt Sample.iv c) = "sportab"
    /\ String.eqb "sportab" "secure" = false.
Proof.
  destruct example_sealed as [c [_ [_ Hd]]].
  exists c. eexists. split; [exact Hd|].
  split; [|split; reflexivity].
  apply in_or_app. right. cbn [In]. auto.
Qed.


Lemma wrong_tag_is_refused_witness :
  decryptSession (H := Reference.host) (password_option "wrong-password")
    (wrapper_of Sample.password Sample.salt Sample.iv (encode "0123456789abcdef")) []
  = (inr (DecryptError "Invalid password or corrupted file"), [ImportKey "HMAC"; Sign]).
Proof.
  destruct (wrong_tag_is_refused (H := Reference.host) Sample.session Sample.password
              "wrong-password" Sample.salt Sample.iv []) as [_ Hrefused].
  apply (Hrefused (encode "0123456789abcdef") []).
  right. vm_compute. discriminate.
Defined.

(** The password followed by U+0000 is another password, and it opens the
    file. *)
Lemma nul_suffixed_password_opens :
  exists wrapper log1,
    seal (H := Reference.host) Sample.session Sample.password Sample.salt Sample.iv []
    = (inr wrapper, log1)
    /\ String.eqb Sample.nul_suffixed Sample.password = false
    /\ decryptSession (H := Reference.host) (password_option Sample.nul_suffixed) wrapper []
       = (inr (DecryptOk (session_json Sample.session)),
          [ImportKey "HMAC"; Sign; ImportKey "PBKDF2"; DeriveKey; Decrypt]).
Proof.
  destruct example_sealed as [c [Hc [Hs _]]].
  exists (wrapper_of Sample.password Sample.salt Sample.iv c). eexists. split.
  - exact Hs.
  - split; [reflexivity|].
    unfold Sample.nul_suffixed.
    rewrite (nul_suffix_accepted (H := Reference.host) Sample.session Sample.password
               Sample.salt Sample.iv c [] example_password).
    + change (JSON_parse (stringify (session_json Sample.session)))
        with (Reference.json_parse (stringify (session_json Sample.session))).
      rewrite stringify_sample. reflexivity.
    + vm_compute. lia.
    + exact Hc.
Qed.

(** The spec's wrong password, on a hand-made wrapper: the tag is compared
    and nothing is decrypted. *)
Example wrong_password_example :
  decryptSession (H := Reference.host) (password_option "wrong-password")
    Sample.handmade []
  = (inr (DecryptError "Invalid password or corrupted file"), [ImportKey "HMAC"; Sign]).
Proof. vm_compute. reflexivity. Qed.

Lemma encryptData_decryptData_witness :
  exists e log1,
    encryptData (H := Reference.host) "{}" Sample.password Sample.salt Sample.iv []
    = (inr e, log1)
    /\ decryptData (enc_encrypted e) (enc_salt e) (enc_iv e) Sample.password []
       = (inr "{}", decrypt_calls).
Proof.
  assert (Ft : fits (H := Reference.host) (List.length (encode "{}") + 16))
    by (unfold fits; apply N.leb_le; vm_compute; reflexivity).
  destruct (encryptData_decryptData (H := Reference.host) "{}" Sample.password Sample.salt
              Sample.iv [] example_iv Ft example_salt_fits example_iv_fits)
    as [e [log1 [He Hd]]].
  exists e, log1. split; [exact He|]. exact (Hd []).
Defined.

Lemma changed_signature_is_refused_witness :
  decryptSession (H := Reference.host) (password_option Sample.password)
    (resigned "00" Sample.handmade) []
  = (inr (DecryptError "Invalid password or corrupted file"), [ImportKey "HMAC"; Sign]).
Proof.
  apply (changed_signature_is_refused (H := Reference.host) Sample.handmade Sample.password
           "00" [] eq_refl).
  vm_compute. discriminate.
Defined.

Lemma generateHMAC_nul_suffix_witness :
  generateHMAC "AAAA" Sample.nul_suffixed [] = generateHMAC "AAAA" Sample.password [].
Proof.
  apply (generateHMAC_nul_suffix "AAAA" Sample.password []); [discriminate|vm_compute; lia].
Defined.

(* ===================================================================== *)
(** ** The scripts on the examples *)
(* ===================================================================== *)

(** C2, on the code: the import of a plain file never looks at [signature];
    a file whose [signature] is not the digest of its content is restored. *)
Theorem tampered_plain_file_is_imported :
  (forall (H : Host) options session signature br,
      importSession options (Some (with_signature signature session)) br
      = importSession options (Some session) br)
  /\ (exists digest,
        fst (generateHash (stringify (session_json Sample.session)) []) = inr digest
        /\ signature Sample.tampered = Some Sample.wrong_digest
        /\ String.eqb digest Sample.wrong_digest = false)
  /\ fst (ImportPage.handleImport_all (H := Reference.host) false
            (ImportPage.processSession (ImportPage.PlainFile Sample.tampered) Sample.fresh_page)
            Sample.empty_browser)
     = inr (ImportOk "Restored 1 windows with 2 tabs" 1 2).
Proof.
  split; [reflexivity|]. split.
  - eexists. split; [vm_compute; reflexivity|]. split; vm_compute; reflexivity.
  - vm_compute. reflexivity.
Qed.

(** C3, on the code: of the tabs A, B and C of a window, C ticked before A
    comes out before A; the popup sends each [tabIndex], and
    [createSessionFromSelectedTabs] does not read it. *)
Lemma click_order_decides :
  exists options items,
    Popup.handleExportSelectedConfirm (Some Sample.plain) Sample.clicked_c_then_a
    = Popup.SendExportSelected options items
    /\ map Raw.url (Raw.tabs Sample.abc)
       = ["https://a.example"; "https://b.example"; "https://c.example"]
    /\ map (fun kw => map url (tabs (snd kw)))
           (windows (createSessionFromSelectedTabs (H := Reference.host) items Sample.no_modes))
       = [["https://c.example"; "https://a.example"]].
Proof.
  eexists. eexists. split; [vm_compute; reflexivity|]. split; vm_compute; reflexivity.
Qed.

Lemma selection_order_kept_witness :
  windows (createSessionFromSelectedTabs (H := Reference.host) Sample.c_then_a Sample.no_modes)
  = [("window_1",
      {| active := true; incognito := false;
         tabs := [ {| id := "tab_1"; url := "https://c.example"; title := "Example";
                      pinned := false; group_id := None; favicon := None |};
                   {| id := "tab_2"; url := "https://a.example"; title := "Example";
                      pinned := false; group_id := None; favicon := None |} ] |})].
Proof.
  rewrite (selection_order_kept (H := Reference.host) _ 0 Sample.no_modes)
    by (repeat constructor).
  vm_compute. reflexivity.
Defined.

(** C4, on the code: the scenario gives two tabs with the full
    [background.js] and three with the earlier one, whose [isValidURL] lets
    [javascript:] pass. *)
Theorem scenario_in_both_builders :
  let s := createSession (H := Reference.host) [Sample.scenario] Sample.no_modes in
  let l := Legacy.createSession (H := Reference.host) [Sample.scenario] Sample.no_modes in
  (map (fun kw => map url (tabs (snd kw))) (windows s)
   = [["https://a.example"; "https://b.example"]]
   /\ map (fun kw => map pinned (tabs (snd kw))) (windows s) = [[true; false]]
   /\ tab_count (metadata s) = 2%nat
   /\ window_count (metadata s) = 1%nat)
  /\ (Legacy.isValidURL (H := Reference.host) "javascript:alert(1)" = true
      /\ isValidURL (H := Reference.host) "javascript:alert(1)" = false
      /\ map (fun kw => map url (Legacy.tabs (snd kw))) (Legacy.windows l)
         = [["https://a.example"; "javascript:alert(1)"; "https://b.example"]]
      /\ Legacy.tab_count (Legacy.metadata l) = 3%nat).
Proof. vm_compute. repeat split. Qed.

(** C8, on the code: when the tabs selected from the first window are all
    invalid, the window that is left is numbered 2 and is not active. *)
Theorem first_group_dropped :
  let s := createSessionFromSelectedTabs (H := Reference.host)
             Sample.mixed_selection Sample.no_modes in
  JSON.keys (windows s) = ["window_2"]
  /\ map (fun kw => active (snd kw)) (windows s) = [false]
  /\ map (fun kw => incognito (snd kw)) (windows s) = [false]
  /\ map (fun kw => map id (tabs (snd kw))) (windows s) = [["tab_1"]]
  /\ tab_count (metadata s) = 1%nat
  /\ window_count (metadata s) = 1%nat.
Proof. vm_compute. repeat split. Qed.

Lemma importSession_validates_first_witness :
  importSession (H := Reference.host) Sample.plain (Some Sample.hostile) Sample.empty_browser
  = (inr (ImportError "Invalid URL detected: javascript:alert(1)"), Sample.empty_browser).
Proof.
  destruct (importSession_validates_first (H := Reference.host) Sample.plain Sample.hostile
              Sample.empty_browser eq_refl) as [u [Hf [_ [_ Hi]]]].
  vm_compute in Hf. injection Hf as <-. exact Hi.
Defined.

(* ===================================================================== *)
(** ** The export handlers *)
(* ===================================================================== *)

Lemma filter_filter_and {A : Type} (f g : A -> bool) (l : list A) :
  filter f (filter g l) = filter (fun x => g x && f x) l.
Proof.
  induction l as [|x l IH]; cbn [filter]; [reflexivity|].
  destruct (g x); cbn [filter andb]; [destruct (f x)|]; now rewrite IH.
Qed.

Lemma length_zero_existsb {A : Type} (P : A -> bool) (l : list A) :
  (List.length (filter P l) =? 0)%nat = negb (existsb P l).
Proof. rewrite <- filter_nonempty. now rewrite negb_involutive. Qed.

Section HandlerFacts.
Context {H : Host}.

(** The file of an export that does not encrypt: the JSON text of the
    session with the SHA-256 of its text without [signature] as
    [signature]. *)
Lemma downloadSession_plain (sessionData : Session) (filename : string)
    (options : Options.t) (salt iv : bytes) (log : Log) :
  Options.secureMode options && truthy (Options.password options) = false ->
  downloadSession sessionData filename options salt iv log
  = (inr tt,
     log ++ [Digest;
             Download filename
               (stringify
                  (session_json
                     (with_signature
                        (Some (hex (SHA256.sha256 (encode (stringify (session_json sessionData))))))
                        sessionData)))]).
Proof.
  intros E. unfold downloadSession. rewrite E.
  cbv [bind generateHash call ret]. now rewrite <- app_assoc.
Qed.

Lemma createSession_one (w : Raw.window) (md : Meta.t) :
  tab_count (metadata (createSession [w] md))
  = List.length (filter (fun tab => isValidURL (Raw.url tab)) (Raw.tabs w)).
Proof.
  rewrite createSession_tab_count. cbn [map list_sum fold_right]. unfold valid_tabs. lia.
Qed.

(** X9: in an export that does not encrypt, [exportCurrentWindow] refuses a
    window without tabs and nothing else; the count it reports is that of the
    tabs with a valid URL. *)
Theorem exportCurrentWindow_reports (options : Options.t) (currentWindow : Raw.window)
    (salt iv : bytes) (log : Log) :
  Options.secureMode options && truthy (Options.password options) = false ->
  fst (exportCurrentWindow options currentWindow salt iv log)
  = inr (match Raw.tabs currentWindow with
         | [] => ExportError "No tabs found in current window"
         | _ =>
             let n := List.length (filter (fun tab => isValidURL (Raw.url tab))
                                          (Raw.tabs currentWindow)) in
             ExportOk ("Exported " +++ decimal n +++ " tabs successfully!") n
                      ("session_current_" +++ getTimestamp +++ "."
                         +++ (if Options.secureMode options then "sportab" else "portab"))
         end).
Proof.
  intros Hplain. unfold exportCurrentWindow, catch.
  destruct (Raw.tabs currentWindow) as [|t ts] eqn:Ht; [reflexivity|].
  cbn [List.length Nat.eqb]. unfold bind.
  rewrite downloadSession_plain by exact Hplain.
  unfold ret. cbn [fst]. rewrite createSession_one, Ht. reflexivity.
Qed.

(** X10: in an export that does not encrypt, [exportAllWindows] ends well
    whenever there is a window, also when no tab has a valid URL; it reports
    the windows that have a valid tab and the tabs that are valid. *)
Theorem exportAllWindows_reports (options : Options.t) (allWindows : list Raw.window)
    (salt iv : bytes) (log : Log) :
  allWindows <> [] ->
  Options.secureMode options && truthy (Options.password options) = false ->
  let w := List.length (filter (fun win => existsb (fun tab => isValidURL (Raw.url tab))
                                                   (Raw.tabs win)) allWindows) in
  let n := list_sum (map (fun win => List.length (filter (fun tab => isValidURL (Raw.url tab))
                                                         (Raw.tabs win))) allWindows) in
  fst (exportAllWindows options allWindows salt iv log)
  = inr (ExportAllOk ("Exported " +++ decimal w +++ " windows (" +++ decimal n +++ " tabs)!")
                     w n
                     ("session_all_" +++ getTimestamp +++ "."
                        +++ (if Options.secureMode options then "sportab" else "portab"))).
Proof.
  intros Hws Hplain. cbv zeta. unfold exportAllWindows, catch.
  destruct allWindows as [|w0 ws]; [congruence|].
  cbn [List.length Nat.eqb]. unfold bind.
  rewrite downloadSession_plain by exact Hplain.
  unfold ret. cbn [fst].
  match goal with
  | |- context [createSession ?l ?m] =>
      destruct (full_counts l m) as [_ [_ [_ [-> [-> _]]]]]
  end.
  reflexivity.
Qed.

Lemma pinned_windows_none (allWindows : list Raw.window) :
  (List.length (filter (fun win => (0 <? List.length (Raw.tabs win))%nat)
                       (map pinned_of allWindows)) =? 0)%nat
  = negb (existsb (fun win => existsb Raw.pinned (Raw.tabs win)) allWindows).
Proof.
  rewrite length_zero_existsb. f_equal.
  induction allWindows as [|win ws IH]; cbn [map existsb]; [reflexivity|].
  rewrite IH. f_equal. unfold pinned_of. cbn [Raw.tabs].
  rewrite <- (filter_nonempty Raw.pinned). now destruct (List.length _).
Qed.

Lemma pinned_windows_valid (allWindows : list Raw.window) :
  list_sum (map (fun win => List.length (filter (fun tab => isValidURL (Raw.url tab))
                                                (Raw.tabs win)))
                (filter (fun win => (0 <? List.length (Raw.tabs win))%nat)
                        (map pinned_of allWindows)))
  = list_sum (map (fun win => List.length
                                (filter (fun tab => Raw.pinned tab && isValidURL (Raw.url tab))
                                        (Raw.tabs win))) allWindows).
Proof.
  induction allWindows as [|win ws IH]; [reflexivity|].
  cbn [map filter]. unfold pinned_of at 1. cbn [Raw.tabs].
  change (list_sum (?x :: ?l)) with (x + list_sum l)%nat.
  rewrite <- IH, <- filter_filter_and.
  destruct (filter Raw.pinned (Raw.tabs win)) as [|t ts] eqn:E; cbn [List.length Nat.ltb Nat.leb].
  - reflexivity.
  - cbn [map]. change (list_sum (?x :: ?l)) with (x + list_sum l)%nat.
    unfold pinned_of at 1. cbn [Raw.tabs]. now rewrite E.
Qed.

(** X11: in an export that does not encrypt, [exportPinnedTabs] answers with
    an error exactly when no tab is pinned; otherwise it reports the tabs that
    are pinned and valid, and every tab of the session it hands to
    [downloadSession] is pinned. *)
Theorem exportPinnedTabs_reports (options : Options.t) (allWindows : list Raw.window)
    (salt iv : bytes) (log : Log) :
  Options.secureMode options && truthy (Options.password options) = false ->
  let n := list_sum (map (fun win => List.length
                                       (filter (fun tab => Raw.pinned tab
                                                           && isValidURL (Raw.url tab))
                                               (Raw.tabs win))) allWindows) in
  fst (exportPinnedTabs options allWindows salt iv log)
  = inr (if existsb (fun win => existsb Raw.pinned (Raw.tabs win)) allWindows
         then ExportOk ("Exported " +++ decimal n +++ " pinned tabs!") n
                       ("session_pinned_" +++ getTimestamp +++ "."
                          +++ (if Options.secureMode options then "sportab" else "portab"))
         else ExportError "No pinned tabs found")
  /\ forall md kw t,
       In kw (windows (createSession
                         (filter (fun win => (0 <? List.length (Raw.tabs win))%nat)
                                 (map pinned_of allWindows)) md)) ->
       In t (tabs (snd kw)) -> pinned t = true.
Proof.
  intros Hplain. cbv zeta. split.
  - unfold exportPinnedTabs, catch. cbv zeta. rewrite pinned_windows_none.
    destruct (existsb _ allWindows); cbn [negb]; [|reflexivity].
    unfold bind.
    rewrite downloadSession_plain by exact Hplain.
    unfold ret. cbn [fst]. rewrite createSession_tab_count. unfold valid_tabs.
    now rewrite pinned_windows_valid.
  - intros md kw t Hkw Ht. rewrite createSession_windows in Hkw.
    apply in_map_iff in Hkw as [[i win] [<- Hin]]. apply filter_In in Hin as [Hin _].
    apply indexed_In, nth_error_In, filter_In in Hin as [Hin _].
    apply in_map_iff in Hin as [win0 [<- _]].
    cbn [snd built_window tabs] in Ht. apply in_map_iff in Ht as [[j tab] [<- Hj]].
    cbn [fst snd]. apply indexed_In, nth_error_In in Hj.
    unfold valid_tabs, pinned_of in Hj. cbn [Raw.tabs] in Hj.
    apply filter_In in Hj as [Hj _]. apply filter_In in Hj as [_ Hp].
    unfold session_tab. cbn [pinned]. exact Hp.
Qed.

End HandlerFacts.

Section SelectedFacts.
Context {H : Host}.

Lemma push_tab_valid (w : nat) (tab : Raw.tab) (g : list (nat * list Raw.tab)) :
  list_sum (map (fun kg => List.length (filter (fun t => isValidURL (Raw.url t)) (snd kg)))
                (push_tab w tab g))
  = (list_sum (map (fun kg => List.length (filter (fun t => isValidURL (Raw.url t)) (snd kg))) g)
     + List.length (filter (fun t => isValidURL (Raw.url t)) [tab]))%nat.
Proof.
  induction g as [|[k ts] g IH]; cbn [push_tab map snd].
  - cbn [list_sum fold_right]. lia.
  - destruct (w =? k)%nat; [|destruct (w <? k)%nat]; cbn [map snd];
      repeat change (list_sum (?x :: ?l)) with (x + list_sum l)%nat.
    + rewrite filter_app, length_app. lia.
    + lia.
    + rewrite IH. lia.
Qed.

Lemma group_by_window_valid (items : list Selected.item) :
  list_sum (map (fun kg => List.length (filter (fun t => isValidURL (Raw.url t)) (snd kg)))
                (group_by_window items))
  = List.length (filter (fun t => isValidURL (Raw.url t)) (map Selected.tab items)).
Proof.
  unfold group_by_window.
  enough (forall g,
             list_sum (map (fun kg => List.length (filter (fun t => isValidURL (Raw.url t)) (snd kg)))
                           (fold_left (fun tabsByWindow item =>
                                         push_tab (Selected.windowIndex item) (Selected.tab item)
                                                  tabsByWindow) items g))
             = (list_sum (map (fun kg => List.length (filter (fun t => isValidURL (Raw.url t))
                                                             (snd kg))) g)
                + List.length (filter (fun t => isValidURL (Raw.url t)) (map Selected.tab items)))%nat)
    as Hg by (rewrite Hg; reflexivity).
  induction items as [|it items IH]; intros g; cbn [fold_left map].
  - cbn [filter List.length]. lia.
  - rewrite IH, push_tab_valid.
    change (Selected.tab it :: map Selected.tab items)
      with ([Selected.tab it] ++ map Selected.tab items).
    rewrite filter_app, length_app. lia.
Qed.

Lemma selected_tab_count (items : list Selected.item) (md : Meta.t) :
  tab_count (metadata (createSessionFromSelectedTabs items md))
  = List.length (filter (fun t => isValidURL (Raw.url t)) (map Selected.tab items)).
Proof.
  change (tab_count (metadata (createSessionFromSelectedTabs items md)))
    with (count_tabs (windows (createSessionFromSelectedTabs items md))).
  rewrite count_tabs_sum, selected_windows, map_map. cbn [snd].
  rewrite (map_ext _ (fun ig => List.length (filter (fun t => isValidURL (Raw.url t))
                                                    (snd (snd ig)))))
    by (intros ig; unfold selected_window; cbn [tabs];
        now rewrite length_map, indexed_length).
  unfold kept_groups.
  rewrite (list_sum_filter_nonzero
             (fun ig : nat * (nat * list Raw.tab) =>
                List.length (filter (fun t => isValidURL (Raw.url t)) (snd (snd ig))))).
  rewrite <- (map_map snd (fun kg => List.length (filter (fun t => isValidURL (Raw.url t))
                                                         (snd kg)))).
  rewrite indexed_snd. apply group_by_window_valid.
Qed.

(** X12: in an export that does not encrypt, [exportSelectedTabs] refuses a
    selection that is missing or empty and nothing else; the count it reports
    is that of the selected tabs with a valid URL. *)
Theorem exportSelectedTabs_reports (options : Options.t) (data : option (list Selected.item))
    (salt iv : bytes) (log : Log) :
  Options.secureMode options && truthy (Options.password options) = false ->
  fst (exportSelectedTabs options data salt iv log)
  = inr (match data with
         | None | Some [] => ExportError "No tabs selected"
         | Some selectedTabs =>
             let n := List.length (filter (fun t => isValidURL (Raw.url t))
                                          (map Selected.tab selectedTabs)) in
             ExportOk ("Exported " +++ decimal n +++ " selected tabs!") n
                      ("session_selected_" +++ getTimestamp +++ "."
                         +++ (if Options.secureMode options then "sportab" else "portab"))
         end).
Proof.
  intros Hplain. unfold exportSelectedTabs, catch.
  destruct data as [[|it items]|]; [reflexivity| |reflexivity].
  unfold bind.
  rewrite downloadSession_plain by exact Hplain.
  unfold ret. cbn [fst]. rewrite selected_tab_count. reflexivity.
Qed.


End SelectedFacts.

Section LegacyFacts.
Context {H : Host}.

Lemma legacy_tab_count (ws : list Raw.window) (md : Meta.t) :
  Legacy.tab_count (Legacy.metadata (Legacy.createSession ws md))
  = list_sum (map (fun w => List.length (filter (fun tab => Legacy.isValidURL (Raw.url tab))
                                                (Raw.tabs w))) ws).
Proof.
  destruct (legacy_counts ws md) as [-> _].
  rewrite legacy_windows, map_map. cbn [snd].
  rewrite (map_ext _ (fun iw => List.length (legacy_valid (snd iw))))
    by (intros iw; unfold legacy_window; cbn [Legacy.tabs];
        now rewrite length_map, indexed_length).
  rewrite (list_sum_filter_nonzero (fun iw : nat * Raw.window => List.length (legacy_valid (snd iw)))).
  rewrite <- (map_map snd (fun w => List.length (legacy_valid w))). now rewrite indexed_snd.
Qed.

(** X14: the earlier [exportAllWindows]: one download and nothing else, of the
    JSON text of the session, which has no [signature]; the counts reported
    are those of its own URL check. *)
Theorem legacy_exportAllWindows (options : Options.t) (allWindows : list Raw.window) (log : Log) :
  allWindows <> [] ->
  let w := List.length (filter (fun win => existsb (fun tab => Legacy.isValidURL (Raw.url tab))
                                                   (Raw.tabs win)) allWindows) in
  let n := list_sum (map (fun win => List.length
                                       (filter (fun tab => Legacy.isValidURL (Raw.url tab))
                                               (Raw.tabs win))) allWindows) in
  exists md,
    Meta.name md = Some "All Windows Session"
    /\ Meta.privacyMode md = Options.privacyMode options
    /\ LegacyExport.exportAllWindows options allWindows log
       = (inr (ExportAllOk ("Exported " +++ decimal w +++ " windows (" +++ decimal n
                              +++ " tabs)!")
                           w n ("session_all_" +++ getTimestamp +++ ".portab")),
          log ++ [Download ("session_all_" +++ getTimestamp +++ ".portab")
                    (stringify (LegacyExport.session_json
                                  (Legacy.createSession allWindows md)))])
    /\ JSON.lookup "signature"
         match LegacyExport.session_json (Legacy.createSession allWindows md) with
         | JObject fields => fields
         | _ => []
         end = None.
Proof.
  intros Hws. cbv zeta. unfold LegacyExport.exportAllWindows, catch.
  destruct allWindows as [|w0 ws]; [congruence|].
  cbn [List.length Nat.eqb]. eexists. split; [|split; [|split]].
  3:{ unfold bind, LegacyExport.downloadSessionViaBlob, call, ret.
      rewrite legacy_tab_count.
      match goal with
      | |- context [Legacy.createSession ?l ?m] =>
          destruct (legacy_counts l m) as [_ [_ [_ [-> _]]]]
      end.
      reflexivity. }
  all: reflexivity.
Qed.

End LegacyFacts.

(* ===================================================================== *)
(** ** What an import creates *)
(* ===================================================================== *)

Section ImportTotals.
Context {H : Host}.
Hypothesis create_total : forall d br, exists id br', windows_create d br = (inr id, br').
Hypothesis query_total : forall id br, exists ts br', tabs_query id br = (inr ts, br').
Hypothesis update_total : forall id br, exists br', tabs_update_pinned id br = (inr tt, br').

Lemma pins_total (l : list (Tab * nat)) : forall br,
  exists br',
    for_each l (fun p => if pinned (fst p) then tabs_update_pinned (snd p) else ret tt) br
    = (inr tt, br').
Proof.
  induction l as [|p l IH]; intros br; cbn [for_each].
  - eexists. reflexivity.
  - unfold bind. destruct (pinned (fst p)).
    + destruct (update_total (snd p) br) as [br1 ->]. apply IH.
    + unfold ret at 1. apply IH.
Qed.

Lemma create_window_total (r : bool) (created : nat * nat) (kw : string * Window)
    (br : Browser) :
  exists br',
    create_window r created kw br
    = (inr (if (List.length (tabs (snd kw)) =? 0)%nat then created
            else (S (fst created), (snd created + List.length (tabs (snd kw)))%nat)), br').
Proof.
  unfold create_window. rewrite length_map.
  destruct (List.length (tabs (snd kw)) =? 0)%nat; [eexists; reflexivity|].
  unfold bind.
  match goal with |- context [windows_create ?d br] =>
    destruct (create_total d br) as [id [br1 ->]] end.
  destruct (query_total id br1) as [ts [br2 ->]].
  destruct (pins_total (combine (tabs (snd kw)) ts) br2) as [br3 ->].
  eexists. reflexivity.
Qed.

Lemma create_windows_total (r : bool) (ws : list (string * Window)) :
  forall (created : nat * nat) (br : Browser),
  exists br',
    fold_each ws created (create_window r) br
    = (inr ((fst created
             + List.length (filter (fun kw => negb (List.length (tabs (snd kw)) =? 0)%nat) ws))%nat,
            (snd created + list_sum (map (fun kw => List.length (tabs (snd kw))) ws))%nat),
       br').
Proof.
  induction ws as [|kw ws IH]; intros created br; cbn [fold_each filter map].
  - eexists. unfold ret. cbn [list_sum fold_right List.length]. rewrite !Nat.add_0_r.
    now destruct created.
  - unfold bind. destruct (create_window_total r created kw br) as [br1 ->].
    change (list_sum (?x :: ?l)) with (x + list_sum l)%nat.
    destruct (List.length (tabs (snd kw)) =? 0)%nat eqn:E; cbn [negb].
    + destruct (IH created br1) as [br2 ->]. apply Nat.eqb_eq in E. rewrite E.
      eexists. reflexivity.
    + destruct (IH (S (fst created), (snd created + List.length (tabs (snd kw)))%nat) br1)
        as [br2 ->].
      eexists. f_equal. f_equal. cbn [fst snd List.length]. f_equal; lia.
Qed.

(** X16: in a browser whose three calls do not fail, the import of a session
    whose URLs are all valid ends well; it counts the windows that have a tab
    and all the tabs. *)
Theorem importSession_counts (options : Options.t) (session : Session) (br : Browser) :
  existsb invalid (all_urls session) = false ->
  let w := List.length (filter (fun kw => negb (List.length (tabs (snd kw)) =? 0)%nat)
                               (windows session)) in
  let n := list_sum (map (fun kw => List.length (tabs (snd kw))) (windows session)) in
  exists br',
    importSession options (Some session) br
    = (inr (ImportOk ("Restored " +++ decimal w +++ " windows with " +++ decimal n +++ " tabs")
                     w n), br').
Proof.
  intros Hv. cbv zeta. rewrite importSession_valid by exact Hv.
  unfold catch, bind.
  destruct (create_windows_total (Options.restoreIncognito options) (windows session)
              (0, 0)%nat br) as [br' ->].
  exists br'. reflexivity.
Qed.
End ImportTotals.

Section Exported.
Context {H : Host}.

Lemma exported_urls_valid (ws : list Raw.window) (md : Meta.t) :
  Meta.privacyMode md = false ->
  existsb invalid (all_urls (createSession ws md)) = false.
Proof.
  intros Hp. apply not_true_is_false. intros Hex.
  apply existsb_exists in Hex as [u [Hin Hu]]. unfold all_urls in Hin.
  rewrite createSession_windows in Hin. apply in_flat_map in Hin as [kw [Hkw Hin]].
  apply in_map_iff in Hkw as [[i w] [<- _]]. cbn [snd built_window tabs] in Hin.
  rewrite map_map in Hin. apply in_map_iff in Hin as [[j tab] [<- Hj]].
  apply indexed_In, nth_error_In in Hj. unfold valid_tabs in Hj.
  apply filter_In in Hj as [_ Hvalid].
  unfold invalid, session_tab in Hu. cbn [fst snd url] in Hu. rewrite Hp in Hu.
  rewrite Hvalid in Hu. discriminate.
Qed.

Lemma selected_urls_valid (items : list Selected.item) (md : Meta.t) :
  Meta.privacyMode md = false ->
  existsb invalid (all_urls (createSessionFromSelectedTabs items md)) = false.
Proof.
  intros Hp. apply not_true_is_false. intros Hex.
  apply existsb_exists in Hex as [u [Hin Hu]]. unfold all_urls in Hin.
  rewrite selected_windows in Hin. apply in_flat_map in Hin as [kw [Hkw Hin]].
  apply in_map_iff in Hkw as [[i [w group]] [<- _]]. cbn [fst snd selected_window tabs] in Hin.
  rewrite map_map in Hin. apply in_map_iff in Hin as [[j tab] [<- Hj]].
  apply indexed_In, nth_error_In in Hj.
  apply filter_In in Hj as [_ Hvalid].
  unfold invalid, selected_tab in Hu. cbn [fst snd url] in Hu. rewrite Hp in Hu.
  rewrite Hvalid in Hu. discriminate.
Qed.

(** X15: what is exported without privacy mode passes the URL check of the
    import: the session of either builder holds no URL that [importSession]
    refuses. *)
Theorem exported_session_passes_validation (ws : list Raw.window)
    (items : list Selected.item) (md : Meta.t) (br : Browser) :
  Meta.privacyMode md = false ->
  validate_urls (createSession ws md) br = (inr tt, br)
  /\ validate_urls (createSessionFromSelectedTabs items md) br = (inr tt, br).
Proof.
  intros Hp. rewrite !validate_urls_run. split.
  - destruct (find invalid (all_urls (createSession ws md))) as [u|] eqn:Hf; [|reflexivity].
    apply find_some in Hf as [Hin Hu].
    pose proof (exported_urls_valid ws md Hp) as Hall.
    assert (existsb invalid (all_urls (createSession ws md)) = true)
      by (apply existsb_exists; eauto).
    congruence.
  - destruct (find invalid (all_urls (createSessionFromSelectedTabs items md))) as [u|] eqn:Hf;
      [|reflexivity].
    apply find_some in Hf as [Hin Hu].
    pose proof (selected_urls_valid items md Hp) as Hall.
    assert (existsb invalid (all_urls (createSessionFromSelectedTabs items md)) = true)
      by (apply existsb_exists; eauto).
    congruence.
Qed.
End Exported.

(* ===================================================================== *)
(** ** An import into the reference browser *)
(* ===================================================================== *)

Section RestoredFacts.
Import Reference Restored.

Lemma pin_tab_id (ids : list nat) (t : tab) : tab_id (pin_tab ids t) = tab_id t.
Proof. unfold pin_tab. now destruct (existsb _ ids). Qed.

Lemma pin_tab_url (ids : list nat) (t : tab) : tab_url (pin_tab ids t) = tab_url t.
Proof. unfold pin_tab. now destruct (existsb _ ids). Qed.

Lemma pin_tab_nil (t : tab) : pin_tab [] t = t.
Proof. reflexivity. Qed.

Lemma pin_tab_app (P Q : list nat) (t : tab) : pin_tab Q (pin_tab P t) = pin_tab (P ++ Q) t.
Proof.
  unfold pin_tab at 2 3. rewrite existsb_app.
  destruct (existsb (Nat.eqb (tab_id t)) P); cbn [orb].
  - unfold pin_tab. cbn [tab_id tab_url]. now destruct (existsb _ Q).
  - reflexivity.
Qed.

Lemma pin_all_nil (b : browser) : pin_all [] b = b.
Proof.
  destruct b as [n ws]. unfold pin_all. cbn [next_id open_windows]. f_equal.
  rewrite <- (map_id ws) at 2. apply map_ext. intros [i inc foc ts].
  unfold pin_window. cbn [window_id window_incognito window_focused window_tabs]. f_equal.
  rewrite <- (map_id ts) at 2. apply map_ext. intros t. apply pin_tab_nil.
Qed.

Lemma pin_all_app (P Q : list nat) (b : browser) : pin_all Q (pin_all P b) = pin_all (P ++ Q) b.
Proof.
  unfold pin_all. cbn [next_id open_windows]. f_equal. rewrite map_map. apply map_ext.
  intros w. unfold pin_window.
  cbn [window_id window_incognito window_focused window_tabs]. f_equal.
  rewrite map_map. apply map_ext. intros t. apply pin_tab_app.
Qed.

Lemma pin_one (tabId : nat) (b : browser) : pin tabId b = (inr tt, pin_all [tabId] b).
Proof.
  unfold pin, pin_all. f_equal. f_equal. apply map_ext. intros w. unfold pin_window. f_equal.
  apply map_ext. intros t. unfold pin_tab. cbn [existsb]. now rewrite orb_false_r.
Qed.

(** The loop that applies the pinned state pins the tabs paired with a
    pinned tab of the session. *)
Lemma pins_run (l : list (Tab * nat)) : forall b,
  for_each l (fun p => if pinned (fst p) then tabs_update_pinned (Host := host) (snd p)
                       else ret tt) b
  = (inr tt, pin_all (map snd (filter (fun p => pinned (fst p)) l)) b).
Proof.
  induction l as [|p l IH]; intros b; cbn [for_each filter map].
  - unfold ret. now rewrite pin_all_nil.
  - unfold bind. destruct (pinned (fst p)).
    + change (tabs_update_pinned (Host := host) (snd p) b) with (pin (snd p) b).
      rewrite pin_one, IH. cbn [map]. now rewrite pin_all_app.
    + unfold ret at 1. apply IH.
Qed.

Lemma seq_shift_map {A B : Type} (f : nat -> A -> B) (l : list A) : forall k j,
  map (fun iu => f (k + fst iu)%nat (snd iu)) (combine (seq j (List.length l)) l)
  = map (fun iu => f (fst iu) (snd iu)) (combine (seq (k + j) (List.length l)) l).
Proof.
  induction l as [|x l IH]; intros k j; cbn [List.length seq combine map fst snd];
    [reflexivity|].
  f_equal. rewrite IH. now rewrite Nat.add_succ_r.
Qed.

Lemma opened_ids (urls : list string) : forall k,
  map tab_id (opened k urls) = seq k (List.length urls).
Proof.
  unfold opened. induction urls as [|u urls IH]; intros k;
    cbn [List.length seq combine map tab_id fst]; [reflexivity|].
  f_equal. apply IH.
Qed.

Lemma pinned_ids_above (ts : list Tab) : forall k q, In q (pinned_ids k ts) -> (k <= q)%nat.
Proof.
  unfold pinned_ids. induction ts as [|t ts IH]; intros k q;
    cbn [List.length seq combine filter map]; [intros []|].
  destruct (pinned (fst (t, k))); cbn [map snd In].
  - intros [<-|Hin]; [lia|]. apply IH in Hin. lia.
  - intros Hin. apply IH in Hin. lia.
Qed.

Lemma existsb_below (x : nat) (Q : list nat) :
  (forall q, In q Q -> q <> x) -> existsb (Nat.eqb x) Q = false.
Proof.
  intros HQ. apply not_true_is_false. intros Hex.
  apply existsb_exists in Hex as [q [Hin Hq]]. apply Nat.eqb_eq in Hq. subst q.
  now apply (HQ x).
Qed.

Lemma opened_cons (k : nat) (u : string) (urls : list string) :
  opened k (u :: urls)
  = {| tab_id := k; tab_url := u; tab_pinned := false |} :: opened (S k) urls.
Proof. reflexivity. Qed.

Lemma pinned_ids_cons (k : nat) (t : Tab) (ts : list Tab) :
  pinned_ids k (t :: ts) = (if pinned t then [k] else []) ++ pinned_ids (S k) ts.
Proof.
  unfold pinned_ids. cbn [List.length seq combine filter fst]. now destruct (pinned t).
Qed.

(** Once the loop is through, the tabs opened for a window are pinned as
    the tabs of the session are. *)
Lemma opened_pinned (ts : list Tab) : forall k Q,
  (forall q, In q Q -> (q < k)%nat) ->
  map (fun t => (tab_url t, tab_pinned t))
      (map (pin_tab (Q ++ pinned_ids k ts)) (opened k (map url ts)))
  = map (fun t => (url t, pinned t)) ts.
Proof.
  induction ts as [|t ts IH]; intros k Q HQ; [reflexivity|].
  cbn [map]. rewrite opened_cons, pinned_ids_cons. cbn [map]. f_equal.
  - unfold pin_tab. cbn [tab_id]. rewrite !existsb_app.
    rewrite (existsb_below k Q) by (intros q Hq; apply HQ in Hq; lia).
    rewrite (existsb_below k (pinned_ids (S k) ts))
      by (intros q Hq; apply pinned_ids_above in Hq; lia).
    destruct (pinned t); cbn [existsb orb]; [rewrite Nat.eqb_refl|]; reflexivity.
  - rewrite app_assoc. apply IH. intros q Hq. apply in_app_iff in Hq as [Hq|Hq].
    + apply HQ in Hq. lia.
    + destruct (pinned t); [destruct Hq as [<-|[]]; lia|destruct Hq].
Qed.

Lemma pin_tab_other (P : list nat) (t : tab) :
  (forall q, In q P -> q <> tab_id t) -> pin_tab P t = t.
Proof. intros HP. unfold pin_tab. now rewrite existsb_below. Qed.

Lemma pin_window_other (P : list nat) (w : window) (k : nat) :
  forallb (fun t => (tab_id t <? k)%nat) (window_tabs w) = true ->
  (forall q, In q P -> (k <= q)%nat) ->
  pin_window P w = w.
Proof.
  intros Hw HP. destruct w as [i inc foc ts]. unfold pin_window.
  cbn [window_id window_incognito window_focused window_tabs] in *. f_equal.
  rewrite <- (map_id ts) at 2. apply map_ext_in. intros t Ht. apply pin_tab_other.
  intros q Hq. apply HP in Hq. rewrite forallb_forall in Hw. apply Hw, Nat.ltb_lt in Ht. lia.
Qed.

Lemma ids_below_step (b : browser) (w : window) (n : nat) :
  ids_below b = true ->
  (next_id b <= n)%nat ->
  (window_id w <? n)%nat = true ->
  forallb (fun t => (tab_id t <? n)%nat) (window_tabs w) = true ->
  ids_below {| next_id := n; open_windows := open_windows b ++ [w] |} = true.
Proof.
  intros Hb Hn Hw Ht. unfold ids_below in *. cbn [next_id open_windows].
  rewrite forallb_app. cbn [forallb]. rewrite Hw, Ht. cbn [andb]. rewrite andb_true_r.
  rewrite forallb_forall in *. intros w0 Hin. specialize (Hb w0 Hin).
  apply andb_true_iff in Hb as [H1 H2]. apply andb_true_iff. split.
  - apply Nat.ltb_lt in H1. apply Nat.ltb_lt. lia.
  - rewrite forallb_forall in *. intros t Hin'. specialize (H2 t Hin').
    apply Nat.ltb_lt in H2. apply Nat.ltb_lt. lia.
Qed.

(** [tabs.query] on the window just opened lists its tabs. *)
Lemma query_new (b : browser) (w : window) (n : nat) :
  ids_below b = true ->
  window_id w = next_id b ->
  query (next_id b) {| next_id := n; open_windows := open_windows b ++ [w] |}
  = (inr (map tab_id (window_tabs w)), {| next_id := n; open_windows := open_windows b ++ [w] |}).
Proof.
  intros Hb Hw. unfold query. cbn [open_windows]. f_equal. f_equal.
  rewrite flat_map_app. cbn [flat_map]. rewrite Hw, Nat.eqb_refl, app_nil_r.
  replace (flat_map _ (open_windows b)) with (@nil nat); [reflexivity|].
  symmetry. unfold ids_below in Hb. rewrite forallb_forall in Hb.
  induction (open_windows b) as [|w0 ws IH]; [reflexivity|].
  cbn [flat_map]. pose proof (Hb w0 (or_introl eq_refl)) as H0.
  apply andb_true_iff in H0 as [H0 _]. apply Nat.ltb_lt in H0.
  replace (window_id w0 =? next_id b)%nat with false by (symmetry; apply Nat.eqb_neq; lia).
  cbn [app]. apply IH. intros x Hx. apply Hb. now right.
Qed.

(** One turn of the creation loop in the reference browser. *)
Lemma create_window_run (r : bool) (created : nat * nat) (kw : string * Window) (b : browser) :
  ids_below b = true ->
  tabs (snd kw) <> [] ->
  exists w b',
    create_window (H := host) r created kw b
    = (inr (S (fst created), (snd created + List.length (tabs (snd kw)))%nat), b')
    /\ open_windows b' = open_windows b ++ [w]
    /\ view w = asked r (snd kw)
    /\ ids_below b' = true.
Proof.
  intros Hb Hne. unfold create_window. rewrite length_map.
  destruct (List.length (tabs (snd kw)) =? 0)%nat eqn:E.
  { apply Nat.eqb_eq, length_zero_iff_nil in E. contradiction. }
  set (urls := map url (tabs (snd kw))).
  set (k := S (next_id b)).
  set (w0 := {| window_id := next_id b;
                window_incognito := incognito (snd kw) && r;
                window_focused := active (snd kw);
                window_tabs := opened k urls |}).
  set (n := (k + List.length urls)%nat).
  set (b1 := {| next_id := n; open_windows := open_windows b ++ [w0] |}).
  assert (Hc : windows_create (Host := host)
                 {| create_url := urls; create_incognito := incognito (snd kw) && r;
                    create_focused := active (snd kw) |} b = (inr (next_id b), b1)).
  { change (windows_create (Host := host)) with create. unfold create, b1, w0, n, k.
    cbn [create_url create_incognito create_focused]. unfold indexed.
    rewrite (seq_shift_map (fun i u => {| tab_id := i; tab_url := u; tab_pinned := false |})
               urls (next_id b + 1) 0).
    rewrite Nat.add_0_r, length_map, length_combine, length_seq, Nat.min_id.
    fold (opened (next_id b + 1) urls). rewrite Nat.add_1_r. reflexivity. }
  unfold bind. rewrite Hc.
  change (tabs_query (Host := host) (next_id b) b1) with (query (next_id b) b1).
  unfold b1. rewrite (query_new b w0 n Hb eq_refl). fold b1.
  change (window_tabs w0) with (opened k urls).
  rewrite opened_ids. unfold urls at 1. rewrite length_map.
  rewrite pins_run. fold (pinned_ids k (tabs (snd kw))).
  set (P := pinned_ids k (tabs (snd kw))).
  exists (pin_window P w0), (pin_all P b1). split; [reflexivity|].
  assert (HP : forall q, In q P -> (k <= q)%nat) by (intros q; apply pinned_ids_above).
  split; [|split].
  - unfold pin_all, b1. cbn [open_windows]. rewrite map_app. cbn [map]. f_equal.
    rewrite <- (map_id (open_windows b)) at 2. apply map_ext_in. intros w Hin.
    unfold ids_below in Hb. rewrite forallb_forall in Hb. specialize (Hb w Hin).
    apply andb_true_iff in Hb as [_ Hb].
    apply (pin_window_other P w (next_id b) Hb). intros q Hq. apply HP in Hq. lia.
  - unfold view, asked, pin_window, w0.
    cbn [window_incognito window_focused window_tabs]. f_equal.
    apply (opened_pinned (tabs (snd kw)) k []). intros q [].
  - assert (Hids : ids_below b1 = true).
    { unfold b1. apply ids_below_step; [exact Hb|unfold n, k; lia| |].
      - apply Nat.ltb_lt. unfold w0, n, k. cbn [window_id]. lia.
      - unfold w0. cbn [window_tabs]. apply forallb_forall. intros t Ht.
        apply (in_map tab_id) in Ht. rewrite opened_ids in Ht. apply in_seq in Ht.
        apply Nat.ltb_lt. unfold n. lia. }
    unfold ids_below in *. unfold pin_all. cbn [next_id open_windows].
    rewrite forallb_forall in *. intros w Hin. apply in_map_iff in Hin as [w1 [<- Hin]].
    specialize (Hids w1 Hin). unfold pin_window. cbn [window_id window_tabs].
    apply andb_true_iff in Hids as [H1 H2]. rewrite H1. cbn [andb].
    rewrite forallb_forall in *. intros t Ht. apply in_map_iff in Ht as [t1 [<- Ht]].
    rewrite pin_tab_id. now apply H2.
Qed.

Lemma create_windows_run (r : bool) (ws : list (string * Window)) :
  forall (created : nat * nat) (b : browser),
  ids_below b = true ->
  exists b',
    fold_each ws created (create_window (H := host) r) b
    = (inr ((fst created
             + List.length (filter (fun kw => negb (List.length (tabs (snd kw)) =? 0)%nat) ws))%nat,
            (snd created + list_sum (map (fun kw => List.length (tabs (snd kw))) ws))%nat),
       b')
    /\ map view (open_windows b')
       = map view (open_windows b)
           ++ map (fun kw => asked r (snd kw))
                  (filter (fun kw => negb (List.length (tabs (snd kw)) =? 0)%nat) ws)
    /\ ids_below b' = true.
Proof.
  induction ws as [|kw ws IH]; intros created b Hb; cbn [fold_each filter map].
  - exists b. unfold ret. cbn [list_sum fold_right List.length]. rewrite !Nat.add_0_r, app_nil_r.
    destruct created. auto.
  - change (list_sum (?x :: ?l)) with (x + list_sum l)%nat. unfold bind.
    destruct (tabs (snd kw)) as [|t ts] eqn:Ht.
    + unfold create_window at 1. rewrite length_map, Ht. cbn [List.length Nat.eqb negb].
      unfold ret at 1. destruct (IH created b Hb) as [b' [-> [Hv Hi]]].
      exists b'. split; [reflexivity|split; assumption].
    + destruct (create_window_run r created kw b Hb) as [w [b1 [Hrun [Hw [Hview H1]]]]];
        [rewrite Ht; discriminate|].
      rewrite Hrun. rewrite Ht in *. cbn [List.length Nat.eqb negb].
      destruct (IH (S (fst created), (snd created + S (List.length ts))%nat) b1 H1)
        as [b' [-> [Hv Hi]]].
      exists b'. split; [|split; [|exact Hi]].
      * cbn [fst snd List.length]. f_equal. f_equal. f_equal; lia.
      * rewrite Hv, Hw, map_app. cbn [map]. rewrite Hview, <- app_assoc. reflexivity.
Qed.

(** X17: in the reference browser, where [windows.create] opens the URLs in
    order as tabs that are not pinned, [tabs.query] lists them in order and
    [tabs.update] pins the tab of the id given: the import of a session whose
    URLs are all valid adds one window for each window of the session that has
    a tab, in order, with the URLs and the pinned state of its tabs, the focus
    of [active], and incognito when the window was and the option asks for
    it. *)
Theorem importSession_restores (options : Options.t) (session : Session) (br : browser) :
  existsb (invalid (H := host)) (all_urls session) = false ->
  ids_below br = true ->
  exists br' message w n,
    importSession (H := host) options (Some session) br = (inr (ImportOk message w n), br')
    /\ map view (open_windows br')
       = map view (open_windows br)
           ++ map (fun kw => asked (Options.restoreIncognito options) (snd kw))
                  (filter (fun kw => negb (List.length (tabs (snd kw)) =? 0)%nat)
                          (windows session)).
Proof.
  intros Hv Hb. rewrite importSession_valid by exact Hv. unfold catch, bind.
  destruct (create_windows_run (Options.restoreIncognito options) (windows session)
              (0, 0)%nat br Hb) as [br' [-> [Hview _]]].
  exists br'. do 3 eexists. split; [reflexivity|exact Hview].
Qed.

Lemma filter_map_comm {A B : Type} (P : B -> bool) (f : A -> B) (l : list A) :
  filter P (map f l) = map f (filter (fun x => P (f x)) l).
Proof.
  induction l as [|x l IH]; cbn [map filter]; [reflexivity|].
  destruct (P (f x)); cbn [map]; now rewrite IH.
Qed.

Lemma asked_built (r : bool) (md : Meta.t) (win : Raw.window) :
  Meta.privacyMode md = false ->
  asked r (built_window (H := host) md win)
  = (Raw.incognito win && r, Raw.focused win,
     map (fun tab => (Raw.url tab, Raw.pinned tab))
         (filter (fun tab => isValidURL (H := host) (Raw.url tab)) (Raw.tabs win))).
Proof.
  intros Hp. unfold asked, built_window. cbn [incognito active tabs]. f_equal.
  rewrite map_map. unfold session_tab. cbn [url pinned]. rewrite Hp.
  rewrite <- (map_map snd (fun tab => (Raw.url tab, Raw.pinned tab))).
  now rewrite indexed_snd.
Qed.

(** X18: export, then import: the windows exported without privacy mode come
    back in the reference browser, each window that has a tab with a valid
    URL as one window with those tabs in order, their URLs and pinned state,
    the focus it had, and incognito when it was and the option asks for it. *)
Theorem export_then_import (ws : list Raw.window) (md : Meta.t) (options : Options.t)
    (br : browser) :
  Meta.privacyMode md = false ->
  ids_below br = true ->
  exists br' message w n,
    importSession (H := host) options (Some (createSession (H := host) ws md)) br
    = (inr (ImportOk message w n), br')
    /\ map view (open_windows br')
       = map view (open_windows br)
           ++ map (fun win =>
                     (Raw.incognito win && Options.restoreIncognito options, Raw.focused win,
                      map (fun tab => (Raw.url tab, Raw.pinned tab))
                          (filter (fun tab => isValidURL (H := host) (Raw.url tab))
                                  (Raw.tabs win))))
                  (filter (fun win => existsb (fun tab => isValidURL (H := host) (Raw.url tab))
                                              (Raw.tabs win)) ws).
Proof.
  intros Hp Hb.
  destruct (create_windows_run (Options.restoreIncognito options)
              (windows (createSession (H := host) ws md)) (0, 0)%nat br Hb)
    as [br' [Hrun [Hview _]]].
  rewrite importSession_valid by (apply exported_urls_valid; exact Hp).
  unfold catch, bind. rewrite Hrun.
  exists br'. do 3 eexists. split; [reflexivity|]. rewrite Hview. f_equal.
  rewrite createSession_windows, filter_map_comm, map_map. cbn [snd].
  rewrite (map_ext _ (fun iw : nat * Raw.window =>
                        (Raw.incognito (snd iw) && Options.restoreIncognito options,
                         Raw.focused (snd iw),
                         map (fun tab => (Raw.url tab, Raw.pinned tab))
                             (filter (fun tab => isValidURL (H := host) (Raw.url tab))
                                     (Raw.tabs (snd iw))))))
    by (intros iw; apply asked_built; exact Hp).
  rewrite filter_filter_and.
  set (P := fun win => existsb (fun tab => isValidURL (H := host) (Raw.url tab)) (Raw.tabs win)).
  rewrite (filter_ext _ (fun iw : nat * Raw.window => P (snd iw))).
  2:{ intros iw. rewrite built_window_length. unfold kept, valid_tabs, P.
      rewrite filter_nonempty. apply andb_diag. }
  rewrite <- (map_map snd (fun win =>
                             (Raw.incognito win && Options.restoreIncognito options,
                              Raw.focused win,
                              map (fun tab => (Raw.url tab, Raw.pinned tab))
                                  (filter (fun tab => isValidURL (H := host) (Raw.url tab))
                                          (Raw.tabs win))))).
  now rewrite (filter_snd P), indexed_snd.
Qed.
End RestoredFacts.

Section MoreFacts.
Context {H : Host}.

(** X8: a signature, the digest of a plain file as well as the tag of an
    encrypted one, is sixty-four digits of lower-case hexadecimal. *)
Theorem signature_format (data key : string) (log : Log) :
  key <> "" ->
  exists digest tag,
    generateHash data log = (inr digest, log ++ [Digest])
    /\ generateHMAC data key log = (inr tag, log ++ [ImportKey "HMAC"; Sign])
    /\ String.length digest = 64%nat
    /\ forallb is_lower_hex (list_ascii_of_string digest) = true
    /\ String.length tag = 64%nat
    /\ forallb is_lower_hex (list_ascii_of_string tag) = true.
Proof.
  intros Hk. do 2 eexists. split; [reflexivity|]. split; [apply generateHMAC_run; exact Hk|].
  unfold tag_of.
  destruct (hex_format (SHA256.sha256 (encode data))) as [L1 F1].
  destruct (hex_format (HMAC.hmac (encode key) (encode data))) as [L2 F2].
  rewrite sha256_length in L1. rewrite hmac_length in L2. auto.
Qed.

Lemma decryptData_outcome (encrypted_b64 salt_b64 iv_b64 password : string) (log : Log) :
  exists log',
    (exists text, decryptData encrypted_b64 salt_b64 iv_b64 password log = (inr text, log'))
    \/ decryptData encrypted_b64 salt_b64 iv_b64 password log
       = (inl "Decryption failed - invalid password or corrupted file", log').
Proof.
  unfold decryptData, catch.
  match goal with
  | |- context [match ?m log with _ => _ end] => destruct (m log) as [[e|text] log']
  end.
  - exists log'. right. reflexivity.
  - exists log'. left. exists text. reflexivity.
Qed.

(** X7: [decryptSession] never throws, and what it answers is decided in this
    order.  For a wrapper whose [encrypted] is false: the error that the
    session is not encrypted, and nothing is called.  For a password, a
    [null] one read as the text [null], that is empty or whose tag over
    [data] is not the stored [signature]: the wrong-password error, after the
    calls of the tag alone.  Otherwise the answer follows [decryptData],
    which starts after the two calls of the tag: when it fails the answer is
    its error, when it returns a text the answer is the session parsed from
    the text, or the message of [JSON.parse]. *)
Theorem decryptSession_answers (options : Options.t) (sessionData : Sealed.file) (log : Log) :
  let password := text_of (Options.password options) in
  (Options.password options = None -> password = "null")
  /\ (Sealed.encrypted sessionData = false ->
      decryptSession options sessionData log
      = (inr (DecryptError "Session is not encrypted"), log))
  /\ (Sealed.encrypted sessionData = true ->
      password = ""
      \/ tag_of (Sealed.data sessionData) password <> Sealed.signature sessionData ->
      decryptSession options sessionData log
      = (inr (DecryptError "Invalid password or corrupted file"),
         log ++ verify_calls password))
  /\ (Sealed.encrypted sessionData = true ->
      password <> "" ->
      tag_of (Sealed.data sessionData) password = Sealed.signature sessionData ->
      decryptSession options sessionData log
      = match decryptData (Sealed.data sessionData) (Sealed.salt sessionData)
                (Sealed.iv sessionData) password (log ++ [ImportKey "HMAC"; Sign]) with
        | (inr text, log') => (inr (decrypt_response (JSON_parse text)), log')
        | (inl _, log') =>
            (inr (DecryptError "Decryption failed - invalid password or corrupted file"),
             log')
        end).
Proof.
  cbv zeta. split; [intros ->; reflexivity|]. split; [|split].
  - intros He. unfold decryptSession, catch. rewrite He. reflexivity.
  - intros He Hbad. apply decryptSession_refuses; [exact He|].
    destruct Hbad as [->|Hne]; [reflexivity|].
    apply andb_false_iff. right. now apply String.eqb_neq.
  - intros He Hp Htag. unfold decryptSession, catch, bind. rewrite He. cbn [negb].
    rewrite verifyHMAC_run, Htag, String.eqb_refl.
    destruct (text_of (Options.password options)) as [|a p] eqn:Ep; [congruence|].
    cbn [String.eqb negb andb verify_calls].
    destruct (decryptData_outcome (Sealed.data sessionData) (Sealed.salt sessionData)
                (Sealed.iv sessionData) (String a p) (log ++ [ImportKey "HMAC"; Sign]))
      as [log' [[text Hd]|Hd]]; rewrite Hd.
    + destruct (JSON_parse text); reflexivity.
    + reflexivity.
Qed.

Lemma utf16_length_empty (s : string) : (0 < utf16_length s)%nat -> s <> "".
Proof. intros Hs ->. cbn in Hs. lia. Qed.

(** X19: the options the popup sends in secure mode carry the password typed,
    of eight UTF-16 code units or more; with them, when the nonce is not
    empty and the cipher text of the session, the salt and the nonce are each
    within the number of arguments the engine takes in one call,
    [exportAllWindows] encrypts: the file downloaded is the wrapper of the
    session sealed under that password.  The session is the one built from
    the windows, whatever the counts the handler passes to [createSession]. *)
Theorem popup_secure_export (f : PopupForm.form) (options : Options.t)
    (allWindows : list Raw.window) (salt iv : bytes) (log : Log) :
  PopupForm.getExportOptions f = inr options ->
  PopupForm.secure_mode f = true ->
  allWindows <> [] ->
  iv <> [] ->
  (forall tabCount windowCount,
      fits (List.length
              (encode (stringify
                         (session_json
                            (createSession allWindows
                               (modes (Some "All Windows Session") tabCount windowCount
                                      (PopupForm.privacy_mode f) true)))))
            + 16)) ->
  fits (List.length salt) ->
  fits (List.length iv) ->
  (8 <= utf16_length (PopupForm.password_input f))%nat
  /\ Options.password options = Some (PopupForm.password_input f)
  /\ exists md c,
       Meta.name md = Some "All Windows Session"
       /\ Meta.privacyMode md = PopupForm.privacy_mode f
       /\ Meta.secureMode md = true
       /\ GCM.encrypt (PBKDF2.derive (encode (PopupForm.password_input f)) salt iterations) iv
            (encode (stringify (session_json (createSession allWindows md)))) = Some c
       /\ snd (exportAllWindows options allWindows salt iv log)
          = log ++ encrypt_calls
              ++ [ImportKey "HMAC"; Sign;
                  Download ("session_all_" +++ getTimestamp +++ ".sportab")
                    (stringify
                       (sealed_json (wrapper_of (PopupForm.password_input f) salt iv c)))].
Proof.
  intros Hopt Hsec Hws Hiv Fd Fs Fi.
  unfold PopupForm.getExportOptions in Hopt. rewrite Hsec in Hopt.
  cbn [andb] in Hopt.
  destruct (negb (truthy (Some (PopupForm.password_input f)))) eqn:Ht; [discriminate|].
  destruct (utf16_length (PopupForm.password_input f) <? 8)%nat eqn:Hl; [discriminate|].
  injection Hopt as <-. apply Nat.ltb_ge in Hl.
  split; [exact Hl|]. split; [reflexivity|].
  assert (Hp : PopupForm.password_input f <> "") by (apply utf16_length_empty; lia).
  unfold exportAllWindows, catch. destruct allWindows as [|w0 ws]; [congruence|].
  cbn [List.length Nat.eqb Options.secureMode Options.privacyMode]. unfold bind.
  match goal with
  | |- context [downloadSession (createSession ?l ?m) ?fn ?o ?sa ?i ?lg] =>
      destruct (cipher_fits
                  (PBKDF2.derive (encode (PopupForm.password_input f)) salt iterations) iv
                  (encode (stringify (session_json (createSession l m)))) Hiv
                  (Fd (Meta.tabCount m) (Meta.windowCount m))) as [c [Hc Fc]];
      rewrite (downloadSession_sealed (createSession l m) fn o (PopupForm.password_input f)
                 sa i c lg eq_refl eq_refl Hp Hc Fc Fs Fi);
      exists m, c
  end.
  repeat split. exact Hc.
Qed.


Lemma downloadSession_beyond_limit (sessionData : Session) (filename : string)
    (options : Options.t) (p : string) (salt iv : bytes) (log : Log) :
  Options.secureMode options = true ->
  Options.password options = Some p ->
  p <> "" ->
  iv <> [] ->
  ~ fits (List.length (encode (stringify (session_json sessionData))) + 16) ->
  downloadSession sessionData filename options salt iv log
  = (inl range_error, log ++ encrypt_calls).
Proof.
  intros Hs Hpw Hp Hiv Hbig. unfold downloadSession, bind at 1. rewrite Hs, Hpw.
  destruct p as [|a p']; [congruence|]. cbn [truthy String.eqb negb andb text_of].
  destruct (gcm_encrypt_total (PBKDF2.derive (encode (String a p')) salt iterations) iv
              (encode (stringify (session_json sessionData))) Hiv) as [c Hc].
  unfold bind at 1. unfold seal, bind at 1.
  rewrite (encryptData_steps _ _ _ _ _ _ Hc). unfold bind at 1.
  rewrite btoa_spread_throws; [reflexivity|].
  now rewrite (gcm_encrypt_length _ _ _ _ Hc).
Qed.

(** X25: a secure export of a session whose cipher text is longer than the
    number of arguments the engine takes in one call does not write a file:
    [exportAllWindows] answers with the message of the engine's [RangeError],
    after the calls that encrypt; no tag is computed and nothing is
    downloaded. *)
Theorem secure_export_beyond_limit (options : Options.t) (p : string)
    (allWindows : list Raw.window) (salt iv : bytes) (log : Log) :
  allWindows <> [] ->
  Options.secureMode options = true ->
  Options.password options = Some p ->
  p <> "" ->
  iv <> [] ->
  (forall tabCount windowCount,
      ~ fits (List.length
                (encode (stringify
                           (session_json
                              (createSession allWindows
                                 (modes (Some "All Windows Session") tabCount windowCount
                                        (Options.privacyMode options) true)))))
              + 16)) ->
  exportAllWindows options allWindows salt iv log
  = (inr (ExportAllError range_error), log ++ encrypt_calls).
Proof.
  intros Hws Hs Hpw Hp Hiv Hbig. unfold exportAllWindows, catch.
  destruct allWindows as [|w0 ws]; [congruence|].
  cbn [List.length Nat.eqb]. unfold bind.
  match goal with
  | |- context [downloadSession (createSession ?l ?m) ?fn ?o ?sa ?i ?lg] =>
      rewrite (downloadSession_beyond_limit (createSession l m) fn o p sa i lg Hs Hpw Hp Hiv)
  end.
  - reflexivity.
  - rewrite Hs. apply (Hbig _ _).
Qed.

End MoreFacts.

Section Authentic.
Context {H : Host}.

(** X6: when [decryptData] returns a text, its three arguments are base64
    text, and there are bytes which [TextDecoder] reads as the text returned
    and whose encryption, under the key of the password and the salt given,
    with the nonce given, is the data given, cipher text and tag.  The calls
    made are [importKey], [deriveKey] and [decrypt]. *)
Theorem decryptData_authentic (encrypted_b64 salt_b64 iv_b64 password text : string)
    (log log' : Log) :
  decryptData encrypted_b64 salt_b64 iv_b64 password log = (inr text, log') ->
  exists encrypted salt iv decrypted,
    Base64.atob_bytes encrypted_b64 = Some encrypted
    /\ Base64.atob_bytes salt_b64 = Some salt
    /\ Base64.atob_bytes iv_b64 = Some iv
    /\ GCM.encrypt (PBKDF2.derive (encode password) salt iterations) iv decrypted
       = Some encrypted
    /\ text = decode decrypted
    /\ log' = log ++ decrypt_calls.
Proof.
  unfold decryptData, catch, bind, atob_or_throw, call, ret, throw.
  destruct (Base64.atob_bytes encrypted_b64) as [encrypted|]; [|discriminate].
  destruct (Base64.atob_bytes salt_b64) as [salt|]; [|discriminate].
  destruct (Base64.atob_bytes iv_b64) as [iv|]; [|discriminate].
  cbn beta iota.
  destruct (GCM.decrypt _ iv encrypted) as [decrypted|] eqn:Hd; [|discriminate].
  intros [= <- <-]. exists encrypted, salt, iv, decrypted.
  repeat split; try reflexivity.
  - now apply gcm_encrypt_decrypt.
  - unfold decrypt_calls. now rewrite <- !app_assoc.
Qed.
End Authentic.

(* ===================================================================== *)
(** ** The popup: a window ticked as a whole *)
(* ===================================================================== *)

Lemma set_add_seq (w : nat) (n : nat) : forall k s,
  (forall i, (k <= i)%nat -> existsb (Popup.same_id (w, i)) s = false) ->
  fold_left (fun s tabIndex => Popup.set_add (w, tabIndex) s) (seq k n) s
  = s ++ map (pair w) (seq k n).
Proof.
  induction n as [|n IH]; intros k s Hs; cbn [seq fold_left map].
  - now rewrite app_nil_r.
  - unfold Popup.set_add at 2. rewrite Hs by lia. rewrite IH.
    + now rewrite <- app_assoc.
    + intros i Hi. rewrite existsb_app, Hs by lia. cbn [existsb orb].
      unfold Popup.same_id. cbn [fst snd]. rewrite Nat.eqb_refl. cbn [andb].
      rewrite orb_false_r. apply Nat.eqb_neq. lia.
Qed.

Lemma collect_window (st : Popup.state) (w : nat) (win : Raw.window) :
  nth_error (Popup.exportTabs st) w = Some win ->
  forall l k,
    (forall i x, nth_error l i = Some x -> nth_error (Raw.tabs win) (k + i) = Some x) ->
    Popup.collect (Popup.selected_item st) (map (pair w) (seq k (List.length l)))
    = Some (map (fun ix => {| Selected.windowIndex := w; Selected.tabIndex := fst ix;
                              Selected.tab := snd ix |})
                (combine (seq k (List.length l)) l)).
Proof.
  intros Hw. induction l as [|x l IH]; intros k Hl;
    cbn [List.length seq map Popup.collect combine]; [reflexivity|].
  unfold Popup.selected_item at 1. cbn [fst snd]. rewrite Hw.
  pose proof (Hl 0%nat x eq_refl) as H0. rewrite Nat.add_0_r in H0. rewrite H0.
  rewrite IH; [reflexivity|].
  intros i y Hy. rewrite Nat.add_succ_comm. apply (Hl (S i) y Hy).
Qed.

Section TickedWindow.
Context {H : Host}.

(** X20: a window ticked as a whole, from an empty selection, is exported with
    its tabs in their order in the window: the message of the popup lists
    them so, and the session built from it holds those with a valid URL, in
    that order, as its only window. *)
Theorem ticked_window_export (windows0 : list Raw.window) (w : nat) (win : Raw.window)
    (st0 : Popup.state) (options : Options.t) (md : Meta.t) :
  nth_error windows0 w = Some win ->
  Raw.tabs win <> [] ->
  exists items,
    Popup.handleExportSelectedConfirm (Some options)
      (Popup.handleWindowCheckboxChange w true (Popup.handleExportSelectedClick windows0 st0))
    = Popup.SendExportSelected options items
    /\ map Selected.tab items = Raw.tabs win
    /\ map Selected.tabIndex items = seq 0 (List.length (Raw.tabs win))
    /\ windows (createSessionFromSelectedTabs items md)
       = match filter (fun tab => isValidURL (Raw.url tab)) (Raw.tabs win) with
         | [] => []
         | validTabs =>
             [("window_1",
               {| active := true; incognito := false;
                  tabs := map (fun it => selected_tab md (fst it) (snd it))
                              (indexed validTabs) |})]
         end.
Proof.
  intros Hw Hne.
  set (items := map (fun ix => {| Selected.windowIndex := w; Selected.tabIndex := fst ix;
                                  Selected.tab := snd ix |})
                    (indexed (Raw.tabs win))).
  assert (Htabs : map Selected.tab items = Raw.tabs win).
  { unfold items. rewrite map_map. cbn [Selected.tab]. apply indexed_snd. }
  exists items. split; [|split; [exact Htabs|split]].
  - unfold Popup.handleExportSelectedConfirm, Popup.handleWindowCheckboxChange,
      Popup.handleExportSelectedClick.
    cbn [Popup.exportTabs Popup.exportSelectedTabs]. rewrite Hw.
    rewrite (set_add_seq w (List.length (Raw.tabs win)) 0 []) by reflexivity.
    cbn [app]. rewrite length_map, length_seq.
    destruct (List.length (Raw.tabs win) =? 0)%nat eqn:E.
    { apply Nat.eqb_eq, length_zero_iff_nil in E. contradiction. }
    match goal with
    | |- context [Popup.collect (Popup.selected_item ?st)] =>
        rewrite (collect_window st w win Hw (Raw.tabs win) 0); [reflexivity|]
    end.
    intros i x Hx. exact Hx.
  - unfold items. rewrite map_map. cbn [Selected.tabIndex]. apply indexed_fst.
  - assert (Hitems : items <> []).
    { intros E. rewrite E in Htabs. cbn in Htabs. congruence. }
    assert (Hall : Forall (fun it => Selected.windowIndex it = w) items).
    { unfold items. apply Forall_map, Forall_forall. reflexivity. }
    unfold createSessionFromSelectedTabs. cbn [windows].
    rewrite (group_by_window_same w items Hitems Hall), Htabs.
    cbn [indexed List.length seq combine fold_left fst snd].
    destruct (filter _ (Raw.tabs win)) as [|t ts]; reflexivity.
Qed.
End TickedWindow.

(* ===================================================================== *)
(** ** The import page: the tabs ticked *)
(* ===================================================================== *)

Section Ticked.
Import ImportSelected.

Lemma split_digits (u : Decimal.uint) :
  split_hyphen (NilEmpty.string_of_uint u) = [NilEmpty.string_of_uint u].
Proof.
  induction u; cbn [NilEmpty.string_of_uint split_hyphen]; try reflexivity;
    rewrite IHu; reflexivity.
Qed.

Lemma split_checkbox_id (k : string) (i : nat) :
  no_hyphen k = true -> split_hyphen (checkbox_id (k, i)) = [k; decimal i].
Proof.
  unfold checkbox_id, no_hyphen. cbn [fst snd].
  change (k +++ "-" +++ decimal i) with (k +++ String "-" (decimal i)).
  induction k as [|c k IH];
    cbn [list_ascii_of_string forallb String.append split_hyphen].
  - intros _. cbn [Ascii.eqb Bool.eqb andb]. unfold decimal. now rewrite split_digits.
  - intros Hk. apply andb_true_iff in Hk as [Hc Hk]. apply negb_true_iff in Hc.
    rewrite Hc, (IH Hk). reflexivity.
Qed.

Lemma add_key_last {A : Type} (k : string) (v : A) (o : list (string * A)) :
  array_index k = None -> add_key k v o = o ++ [(k, v)].
Proof.
  intros Hk. induction o as [|[k' v'] o IH]; cbn [add_key app]; [reflexivity|].
  now rewrite Hk, IH.
Qed.

Lemma lookup_last {A : Type} (k : string) (v : A) (o : list (string * A)) :
  ~ In k (JSON.keys o) -> JSON.lookup k (o ++ [(k, v)]) = Some v.
Proof.
  induction o as [|[k' v'] o IH]; cbn [JSON.lookup JSON.keys map app fst]; intros Hk.
  - now rewrite String.eqb_refl.
  - destruct (String.eqb k k') eqn:E.
    + apply String.eqb_eq in E. subst k'. exfalso. apply Hk. now left.
    + apply IH. intros Hin. apply Hk. now right.
Qed.

Lemma update_last {A : Type} (k : string) (f : A -> A) (v : A) (o : list (string * A)) :
  ~ In k (JSON.keys o) -> update k f (o ++ [(k, v)]) = o ++ [(k, f v)].
Proof.
  induction o as [|[k' v'] o IH]; cbn [update JSON.keys map app fst]; intros Hk.
  - now rewrite String.eqb_refl.
  - destruct (String.eqb k k') eqn:E.
    + apply String.eqb_eq in E. subst k'. exfalso. apply Hk. now left.
    + f_equal. apply IH. intros Hin. apply Hk. now right.
Qed.

Context {P : Page}.
Hypothesis parseInt_decimal : forall i, parseInt (decimal i) = Some i.

(** The turns of the loop for the tabs of one window after the first. *)
Lemma select_rest (current : list (string * Window)) (k : string) (w : Window)
    (acc : list (string * sent_window)) :
  plain_key k = true ->
  JSON.lookup k current = Some w ->
  ~ In k (JSON.keys acc) ->
  forall rest done,
    tabs w = done ++ rest ->
    select_tabs (Some current)
      (acc ++ [(k, {| sent_active := Some (active w);
                      sent_incognito := Some (incognito w);
                      sent_tabs := map Some done |})])
      (map checkbox_id (map (pair k) (seq (List.length done) (List.length rest))))
    = inr (acc ++ [(k, whole w)]).
Proof.
  intros Hk Hw Hacc. unfold plain_key in Hk.
  apply andb_true_iff in Hk as [Hk Harr]. apply andb_true_iff in Hk as [Hhy Hinh].
  apply negb_true_iff in Hinh.
  induction rest as [|t rest IH]; intros done Hd; cbn [List.length seq map select_tabs].
  - rewrite app_nil_r in Hd. unfold whole. now rewrite Hd.
  - unfold select_tab. rewrite (split_checkbox_id k _ Hhy). cbn [nth nth_error].
    rewrite Hinh, parseInt_decimal, (lookup_last k _ acc Hacc), Hw.
    rewrite (update_last k _ _ acc Hacc). unfold push.
    cbn [sent_active sent_incognito sent_tabs].
    assert (Hn : nth_error (tabs w) (List.length done) = Some t).
    { rewrite Hd, nth_error_app2, Nat.sub_diag by lia. reflexivity. }
    rewrite Hn.
    specialize (IH (done ++ [t])). rewrite length_app, map_app in IH. cbn [List.length map] in IH.
    rewrite Nat.add_1_r in IH. apply IH. now rewrite <- app_assoc.
Qed.

(** The turns of the loop for all the tabs of one window. *)
Lemma select_window (current : list (string * Window)) (k : string) (w : Window)
    (acc : list (string * sent_window)) :
  plain_key k = true ->
  JSON.lookup k current = Some w ->
  ~ In k (JSON.keys acc) ->
  select_tabs (Some current) acc
    (map checkbox_id (map (pair k) (seq 0 (List.length (tabs w)))))
  = inr (if has_tabs (k, w) then acc ++ [(k, whole w)] else acc).
Proof.
  intros Hk Hw Hacc. unfold has_tabs. cbn [snd].
  destruct (tabs w) as [|t ts] eqn:Ht; [reflexivity|].
  cbn [List.length seq map select_tabs Nat.eqb negb].
  pose proof Hk as Hk'. unfold plain_key in Hk'.
  apply andb_true_iff in Hk' as [Hk' Harr]. apply andb_true_iff in Hk' as [Hhy Hinh].
  apply negb_true_iff in Hinh.
  destruct (array_index k) eqn:Hai; [discriminate|].
  unfold select_tab. rewrite (split_checkbox_id k _ Hhy). cbn [nth nth_error].
  rewrite Hinh, parseInt_decimal, (lookup_fresh k acc Hacc), Hw.
  rewrite (add_key_last k _ acc Hai), (update_last k _ _ acc Hacc).
  unfold push, copy. cbn [sent_active sent_incognito sent_tabs app]. rewrite Ht.
  cbn [nth_error].
  apply (select_rest current k w acc Hk Hw Hacc ts [t]). exact Ht.
Qed.

Lemma select_tabs_app (current : option (list (string * Window))) (a b : list string) :
  forall acc,
    select_tabs current acc (a ++ b)
    = match select_tabs current acc a with
      | inl e => inl e
      | inr acc' => select_tabs current acc' b
      end.
Proof.
  induction a as [|x a IH]; intros acc; cbn [app select_tabs]; [reflexivity|].
  destruct (select_tab current acc x); [reflexivity|apply IH].
Qed.

Lemma lookup_member {A : Type} (k : string) (v : A) (o : list (string * A)) :
  NoDup (JSON.keys o) -> In (k, v) o -> JSON.lookup k o = Some v.
Proof.
  induction o as [|[k' v'] o IH]; cbn [JSON.keys map fst JSON.lookup]; intros Hnd Hin;
    [destruct Hin|]. destruct Hin as [E|Hin].
  - injection E as -> ->. now rewrite String.eqb_refl.
  - inversion Hnd as [|? ? Hnotin Hnd']; subst.
    destruct (String.eqb k k') eqn:E.
    + apply String.eqb_eq in E. subst k'. exfalso. apply Hnotin.
      change k with (fst (k, v)). now apply in_map.
    + now apply IH.
Qed.

(** With every tab ticked, the loop builds the windows that have tabs, each
    with all its tabs. *)
Lemma select_all (current : list (string * Window)) :
  NoDup (JSON.keys current) ->
  Forall (fun kw => plain_key (fst kw) = true) current ->
  forall ws acc,
    incl ws current ->
    NoDup (JSON.keys ws) ->
    (forall k, In k (JSON.keys acc) -> ~ In k (JSON.keys ws)) ->
    select_tabs (Some current) acc
      (map checkbox_id (flat_map (fun kw => map (fun i => (fst kw, i))
                                          (seq 0 (List.length (tabs (snd kw))))) ws))
    = inr (acc ++ map (fun kw => (fst kw, whole (snd kw))) (filter has_tabs ws)).
Proof.
  intros Hnd Hplain.
  induction ws as [|[k w] ws IH]; intros acc Hincl Hws Hacc; cbn [flat_map map filter].
  - now rewrite app_nil_r.
  - rewrite map_app, select_tabs_app. cbn [fst snd].
    assert (Hin : In (k, w) current) by (apply Hincl; now left).
    assert (Hk : plain_key k = true).
    { rewrite Forall_forall in Hplain. apply (Hplain (k, w) Hin). }
    assert (Hfresh : ~ In k (JSON.keys acc)).
    { intros Hka. apply (Hacc k Hka). cbn [JSON.keys map fst]. now left. }
    change (map (fun i => (k, i))) with (map (pair (B := nat) k)).
    rewrite (select_window current k w acc Hk (lookup_member k w current Hnd Hin) Hfresh).
    cbn [JSON.keys map fst] in Hws. inversion Hws as [|? ? Hnotin Hws']; subst.
    rewrite IH.
    + destruct (has_tabs (k, w)); cbn [map fst snd]; [now rewrite <- app_assoc|reflexivity].
    + intros x Hx. apply Hincl. now right.
    + exact Hws'.
    + intros k0 Hk0. destruct (has_tabs (k, w)).
      * unfold JSON.keys in Hk0. rewrite map_app, in_app_iff in Hk0.
        destruct Hk0 as [Hk0|[<-|[]]].
        -- intros Hin0. apply (Hacc k0 Hk0). cbn [JSON.keys map fst]. now right.
        -- exact Hnotin.
      * intros Hin0. apply (Hacc k0 Hk0). cbn [JSON.keys map fst]. now right.
Qed.

Context {H : Host}.

Lemma all_defined_whole (ts : list Tab) : all_defined (map Some ts) = ts.
Proof. induction ts as [|t ts IH]; cbn [map all_defined flat_map app]; [|fold (all_defined (map Some ts)); rewrite IH]; reflexivity. Qed.

Lemma defined_whole (w : Window) : defined (whole w) = w.
Proof.
  destruct w as [a i ts]. unfold defined, whole.
  cbn [sent_active sent_incognito sent_tabs active incognito tabs].
  now rewrite all_defined_whole.
Qed.

Lemma first_error_whole (ts : list Tab) :
  first_error (map Some ts) = match find invalid (map url ts) with
                              | Some u => Some ("Invalid URL detected: " +++ u)
                              | None => None
                              end.
Proof.
  induction ts as [|t ts IH]; cbn [map first_error find]; [reflexivity|].
  unfold invalid at 1. destruct (negb (isValidURL (url t))); [reflexivity|exact IH].
Qed.

Lemma first_error_windows (ws : list (string * Window)) :
  find (fun e : option Exn => match e with Some _ => true | None => false end)
       (map (fun kw => first_error (sent_tabs (snd kw)))
            (map (fun kw => (fst kw, whole (snd kw))) ws))
  = match find invalid (flat_map (fun kw => map url (tabs (snd kw))) ws) with
    | Some u => Some (Some ("Invalid URL detected: " +++ u))
    | None => None
    end.
Proof.
  induction ws as [|kw ws IH]; cbn [map find flat_map fst snd]; [reflexivity|].
  rewrite find_app.
  change (sent_tabs (whole (snd kw))) with (map Some (tabs (snd kw))).
  rewrite first_error_whole.
  destruct (find invalid (map url (tabs (snd kw)))); [reflexivity|exact IH].
Qed.

Lemma urls_of_windows_with_tabs (ws : list (string * Window)) :
  flat_map (fun kw => map url (tabs (snd kw))) (filter has_tabs ws)
  = flat_map (fun kw => map url (tabs (snd kw))) ws.
Proof.
  induction ws as [|kw ws IH]; cbn [filter flat_map]; [reflexivity|].
  unfold has_tabs at 1. destruct (tabs (snd kw)) as [|t ts] eqn:E;
    cbn [List.length Nat.eqb negb flat_map map app]; [exact IH|].
  rewrite E, IH. reflexivity.
Qed.

Lemma create_windows_with_tabs (r : bool) (ws : list (string * Window)) :
  forall created br,
    fold_each (filter has_tabs ws) created (create_window r) br
    = fold_each ws created (create_window r) br.
Proof.
  induction ws as [|kw ws IH]; intros created br; cbn [filter fold_each]; [reflexivity|].
  unfold has_tabs at 1. destruct (List.length (tabs (snd kw)) =? 0)%nat eqn:E;
    cbn [negb fold_each].
  - unfold bind. unfold create_window at 2. rewrite length_map, E. unfold ret at 1. apply IH.
  - unfold bind. destruct (create_window r created kw br) as [[e|c] br1]; [reflexivity|apply IH].
Qed.

Lemma importSession_windows_with_tabs (options : Options.t) (s1 s2 : Session) (br : Browser) :
  windows s1 = filter has_tabs (windows s2) ->
  importSession options (Some s1) br = importSession options (Some s2) br.
Proof.
  intros Hw. unfold importSession, catch, bind. rewrite !validate_urls_run.
  unfold all_urls. rewrite Hw, urls_of_windows_with_tabs.
  destruct (find invalid _); cbn [validation]; [reflexivity|].
  now rewrite create_windows_with_tabs.
Qed.

(** X21: with every tab ticked, as the page leaves them when it has drawn a
    plain file, Import Selected does what Import All does: the same answer
    and the same windows, for a file whose window keys are as the exporter
    writes them. *)
Theorem import_selected_all_ticked (session : Session) (st : ImportPage.state)
    (restoreIncognito : bool) (br : Browser) :
  NoDup (JSON.keys (windows session)) ->
  Forall (fun kw => plain_key (fst kw) = true) (windows session) ->
  handleImport_selected restoreIncognito
    (ImportPage.processSession (ImportPage.PlainFile session) st) br
  = ImportPage.handleImport_all restoreIncognito
      (ImportPage.processSession (ImportPage.PlainFile session) st) br.
Proof.
  intros Hnd Hplain.
  unfold handleImport_selected, ImportPage.handleImport_all, ImportPage.processSession.
  cbn [ImportPage.encrypted ImportPage.currentSession ImportPage.selectedTabs option_map].
  unfold ImportPage.all_tabs.
  rewrite (select_all (windows session) Hnd Hplain (windows session) []
             (incl_refl _) Hnd (fun k Hk => match Hk with end)).
  cbn [app]. rewrite first_error_windows, urls_of_windows_with_tabs.
  fold (all_urls session).
  destruct (find invalid (all_urls session)) as [u|] eqn:Hf.
  - unfold importSession, catch, bind. rewrite validate_urls_run, Hf. reflexivity.
  - apply importSession_windows_with_tabs. cbn [sent windows].
    rewrite map_map. cbn [fst snd].
    rewrite (map_ext (fun kw : string * Window => (fst kw, defined (whole (snd kw))))
                     (fun kw => kw))
      by (intros [k w]; cbn [fst snd]; now rewrite defined_whole).
    apply map_id.
Qed.

(** X22: with no tab ticked, whatever the page holds, also nothing, Import
    Selected sends a session without windows, and the answer is a success
    that restored nothing. *)
Theorem import_selected_none_ticked (st : ImportPage.state) (restoreIncognito : bool)
    (br : Browser) :
  ImportPage.selectedTabs st = [] ->
  handleImport_selected restoreIncognito st br
  = (inr (ImportOk "Restored 0 windows with 0 tabs" 0 0), br).
Proof.
  intros Hs. unfold handleImport_selected. rewrite Hs. cbn [map select_tabs find].
  destruct (ImportPage.currentSession st) as [[s|w]|]; reflexivity.
Qed.
End Ticked.

(* ===================================================================== *)
(** ** The reference [parseInt] reads what [String] writes *)
(* ===================================================================== *)

Lemma digits_of_uint (u : Decimal.uint) :
  ReferencePage.digits (NilEmpty.string_of_uint u) = NilEmpty.string_of_uint u.
Proof.
  induction u; cbn [NilEmpty.string_of_uint ReferencePage.digits]; try reflexivity;
    match goal with
    | |- (if ?c then _ else _) = _ => replace c with true by (vm_compute; reflexivity)
    end; now rewrite IHu.
Qed.

Lemma parse_int_decimal (i : nat) : ReferencePage.parse_int (decimal i) = Some i.
Proof.
  unfold ReferencePage.parse_int, decimal. rewrite digits_of_uint.
  destruct (NilEmpty.string_of_uint (Nat.to_uint i)) as [|c s] eqn:E.
  - pose proof E as E0.
    apply (f_equal NilEmpty.uint_of_string) in E. rewrite NilEmpty.usu in E.
    cbn in E. injection E as E. apply (f_equal Nat.of_uint) in E.
    rewrite Unsigned.of_to in E. subst i. vm_compute in E0. discriminate E0.
  - rewrite <- E, NilEmpty.usu. cbn [option_map]. now rewrite Unsigned.of_to.
Qed.

(* ===================================================================== *)
(** ** The statements above on the examples *)
(* ===================================================================== *)

Lemma one_window : [Sample.scenario] <> [].
Proof. discriminate. Qed.

Lemma signature_format_witness :
  exists digest tag,
    fst (generateHash "{}" []) = inr digest
    /\ fst (generateHMAC "AAAA" Sample.password []) = inr tag
    /\ String.length digest = 64%nat /\ String.length tag = 64%nat.
Proof.
  destruct (signature_format "{}" Sample.password [] example_password)
    as [digest [tag [Hd [_ [Ld [_ [Lt _]]]]]]].
  destruct (signature_format "AAAA" Sample.password [] example_password)
    as [digest' [tag' [_ [Ht [_ [_ [Lt' _]]]]]]].
  exists digest, tag'. rewrite Hd, Ht. auto.
Defined.

Lemma exportCurrentWindow_reports_witness :
  exists response,
    fst (exportCurrentWindow (H := Reference.host) Sample.plain Sample.scenario
           Sample.salt Sample.iv []) = inr response.
Proof.
  eexists.
  apply (exportCurrentWindow_reports (H := Reference.host) Sample.plain Sample.scenario
           Sample.salt Sample.iv [] eq_refl).
Defined.

Lemma exportAllWindows_reports_witness :
  exists response,
    fst (exportAllWindows (H := Reference.host) Sample.plain
           [Sample.scenario] Sample.salt Sample.iv []) = inr response.
Proof.
  eexists.
  apply (exportAllWindows_reports (H := Reference.host) Sample.plain
           [Sample.scenario] Sample.salt Sample.iv [] one_window eq_refl).
Defined.

Lemma exportPinnedTabs_reports_witness :
  exists response,
    fst (exportPinnedTabs (H := Reference.host) Sample.plain [Sample.scenario]
           Sample.salt Sample.iv []) = inr response.
Proof.
  eexists.
  apply (exportPinnedTabs_reports (H := Reference.host) Sample.plain [Sample.scenario]
           Sample.salt Sample.iv [] eq_refl).
Defined.

Lemma exportSelectedTabs_reports_witness :
  exists response,
    fst (exportSelectedTabs (H := Reference.host) Sample.plain (Some Sample.c_then_a)
           Sample.salt Sample.iv []) = inr response.
Proof.
  eexists.
  apply (exportSelectedTabs_reports (H := Reference.host) Sample.plain (Some Sample.c_then_a)
           Sample.salt Sample.iv [] eq_refl).
Defined.


Lemma legacy_exportAllWindows_witness :
  exists response filename text,
    LegacyExport.exportAllWindows (H := Reference.host) Sample.plain [Sample.scenario] []
    = (inr response, [Download filename text]).
Proof.
  destruct (legacy_exportAllWindows (H := Reference.host) Sample.plain [Sample.scenario] []
              one_window) as [md [_ [_ [Hrun _]]]].
  do 3 eexists. exact Hrun.
Defined.

Lemma exported_session_passes_validation_witness :
  validate_urls (H := Reference.host)
    (createSession (H := Reference.host) [Sample.scenario] Sample.no_modes)
    Sample.empty_browser
  = (inr tt, Sample.empty_browser).
Proof.
  apply (exported_session_passes_validation (H := Reference.host) [Sample.scenario]
           Sample.c_then_a Sample.no_modes Sample.empty_browser eq_refl).
Defined.

Lemma reference_create_total (d : CreateData) (br : Reference.browser) :
  exists id br', windows_create (Host := Reference.host) d br = (inr id, br').
Proof. do 2 eexists. reflexivity. Qed.

Lemma reference_query_total (id : nat) (br : Reference.browser) :
  exists ts br', tabs_query (Host := Reference.host) id br = (inr ts, br').
Proof. do 2 eexists. reflexivity. Qed.

Lemma reference_update_total (id : nat) (br : Reference.browser) :
  exists br', tabs_update_pinned (Host := Reference.host) id br = (inr tt, br').
Proof. eexists. reflexivity. Qed.

Lemma importSession_counts_witness :
  exists br',
    importSession (H := Reference.host) Sample.plain (Some Sample.session) Sample.empty_browser
    = (inr (ImportOk "Restored 1 windows with 2 tabs" 1 2), br').
Proof.
  apply (importSession_counts (H := Reference.host) reference_create_total
           reference_query_total reference_update_total Sample.plain Sample.session
           Sample.empty_browser).
  vm_compute. reflexivity.
Defined.

Lemma importSession_restores_witness :
  exists br' message w n,
    importSession (H := Reference.host) Sample.plain (Some Sample.session) Sample.empty_browser
    = (inr (ImportOk message w n), br')
    /\ map Restored.view (Reference.open_windows br')
       = [(false, true, [("https://a.example", true); ("https://b.example", false)])].
Proof.
  apply (importSession_restores Sample.plain Sample.session Sample.empty_browser);
    vm_compute; reflexivity.
Defined.

Lemma export_then_import_witness :
  exists br' message w n,
    importSession (H := Reference.host) Sample.plain
      (Some (createSession (H := Reference.host) [Sample.scenario] Sample.no_modes))
      Sample.empty_browser
    = (inr (ImportOk message w n), br')
    /\ map Restored.view (Reference.open_windows br')
       = [(false, true, [("https://a.example", true); ("https://b.example", false)])].
Proof.
  apply (export_then_import [Sample.scenario] Sample.no_modes Sample.plain
           Sample.empty_browser); vm_compute; reflexivity.
Defined.

(** The counts the handler passes do not reach the session. *)
Lemma createSession_counts_unused {H : Host} (ws : list Raw.window) (name : option string)
    (tabCount windowCount : nat) (privacy secure : bool) :
  createSession ws (modes name tabCount windowCount privacy secure)
  = createSession ws (modes name 0 0 privacy secure).
Proof. reflexivity. Qed.

Lemma example_counts_fit (tabCount windowCount : nat) :
  fits (H := Reference.host)
    (List.length
       (encode (stringify
                  (session_json
                     (createSession (H := Reference.host) [Sample.scenario]
                        (modes (Some "All Windows Session") tabCount windowCount
                               (PopupForm.privacy_mode Cases.form) true)))))
     + 16).
Proof.
  rewrite createSession_counts_unused. unfold fits. apply N.leb_le. vm_compute. reflexivity.
Qed.

Lemma popup_secure_export_witness :
  (8 <= utf16_length Sample.password)%nat
  /\ exists text,
       In (Download "session_all_20240309_140507.sportab" text)
          (snd (exportAllWindows (H := Reference.host) (Sample.secure Sample.password)
                  [Sample.scenario] Sample.salt Sample.iv [])).
Proof.
  destruct (popup_secure_export (H := Reference.host) Cases.form
              (Sample.secure Sample.password) [Sample.scenario] Sample.salt Sample.iv []
              eq_refl eq_refl one_window example_iv example_counts_fit example_salt_fits
              example_iv_fits)
    as [Hlen [_ [md [c [_ [_ [_ [_ Hlog]]]]]]]].
  split; [exact Hlen|]. eexists. rewrite Hlog.
  apply in_or_app. right. apply in_or_app. right. right. right. left. reflexivity.
Defined.

Lemma ticked_window_export_witness :
  exists items,
    Popup.handleExportSelectedConfirm (Some Sample.plain)
      (Popup.handleWindowCheckboxChange 0 true
         (Popup.handleExportSelectedClick [Sample.abc] Cases.popup))
    = Popup.SendExportSelected Sample.plain items
    /\ map Selected.tab items = Raw.tabs Sample.abc.
Proof.
  destruct (ticked_window_export (H := Reference.host) [Sample.abc] 0 Sample.abc Cases.popup
              Sample.plain Sample.no_modes eq_refl) as [items [Hs [Ht _]]].
  - discriminate.
  - exists items. split; assumption.
Defined.

Lemma import_selected_all_ticked_witness :
  ImportSelected.handleImport_selected (H := Reference.host) (P := ReferencePage.page) false
    (ImportPage.processSession (ImportPage.PlainFile Sample.session) Sample.fresh_page)
    Sample.empty_browser
  = ImportPage.handleImport_all (H := Reference.host) false
      (ImportPage.processSession (ImportPage.PlainFile Sample.session) Sample.fresh_page)
      Sample.empty_browser.
Proof.
  apply (import_selected_all_ticked (P := ReferencePage.page) parse_int_decimal
           (H := Reference.host) Sample.session Sample.fresh_page false Sample.empty_browser).
  - vm_compute. repeat constructor. intros [].
  - apply Forall_forall. intros kw Hin. vm_compute in Hin.
    destruct Hin as [<-|[]]. vm_compute. reflexivity.
Defined.

Lemma import_selected_none_ticked_witness :
  ImportSelected.handleImport_selected (H := Reference.host) (P := ReferencePage.page) true
    Sample.fresh_page Sample.empty_browser
  = (inr (ImportOk "Restored 0 windows with 0 tabs" 0 0), Sample.empty_browser).
Proof.
  apply (import_selected_none_ticked (P := ReferencePage.page) (H := Reference.host)
           Sample.fresh_page true Sample.empty_browser eq_refl).
Defined.

Lemma decryptData_authentic_witness :
  exists encrypted decrypted,
    GCM.encrypt (PBKDF2.derive (encode Sample.password) Sample.salt iterations) Sample.iv
      decrypted = Some encrypted
    /\ "{}" = decode decrypted.
Proof.
  destruct (gcm_encrypt_total (PBKDF2.derive (encode Sample.password) Sample.salt iterations)
              Sample.iv (encode "{}") example_iv) as [c Hc].
  destruct (decryptData_authentic _ _ _ _ _ _ _
              (decryptData_run "{}" Sample.password _ Sample.salt Sample.iv c [] eq_refl Hc))
    as [encrypted [salt [iv [decrypted [_ [Hs [Hi [He [Ht _]]]]]]]]].
  rewrite atob_btoa in Hs, Hi. injection Hs as <-. injection Hi as <-.
  exists encrypted, decrypted. split; assumption.
Defined.

(* ===================================================================== *)
(** ** The keys [createSession] writes *)
(* ===================================================================== *)

Lemma no_hyphen_uint (u : Decimal.uint) :
  ImportSelected.no_hyphen (NilEmpty.string_of_uint u) = true.
Proof.
  unfold ImportSelected.no_hyphen.
  induction u; cbn [NilEmpty.string_of_uint list_ascii_of_string forallb]; try reflexivity;
    rewrite IHu; reflexivity.
Qed.

Lemma not_a_number (c : ascii) (s : string) :
  Reference.is_digit c = false -> NilEmpty.uint_of_string (String c s) = None.
Proof.
  intros Hc. cbn [NilEmpty.uint_of_string].
  destruct (NilEmpty.uint_of_string s) as [d|]; [|reflexivity].
  destruct c as [[|] [|] [|] [|] [|] [|] [|] [|]]; try reflexivity; vm_compute in Hc;
    discriminate Hc.
Qed.

Lemma window_key_plain (i : nat) : ImportSelected.plain_key (numbered "window_" i) = true.
Proof.
  unfold ImportSelected.plain_key, numbered.
  replace (ImportSelected.no_hyphen ("window_" +++ decimal (i + 1))) with true.
  - replace (ImportSelected.array_index ("window_" +++ decimal (i + 1))) with (@None N).
    + reflexivity.
    + unfold ImportSelected.array_index.
      change ("window_" +++ decimal (i + 1)) with (String "w" ("indow_" +++ decimal (i + 1))).
      now rewrite not_a_number.
  - symmetry. unfold ImportSelected.no_hyphen.
    change (list_ascii_of_string ("window_" +++ decimal (i + 1)))
      with (list_ascii_of_string "window_"
              ++ list_ascii_of_string (decimal (i + 1))) at 1.
    rewrite forallb_app. apply andb_true_intro. split; [reflexivity|].
    apply no_hyphen_uint.
Qed.

Lemma NoDup_filter_fst {A B : Type} (P : A * B -> bool) (l : list (A * B)) :
  NoDup (map fst l) -> NoDup (map fst (filter P l)).
Proof.
  induction l as [|x l IH]; cbn [map filter]; intros Hnd; [constructor|].
  inversion Hnd as [|? ? Hnotin Hrest]; subst.
  destruct (P x); cbn [map]; [|now apply IH].
  constructor; [|now apply IH].
  intros Hin. apply Hnotin. apply in_map_iff in Hin as [y [Hy Hin]].
  apply filter_In in Hin as [Hin _]. apply in_map_iff. now exists y.
Qed.

Lemma NoDup_map_injective {A B : Type} (f : A -> B) (l : list A) :
  (forall x y, f x = f y -> x = y) -> NoDup l -> NoDup (map f l).
Proof.
  intros Hf. induction l as [|x l IH]; cbn [map]; intros Hnd; [constructor|].
  inversion Hnd as [|? ? Hnotin Hrest]; subst. constructor; [|now apply IH].
  intros Hin. apply Hnotin. apply in_map_iff in Hin as [y [Hy Hin]].
  apply Hf in Hy. now subst.
Qed.

Section KeysWritten.
Context {H : Host}.

(** X23: the windows [createSession] writes are the source windows with a
    valid tab, in order, each under the key [window_N] of its position [N]
    among all the source windows, counted from 1, with the focus and the
    incognito mark of its source and as many tabs as the source has valid
    ones; the keys are distinct, hold no hyphen, name no inherited property
    and are no array index, every window has a tab, and the tabs of a
    window are numbered from 1 in order. *)
Theorem createSession_shape (ws : list Raw.window) (md : Meta.t) :
  let s := createSession ws md in
  let valid := fun tab => isValidURL (Raw.url tab) in
  map (fun kw => (fst kw, active (snd kw), incognito (snd kw), List.length (tabs (snd kw))))
      (windows s)
  = map (fun iw => (numbered "window_" (fst iw), Raw.focused (snd iw),
                    Raw.incognito (snd iw), List.length (filter valid (Raw.tabs (snd iw)))))
        (filter (fun iw => existsb valid (Raw.tabs (snd iw))) (indexed ws))
  /\ NoDup (JSON.keys (windows s))
  /\ Forall (fun kw =>
               ImportSelected.plain_key (fst kw) = true
               /\ tabs (snd kw) <> []
               /\ map id (tabs (snd kw))
                  = map (numbered "tab_") (seq 0 (List.length (tabs (snd kw)))))
            (windows s).
Proof.
  cbv zeta. rewrite createSession_windows.
  assert (Hk : forall iw, kept iw
                          = existsb (fun tab => isValidURL (Raw.url tab)) (Raw.tabs (snd iw))).
  { intros iw. unfold kept, valid_tabs. apply filter_nonempty. }
  split; [|split].
  - rewrite map_map. cbn [fst snd]. rewrite (filter_ext _ _ Hk).
    apply map_ext. intros iw. now rewrite built_window_length.
  - unfold JSON.keys. rewrite map_map. cbn [fst].
    rewrite <- (map_map fst (numbered "window_")).
    apply NoDup_map_injective.
    + intros i j. apply numbered_inj.
    + apply NoDup_filter_fst, indexed_NoDup.
  - apply Forall_map, Forall_forall. intros iw Hin. cbn [fst snd].
    apply filter_In in Hin as [_ Hkept].
    split; [apply window_key_plain|]. split.
    + intros Hnil. apply (f_equal (@List.length Tab)) in Hnil.
      rewrite built_window_length in Hnil. unfold kept in Hkept.
      rewrite Hnil in Hkept. discriminate.
    + unfold built_window. cbn [tabs]. rewrite !map_map, length_map, indexed_length.
      unfold session_tab. cbn [id].
      rewrite <- (indexed_fst (valid_tabs (snd iw))) at 1.
      now rewrite map_map.
Qed.
End KeysWritten.

(* ===================================================================== *)
(** ** An import that fails on the way *)
(* ===================================================================== *)

Lemma fold_each_app {S A B : Type} (body : B -> A -> M S B) (l1 l2 : list A) :
  forall acc st,
    fold_each (l1 ++ l2) acc body st
    = match fold_each l1 acc body st with
      | (inl e, st1) => (inl e, st1)
      | (inr acc1, st1) => fold_each l2 acc1 body st1
      end.
Proof.
  induction l1 as [|x l1 IH]; intros acc st; cbn [app fold_each]; [reflexivity|].
  unfold bind. destruct (body acc x st) as [[e|acc1] st1]; [reflexivity|apply IH].
Qed.

Section Failing.
Context {H : Host}.

(** X24: when the URLs of a session are all valid and the windows before
    one of them were opened, but opening that one fails, in
    [windows.create], [tabs.query] or [tabs.update], the import answers
    with that error and the browser is left as the failure left it: the
    windows opened before stay open and the windows after it are not
    tried. *)
Theorem importSession_stops_at_failure (options : Options.t) (session : Session)
    (before after : list (string * Window)) (kw : string * Window) (created : nat * nat)
    (br br1 br2 : Browser) (error : string) :
  existsb invalid (all_urls session) = false ->
  windows session = before ++ kw :: after ->
  fold_each before (0, 0)%nat (create_window (Options.restoreIncognito options)) br
  = (inr created, br1) ->
  create_window (Options.restoreIncognito options) created kw br1 = (inl error, br2) ->
  importSession options (Some session) br = (inr (ImportError error), br2).
Proof.
  intros Hv Hw Hbefore Hfail. rewrite importSession_valid by exact Hv.
  unfold catch, bind. rewrite Hw, fold_each_app, Hbefore. cbn [fold_each].
  unfold bind. rewrite Hfail. reflexivity.
Qed.
End Failing.

Lemma importSession_stops_at_failure_witness :
  exists br',
    importSession (H := Guarded.host) Guarded.restore_private (Some Guarded.private_second)
      Sample.empty_browser
    = (inr (ImportError "Extension does not have permission for incognito mode"), br')
    /\ map Restored.view (Reference.open_windows br')
       = [(false, true, [("https://a.example", true)])].
Proof.
  eexists. split.
  - eapply (importSession_stops_at_failure (H := Guarded.host) Guarded.restore_private
              Guarded.private_second
              [("window_1", {| active := true; incognito := false;
                               tabs := [ {| id := "tab_1"; url := "https://a.example";
                                            title := "A"; pinned := true; group_id := None;
                                            favicon := None |} ] |})]).
    + vm_compute. reflexivity.
    + reflexivity.
    + vm_compute. reflexivity.
    + vm_compute. reflexivity.
  - vm_compute. reflexivity.
Defined.

Lemma base64_roundtrip_witness :
  exists text,
    btoa_spread (H := Reference.host) Sample.salt [] = (inr text, [])
    /\ atob_or_throw text [] = (inr Sample.salt, []).
Proof.
  destruct (base64_roundtrip (H := Reference.host) Sample.salt []) as [Hfits _].
  destruct (Hfits example_salt_fits) as [text [Hb Ha]].
  exists text. split; [exact Hb|exact (Ha [])].
Defined.

(** Without a password the key of the tag is the text [null]. *)
Lemma decryptSession_answers_witness :
  decryptSession (H := Reference.host) Sample.plain Sample.handmade []
  = (inr (DecryptError "Invalid password or corrupted file"), [ImportKey "HMAC"; Sign]).
Proof.
  destruct (decryptSession_answers (H := Reference.host) Sample.plain Sample.handmade [])
    as [_ [_ [Hrefused _]]].
  apply Hrefused; [reflexivity|]. right. vm_compute. discriminate.
Defined.

Lemma crowded_windows : Cases.crowded <> [].
Proof. discriminate. Qed.

(** The session of the crowded browser is beyond the limit of the reference
    engine. *)
Lemma crowded_beyond_limit (tabCount windowCount : nat) :
  ~ fits (H := Reference.host)
      (List.length
         (encode (stringify
                    (session_json
                       (createSession (H := Reference.host) Cases.crowded
                          (modes (Some "All Windows Session") tabCount windowCount
                                 (Options.privacyMode (Sample.secure Sample.password)) true)))))
       + 16).
Proof.
  rewrite createSession_counts_unused. unfold fits.
  apply N.lt_nge, N.ltb_lt. vm_compute. reflexivity.
Qed.

Lemma secure_export_beyond_limit_witness :
  exportAllWindows (H := Reference.host) (Sample.secure Sample.password) Cases.crowded
    Sample.salt Sample.iv []
  = (inr (ExportAllError "too many function arguments"), encrypt_calls).
Proof.
  apply (secure_export_beyond_limit (H := Reference.host) (Sample.secure Sample.password)
           Sample.password Cases.crowded Sample.salt Sample.iv [] crowded_windows
           eq_refl eq_refl example_password example_iv crowded_beyond_limit).
Defined.
